(** * Multi-stream recorder: a shallow embedding of
      [src/core/multi_stream_recorder.py] and of [main] in [src/main.py],
      with the properties of the recording orchestrator.

    The external collaborators (the TikTok API object [recorder.tiktok], the
    clock, the file sink, the post-processing hooks) are not part of the two
    source files.  Every call to one of them is answered by a _script_: a
    value that lists, in program order, what each call returns or raises.  The
    functions below are the Python functions with those answers made explicit,
    so every theorem quantified over scripts holds whatever the collaborators
    do.  A loop that Python may run for ever ends, in the model, with the
    script (or with the fuel, for the polling of the main thread), and says so
    in its result.  A [write] that raises comes with the number of bytes that
    it had put in the file before it raised, and each post-processing hook
    with what it does to the folders and the files.

    The stop event is the one piece of state shared with the main thread.  The
    only mutator the class ever calls is [set()], so a script marks, at each
    place where a worker reads the event, whether the main thread has run
    [stop_all_recordings] since the previous read.

    Layout: the model (file sink, streaming loop, strings, worker,
    orchestrator, target selection, display of the targets, resolution
    options), the notions and the concrete scripts used in the statements, the
    lemmas, the properties C1 to C10, and last the further properties X1 to
    X20 with the lemmas they need. *)

From Stdlib Require Import ZArith QArith Strings.Byte Ascii String DecimalString
  DecimalNat List Bool Lia.
From stdpp Require Import base gmap strings list.

#[local] Open Scope Z_scope.

(* ===================================================================== *)
(** ** Values shared by the whole model *)
(* ===================================================================== *)

Definition bytes := list byte.

(** The exception classes the handlers of the module tell apart (their
    declarations are in [utils/custom_exceptions.py], outside the two source
    files; [TikTokException] is taken not to be a subclass of
    [UserLiveException]).  [Exception] stands for every class that is neither
    of the first two: the built-in [Exception] raised at line 204, [OSError]
    of the sink, ...  The string is [str(ex)]. *)
Inductive exn :=
| UserLiveException (msg : string)
| TikTokException (msg : string)
| Exception (msg : string).

Definition str_of_exn (e : exn) : string :=
  match e with
  | UserLiveException m | TikTokException m | Exception m => m
  end.

(** Answer of one call to a collaborator. *)
Inductive answer (A : Type) :=
| Returns (a : A)
| Raises (e : exn).
Arguments Returns {A} a.
Arguments Raises {A} e.

Inductive level := INFO | ERROR | SUCCESS.

(** Calls that leave the worker, in program order. *)
Inductive event :=
| EIsRoomAlive (room_id : string)
| EGetRoomId (user : string)
| EGetLiveUrl (room_id : string)
| EDownload (live_url : string)
| ESleep (seconds : Z)
| EMakeDirs (path : string)
| EOpen (path : string)
| EClose (path : string)
| EConvert (path : string)
| EUpload (path : string)
| ELog (lv : level) (msg : string).

(** ANSI escape, [\033] in the Python literals. *)
Definition ESC : string := String "027"%char EmptyString.

(* ===================================================================== *)
(** ** The file sink *)
(* ===================================================================== *)

(** An open binary file: the payloads that reached it through [write],
    oldest first, and how many of them a completed [flush] (or [close]) has
    pushed out.  A [write] that raises may have put the beginning of its
    payload in the file before it raised: the scripts say how much. *)
Record File := mkFile {
  f_writes : list bytes;
  f_flushed : nat;
}.

Definition empty_file : File := mkFile [] 0.

Definition file_write (f : File) (data : bytes) : File :=
  mkFile (f_writes f ++ [data]) (f_flushed f).

Definition file_flush (f : File) : File :=
  mkFile (f_writes f) (length (f_writes f)).

(** Bytes handed to the file so far, and the part of them already flushed. *)
Definition file_content (f : File) : bytes := concat (f_writes f).
Definition file_durable (f : File) : bytes := concat (take (f_flushed f) (f_writes f)).

(* ===================================================================== *)
(** ** The streaming loop of [_start_recording_with_stop_event]
       (lines 228-264) *)
(* ===================================================================== *)

(** [buffer_size = 512 * 1024] *)
Definition buffer_size : Z := 512 * 1024.

(** State of one recording attempt while the [with open(...)] block runs.
    [st_appended] is a ghost field: every byte ever passed to
    [buffer.extend], in order. *)
Record RecState := mkRec {
  st_stop_event : bool;
  st_buffer : bytes;
  st_file : File;
  st_appended : bytes;
  st_trace : list event;
}.

(** [self.stop_event.is_set()], where [set_meanwhile] tells whether the main
    thread called [self.stop_event.set()] since the previous read.  The new
    state holds the value read. *)
Definition observe_stop (set_meanwhile : bool) (s : RecState) : RecState :=
  mkRec (st_stop_event s || set_meanwhile) (st_buffer s) (st_file s)
        (st_appended s) (st_trace s).

Definition emit (e : event) (s : RecState) : RecState :=
  mkRec (st_stop_event s) (st_buffer s) (st_file s) (st_appended s)
        (st_trace s ++ [e]).

(** [buffer.extend(chunk)] *)
Definition extend (chunk : bytes) (s : RecState) : RecState :=
  mkRec (st_stop_event s) (st_buffer s ++ chunk) (st_file s)
        (st_appended s ++ chunk) (st_trace s).

(** [out_file.write(buffer); buffer.clear()] with a write that succeeds. *)
Definition write_and_clear (s : RecState) : RecState :=
  mkRec (st_stop_event s) [] (file_write (st_file s) (st_buffer s))
        (st_appended s) (st_trace s).

(** [out_file.write(buffer)] that raises after the first [n] bytes of the
    buffer reached the file (all of them when the buffer is shorter); the
    buffer is not cleared.  When no byte got through, the file is as it
    was. *)
Definition write_partial (n : nat) (s : RecState) : RecState :=
  match take n (st_buffer s) with
  | [] => s
  | part =>
      mkRec (st_stop_event s) (st_buffer s) (file_write (st_file s) part)
            (st_appended s) (st_trace s)
  end.

(** [out_file.flush()] that succeeds. *)
Definition flush (s : RecState) : RecState :=
  mkRec (st_stop_event s) (st_buffer s) (file_flush (st_file s))
        (st_appended s) (st_trace s).

(** [recorder.duration and elapsed_time >= recorder.duration]: [None] and [0]
    are falsy. *)
Definition duration_reached (duration : option Z) (elapsed : Q) : bool :=
  match duration with
  | Some d => negb (d =? 0) && Qle_bool (inject_Z d) elapsed
  | None => false
  end.

(** One chunk yielded by [download_live_stream]: whether the stop event was
    set while it was fetched, the chunk, what [out_file.write] answers if line
    248 is reached, how many bytes of the buffer that write has put in the
    file when it raises, and [time.time()] of line 251.  Clock readings are
    rationals: the rounding of the floating-point subtraction is left out. *)
Record chunk_ev := mkChunkEv {
  ce_stop : bool;
  ce_chunk : bytes;
  ce_write : answer unit;
  ce_partial : nat;
  ce_now : Q;
}.

(** A chunk whose [write], if it raises, has put nothing in the file. *)
Definition mkChunk (stop : bool) (chunk : bytes) (write : answer unit)
    (now : Q) : chunk_ev :=
  mkChunkEv stop chunk write 0 now.

(** How the [for chunk in ...] statement of lines 241-254 is left. *)
Inductive for_exit :=
| ForExhausted               (* the generator ended *)
| ForStopEvent               (* lines 242-244 *)
| ForDuration                (* lines 252-254 *)
| ForRaised (e : exn).       (* the generator or [out_file.write] raised *)

Fixpoint for_chunks (duration : option Z) (start_time : Q)
    (chunks : list chunk_ev) (gen_end : answer unit) (s : RecState)
  : for_exit * RecState :=
  match chunks with
  | [] =>
      match gen_end with
      | Returns _ => (ForExhausted, s)
      | Raises e => (ForRaised e, s)
      end
  | c :: rest =>
      let s := observe_stop (ce_stop c) s in
      if st_stop_event s then (ForStopEvent, s)
      else
        let s := extend (ce_chunk c) s in
        let written :=
          if buffer_size <=? Z.of_nat (length (st_buffer s)) then
            match ce_write c with
            | Returns _ => Returns (write_and_clear s)
            | Raises e => Raises e
            end
          else Returns s in
        match written with
        | Raises e => (ForRaised e, write_partial (ce_partial c) s)
        | Returns s =>
            let elapsed_time := (ce_now c - start_time)%Q in
            if duration_reached duration elapsed_time then (ForDuration, s)
            else for_chunks duration start_time rest gen_end s
        end
  end.

(** One pass of the [while] body: the event read by the loop test, the
    answer of [is_room_alive], the chunks of this call of
    [download_live_stream] and how the generator ends, the answer of the
    [write] of the [finally] clause with the number of bytes it has put in
    the file when it raises, and the answer of the [flush]. *)
Record cycle := mkCycleEv {
  cy_stop : bool;
  cy_alive : answer bool;
  cy_chunks : list chunk_ev;
  cy_end : answer unit;
  cy_final_write : answer unit;
  cy_final_partial : nat;
  cy_flush : answer unit;
}.

(** A pass whose final [write], if it raises, has put nothing in the file. *)
Definition mkCycle (stop : bool) (alive : answer bool)
    (chunks : list chunk_ev) (gen_end final_write flush : answer unit)
  : cycle :=
  mkCycleEv stop alive chunks gen_end final_write 0 flush.

(** How the [try] suite of lines 237-254 is left. *)
Inductive try_exit :=
| TryBreak                   (* line 239: no longer live *)
| TryFor (x : for_exit).

(** The [finally] clause, lines 261-264. *)
Definition finally_clause (cy : cycle) (s : RecState) : answer unit * RecState :=
  let written :=
    match st_buffer s with
    | [] => Returns s
    | _ :: _ =>
        match cy_final_write cy with
        | Returns _ => Returns (write_and_clear s)
        | Raises e => Raises e
        end
    end in
  match written with
  | Raises e => (Raises e, write_partial (cy_final_partial cy) s)
  | Returns s =>
      match cy_flush cy with
      | Returns _ => (Returns tt, flush s)
      | Raises e => (Raises e, s)
      end
  end.

(** The [try] suite, lines 237-254. *)
Definition try_suite (thread_name room_id live_url : string)
    (duration : option Z) (start_time : Q) (cy : cycle) (s : RecState)
  : try_exit * RecState :=
  let s := emit (EIsRoomAlive room_id) s in
  match cy_alive cy with
  | Raises e => (TryFor (ForRaised e), s)
  | Returns false =>
      (TryBreak,
       emit (ELog INFO ("[" +:+ thread_name +:+
              "] User is no longer live. Stopping recording.")) s)
  | Returns true =>
      let '(x, s) := for_chunks duration start_time (cy_chunks cy) (cy_end cy)
                       (emit (EDownload live_url) s) in
      (TryFor x, s)
  end.

(** The handler [except Exception as ex], lines 256-258: it runs only when the
    [try] suite raised (and then sets [stop_recording]). *)
Definition except_clause (thread_name : string) (x : try_exit) (s : RecState)
  : RecState :=
  match x with
  | TryFor (ForRaised e) =>
      emit (ELog ERROR ("[" +:+ thread_name +:+ "] Recording error: "
                        +:+ str_of_exn e)) s
  | _ => s
  end.

(** Value of [stop_recording] when the [try] statement is left without
    [break]: the generator ended (still false), or one of the lines 243, 253
    and 258 set it. *)
Definition stop_recording_after (x : for_exit) : bool :=
  match x with
  | ForExhausted => false
  | ForStopEvent | ForDuration | ForRaised _ => true
  end.

(** How the [while] statement of line 235 is left. *)
Inductive loop_exit :=
| LoopStopRecording          (* [stop_recording] is true at the loop test *)
| LoopStopEvent              (* the stop event is set at the loop test *)
| LoopNotLive                (* [break] of line 239 *)
| LoopEscaped (e : exn)      (* the [finally] clause raised *)
| LoopRunning.               (* the script ends while the loop goes on *)

(** The [while] statement, lines 235-264.  The loop test reads the stop event
    only when [stop_recording] is false. *)
Fixpoint recording_loop (thread_name room_id live_url : string)
    (duration : option Z) (start_time : Q) (cycles : list cycle)
    (stop_recording : bool) (s : RecState) : loop_exit * RecState :=
  if stop_recording then (LoopStopRecording, s)
  else
    match cycles with
    | [] => (LoopRunning, s)
    | cy :: rest =>
        let s := observe_stop (cy_stop cy) s in
        if st_stop_event s then (LoopStopEvent, s)
        else
          let '(x, s) := try_suite thread_name room_id live_url duration
                           start_time cy s in
          let s := except_clause thread_name x s in
          match finally_clause cy s with
          | (Raises e, s) => (LoopEscaped e, s)
          | (Returns _, s) =>
              match x with
              | TryBreak => (LoopNotLive, s)
              | TryFor x =>
                  recording_loop thread_name room_id live_url duration
                    start_time rest (stop_recording_after x) s
              end
          end
    end.

(* ===================================================================== *)
(** ** Strings of the Python code *)
(* ===================================================================== *)

(** Truth value of an [Optional[str]]: [None] and [''] are falsy. *)
Definition truthy (o : option string) : bool :=
  match o with
  | Some s => negb (String.eqb s "")
  | None => false
  end.

(** [s.endswith(c)] for a one-character [c]. *)
Fixpoint endswith (s : string) (c : ascii) : bool :=
  match s with
  | EmptyString => false
  | String a EmptyString => Ascii.eqb a c
  | String _ r => endswith r c
  end.

(** [s.split('/')[-1]]: what follows the last slash; [seg] is the segment
    read so far. *)
Fixpoint last_segment (seg s : string) : string :=
  match s with
  | EmptyString => seg
  | String a r =>
      if Ascii.eqb a "/" then last_segment "" r
      else last_segment (seg +:+ String a EmptyString) r
  end.

(** [str(n)] for a natural number. *)
Definition str_of_nat (n : nat) : string :=
  NilZero.string_of_uint (Nat.to_uint n).

(** [s.replace(old, new)] for a non-empty [old]: occurrences are replaced from
    the left and do not overlap; [skip] counts the characters of a matched
    occurrence that are still to be dropped. *)
Fixpoint replace_from (old new : string) (skip : nat) (s : string) : string :=
  match s with
  | EmptyString => EmptyString
  | String a r =>
      match skip with
      | S k => replace_from old new k r
      | O =>
          if String.prefix old s
          then new +:+ replace_from old new (String.length old - 1) r
          else String a (replace_from old new 0 r)
      end
  end.

Definition str_replace (old new s : string) : string := replace_from old new 0 s.

(** [time.localtime()] and [time.strftime("%Y.%m.%d_%H-%M-%S", ...)]. *)
Record struct_time := mkTime {
  tm_year : nat; tm_mon : nat; tm_mday : nat;
  tm_hour : nat; tm_min : nat; tm_sec : nat;
}.

Definition two_digits (n : nat) : string :=
  if (n <? 10)%nat then "0" +:+ str_of_nat n else str_of_nat n.

Definition strftime (t : struct_time) : string :=
  str_of_nat (tm_year t) +:+ "." +:+ two_digits (tm_mon t) +:+ "." +:+
  two_digits (tm_mday t) +:+ "_" +:+ two_digits (tm_hour t) +:+ "-" +:+
  two_digits (tm_min t) +:+ "-" +:+ two_digits (tm_sec t).

(* ===================================================================== *)
(** ** The worker: [_record_stream] and what it calls *)
(* ===================================================================== *)

Inductive Mode := MANUAL | AUTOMATIC.

(** A target is a [(url, user, room_id)] tuple. *)
Definition target : Type := option string * option string * option string.

(** The fields of [MultiStreamRecorder] that the worker reads. *)
Record MultiStreamRecorder := mkMulti {
  targets : list target;
  mode : Mode;
  automatic_interval : Z;
  proxy : option string;
  output : option string;
  duration : option Z;
  use_telegram : bool;
}.

(** The fields of a constructed [TikTokRecorder] that the worker reads.  The
    constructor is not part of the two source files: a script supplies the
    object it returns. *)
Record Recorder := mkRecorder {
  r_user : string;
  r_room_id : string;
  r_output : option string;
  r_duration : option Z;
  r_use_telegram : bool;
}.

Definition set_room_id (room_id : string) (r : Recorder) : Recorder :=
  mkRecorder (r_user r) room_id (r_output r) (r_duration r) (r_use_telegram r).

(** What a worker can see and change outside its own locals: the shared stop
    event, the directories and files of the file system, and the calls made
    so far. *)
Record World := mkWorld {
  stop_event : bool;
  dirs : gset string;
  disk : gmap string bytes;
  trace : list event;
}.

(** [self.stop_event.is_set()] at the level of the world. *)
Definition is_set (set_meanwhile : bool) (w : World) : World :=
  mkWorld (stop_event w || set_meanwhile) (dirs w) (disk w) (trace w).

Definition call (e : event) (w : World) : World :=
  mkWorld (stop_event w) (dirs w) (disk w) (trace w ++ [e]).

Definition logger (lv : level) (msg : string) (w : World) : World :=
  call (ELog lv msg) w.

(** The separators of a path: the slash, and on Windows ([os.name == 'nt'])
    the backslash as well. *)
Definition is_sep (os_name : string) (a : ascii) : bool :=
  Ascii.eqb a "/" || (String.eqb os_name "nt" && Ascii.eqb a "\").

(** The directories above [path]: what stands before each separator of the
    path ([seen] is the part of the path read so far), unless that is empty
    or ends with a separator itself. *)
Fixpoint ancestors (os_name : string) (seen path : string) : list string :=
  match path with
  | EmptyString => []
  | String a rest =>
      (if is_sep os_name a && negb (String.eqb seen "") &&
          negb (endswith seen "/" ||
                (String.eqb os_name "nt" && endswith seen "\"))
       then [seen] else []) ++
      ancestors os_name (seen +:+ String a EmptyString) rest
  end.

(** [os.makedirs(path, exist_ok=True)] that succeeds: the directory exists
    afterwards, and so does every directory above it. *)
Definition makedirs (os_name : string) (path : string) (w : World) : World :=
  mkWorld (stop_event w)
          ({[ path ]} ∪ list_to_set (ancestors os_name "" path) ∪ dirs w)
          (disk w) (trace w).

(** What a post-processing hook does to the folders and the files.  The
    hooks are in [utils/video_management.py] and [upload/telegram.py],
    outside the two source files: a script supplies their effect. *)
Definition fs_effect : Type :=
  gset string * gmap string bytes -> gset string * gmap string bytes.

Definition affect (f : fs_effect) (w : World) : World :=
  mkWorld (stop_event w) (fst (f (dirs w, disk w))) (snd (f (dirs w, disk w)))
          (trace w).

(** The file at [path] now holds [data]. *)
Definition store (path : string) (data : bytes) (w : World) : World :=
  mkWorld (stop_event w) (dirs w) (<[ path := data ]> (disk w)) (trace w).

(** Result of a function of the worker: it returned, it raised, or the script
    ended while it was still running. *)
Inductive result (A : Type) :=
| Done (a : A)
| Raised (e : exn)
| Running.
Arguments Done {A} a.
Arguments Raised {A} e.
Arguments Running {A}.

(** Lines 209-215: the output directory with its separator. *)
Definition base_output (os_name : string) (out : option string) : string :=
  let base := if truthy out then default "" out else "" in
  if negb (String.eqb base "") then
    if negb (endswith base "/" || endswith base "\") then
      if String.eqb os_name "nt" then base +:+ "\" else base +:+ "/"
    else base
  else base.

(** Line 217. *)
Definition user_folder (os_name : string) (r : Recorder) : string :=
  base_output os_name (r_output r) +:+ r_user r +:+ "/".

(** Line 223. *)
Definition output_suffix (n_targets : nat) (thread_name : string) : string :=
  if (1 <? n_targets)%nat then "_" +:+ thread_name else "".

(** Line 224. *)
Definition output_path (os_name : string) (r : Recorder) (current_date : string)
    (n_targets : nat) (thread_name : string) : string :=
  user_folder os_name r +:+ "TK_" +:+ r_user r +:+ "_" +:+ current_date +:+
  output_suffix n_targets thread_name +:+ "_flv.mp4".

(** The message of line 204. *)
Definition no_url_message (thread_name : string) : string :=
  "[" +:+ thread_name +:+ "] Could not retrieve live URL".

(** The messages of lines 226 and 266. *)
Definition started_message (thread_name out : string) : string :=
  "[" +:+ thread_name +:+ "] " +:+ ESC +:+ "[32mStarted recording" +:+ ESC +:+
  "[0m to: " +:+ out.

Definition finished_message (thread_name out : string) : string :=
  "[" +:+ thread_name +:+ "] " +:+ ESC +:+ "[36mRecording finished" +:+ ESC +:+
  "[0m: " +:+ out.

(** Lines 269-277: the post-processing hooks and their handler.  A hook
    changes folders and files as its effect says, whether it returns or
    raises. *)
Definition post_process (convert upload : answer unit)
    (convert_fs upload_fs : fs_effect) (r : Recorder)
    (thread_name out : string) (w : World) : World :=
  let failed (e : exn) (w : World) :=
    logger ERROR ("[" +:+ thread_name +:+ "] Post-processing error: "
                  +:+ str_of_exn e) w in
  let w := affect convert_fs (call (EConvert out) w) in
  match convert with
  | Raises e => failed e w
  | Returns _ =>
      if r_use_telegram r then
        let w := affect upload_fs
                   (call (EUpload (str_replace "_flv.mp4" ".mp4" out)) w) in
        match upload with
        | Raises e => failed e w
        | Returns _ => w
        end
      else w
  end.

(** What one call of [_start_recording_with_stop_event] meets. *)
Record rec_script := mkRecScriptFs {
  rs_live_url : answer (option string);
  rs_localtime : struct_time;
  rs_makedirs : answer unit;
  rs_open : answer unit;
  rs_start_time : Q;
  rs_cycles : list cycle;
  rs_convert : answer unit;
  rs_upload : answer unit;
  rs_convert_fs : fs_effect;
  rs_upload_fs : fs_effect;
}.

(** A call whose post-processing hooks leave folders and files alone. *)
Definition mkRecScript (live_url : answer (option string))
    (localtime : struct_time) (makedirs_answer open_answer : answer unit)
    (start_time : Q) (cycles : list cycle) (convert upload : answer unit)
  : rec_script :=
  mkRecScriptFs live_url localtime makedirs_answer open_answer start_time
                cycles convert upload id id.

(** The state in which the [with] block starts, and the world when it is
    left with [data] in the file.  When the block is left normally, closing
    the file pushes out everything written; when the sink raised in the
    [finally] clause (or the script ends inside the loop), only what a
    completed [flush] pushed out is taken to be in the file. *)
Definition enter_with (w : World) : RecState :=
  mkRec (stop_event w) [] empty_file [] (trace w).

Definition leave_with (out : string) (data : bytes) (s : RecState) (w : World)
  : World :=
  mkWorld (st_stop_event s) (dirs w) (<[ out := data ]> (disk w)) (st_trace s).

Section Worker.

Variable self : MultiStreamRecorder.
(** [os.name] *)
Variable os_name : string.

(** [_start_recording_with_stop_event], lines 198-277. *)
Definition start_recording (rs : rec_script) (r : Recorder)
    (thread_name : string) (w : World) : result unit * World :=
  let w := call (EGetLiveUrl (r_room_id r)) w in
  match rs_live_url rs with
  | Raises e => (Raised e, w)
  | Returns url =>
      if negb (truthy url) then
        (Raised (Exception (no_url_message thread_name)), w)
      else
        let live_url := default "" url in
        let current_date := strftime (rs_localtime rs) in
        let folder := user_folder os_name r in
        let w := call (EMakeDirs folder) w in
        match rs_makedirs rs with
        | Raises e => (Raised e, w)
        | Returns _ =>
            let w := makedirs os_name folder w in
            let out := output_path os_name r current_date
                         (length (targets self)) thread_name in
            let w := logger INFO (started_message thread_name out) w in
            let w := call (EOpen out) w in
            match rs_open rs with
            | Raises e => (Raised e, w)
            | Returns _ =>
                let w := store out [] w in
                let '(x, s) :=
                  recording_loop thread_name (r_room_id r) live_url
                    (r_duration r) (rs_start_time rs) (rs_cycles rs) false
                    (enter_with w) in
                match x with
                | LoopRunning =>
                    (Running, leave_with out (file_durable (st_file s)) s w)
                | LoopEscaped e =>
                    (Raised e,
                     call (EClose out)
                          (leave_with out (file_durable (st_file s)) s w))
                | _ =>
                    let w := leave_with out (file_content (st_file s)) s w in
                    let w := call (EClose out) w in
                    let w := logger INFO (finished_message thread_name out) w in
                    (Done tt, post_process (rs_convert rs) (rs_upload rs)
                                (rs_convert_fs rs) (rs_upload_fs rs) r
                                thread_name out w)
                end
            end
        end
  end.

(** The message of lines 169-171. *)
Definition not_live_message (thread_name user : string) : string :=
  "[" +:+ thread_name +:+ "] @" +:+ user +:+ ": " +:+ ESC +:+
  "[31mUser is not currently live" +:+ ESC +:+ "[0m".

(** What one call of [_manual_mode_with_stop_event] meets. *)
Record manual_script := mkManual {
  ms_stop : bool;
  ms_alive : answer bool;
  ms_rec : rec_script;
}.

(** [_manual_mode_with_stop_event], lines 161-173. *)
Definition manual_mode (ms : manual_script) (r : Recorder)
    (thread_name : string) (w : World) : result unit * World :=
  let w := is_set (ms_stop ms) w in
  if stop_event w then (Done tt, w)
  else
    let w := call (EIsRoomAlive (r_room_id r)) w in
    match ms_alive ms with
    | Raises e => (Raised e, w)
    | Returns false =>
        (Raised (UserLiveException (not_live_message thread_name (r_user r))), w)
    | Returns true => start_recording (ms_rec ms) r thread_name w
    end.

(** Lines 189-192: the wait between two checks.  [set_before i] tells
    whether the stop event was set between the reads [i - 1] and [i]. *)
Inductive wait_exit := WaitReturned | WaitElapsed.

Fixpoint wait_interval (ticks i : nat) (set_before : nat -> bool) (w : World)
  : wait_exit * World :=
  match ticks with
  | O => (WaitElapsed, w)
  | S ticks =>
      let w := is_set (set_before i) w in
      if stop_event w then (WaitReturned, w)
      else wait_interval ticks (S i) set_before (call (ESleep 1) w)
  end.

(** What one pass of the [while] of [_automatic_mode_with_stop_event]
    meets. *)
Record auto_cycle := mkAuto {
  ac_stop : bool;
  ac_room_id : answer string;
  ac_manual : manual_script;
  ac_wait : nat -> bool;
}.

(** How [_automatic_mode_with_stop_event] ends. *)
Inductive auto_exit :=
| AutoStopEvent              (* the loop test of line 179 fails *)
| AutoReturnedInWait         (* [return] of line 191 *)
| AutoBreak (e : exn)        (* [break] of line 196 *)
| AutoRunning.               (* the script ends while the loop goes on *)

(** [_automatic_mode_with_stop_event], lines 175-196. *)
Fixpoint automatic_mode (cycles : list auto_cycle) (r : Recorder)
    (thread_name : string) (w : World) : auto_exit * World :=
  match cycles with
  | [] => (AutoRunning, w)
  | ac :: rest =>
      let w := is_set (ac_stop ac) w in
      if stop_event w then (AutoStopEvent, w)
      else
        (* try *)
        let w := call (EGetRoomId (r_user r)) w in
        let '(x, r, w) :=
          match ac_room_id ac with
          | Raises e => (Raised e, r, w)
          | Returns room_id =>
              let r := set_room_id room_id r in
              let '(x, w) := manual_mode (ac_manual ac) r thread_name w in
              (x, r, w)
          end in
        match x with
        | Done _ => automatic_mode rest r thread_name w
        | Running => (AutoRunning, w)
        | Raised (UserLiveException m) =>
            let w := logger INFO ("[" +:+ thread_name +:+ "] " +:+ m) w in
            match wait_interval (Z.to_nat (automatic_interval self * 60)) 0
                    (ac_wait ac) w with
            | (WaitReturned, w) => (AutoReturnedInWait, w)
            | (WaitElapsed, w) => automatic_mode rest r thread_name w
            end
        | Raised e =>
            (AutoBreak e,
             logger ERROR ("[" +:+ thread_name +:+ "] Unexpected error: "
                           +:+ str_of_exn e) w)
        end
  end.

(** What a worker meets: the recorder built by [TikTokRecorder(...)] and the
    script of the mode it runs in. *)
Record task_script := mkTask {
  ts_recorder : answer Recorder;
  ts_manual : manual_script;
  ts_auto : list auto_cycle;
}.

(** [_run_recorder_with_stop_event], lines 152-159. *)
Definition run_recorder (ts : task_script) (r : Recorder)
    (thread_name : string) (w : World) : result unit * World :=
  match mode self with
  | MANUAL => manual_mode (ts_manual ts) r thread_name w
  | AUTOMATIC =>
      match automatic_mode (ts_auto ts) r thread_name w with
      | (AutoRunning, w) => (Running, w)
      | (_, w) => (Done tt, w)
      end
  end.

(** How the thread of [_record_stream] ends: by which handler, if any. *)
Inductive termination :=
| Returned                   (* the [try] suite ran to its end *)
| UserLiveReported (msg : string)      (* handler of line 145 *)
| TikTokErrorReported (msg : string)   (* handler of line 147 *)
| UnexpectedErrorReported (msg : string)  (* handler of line 149 *)
| StillRunning.

(** [_record_stream], lines 122-150. *)
Definition record_stream (ts : task_script) (thread_name : string) (w : World)
  : termination * World :=
  let w := logger INFO ("[" +:+ thread_name +:+ "] Initializing recorder...") w in
  let '(x, w) :=
    match ts_recorder ts with
    | Raises e => (Raised e, w)
    | Returns r => run_recorder ts r thread_name w
    end in
  match x with
  | Done _ => (Returned, w)
  | Running => (StillRunning, w)
  | Raised (UserLiveException m) =>
      (UserLiveReported m, logger INFO ("[" +:+ thread_name +:+ "] " +:+ m) w)
  | Raised (TikTokException m) =>
      (TikTokErrorReported m,
       logger ERROR ("[" +:+ thread_name +:+ "] TikTok error: " +:+ m) w)
  | Raised (Exception m) =>
      (UnexpectedErrorReported m,
       logger ERROR ("[" +:+ thread_name +:+ "] Unexpected error: " +:+ m) w)
  end.

End Worker.

(* ===================================================================== *)
(** ** The orchestrator: [run], [_wait_for_completion] and
       [stop_all_recordings] *)
(* ===================================================================== *)

(** Lines 90-96: the name of the thread of the [i]-th target. *)
Definition thread_name_of (i : nat) (t : target) : string :=
  let '(url, user, room_id) := t in
  let thread_name := "Stream-" +:+ str_of_nat (i + 1) in
  if truthy user then thread_name +:+ "-" +:+ default "" user
  else if truthy url then thread_name +:+ "-" +:+ last_segment "" (default "" url)
  else if truthy room_id then thread_name +:+ "-" +:+ default "" room_id
  else thread_name.

(** What the main thread does, in program order.  [OStart name t] is
    [thread.start()] of a thread that runs [_record_stream] on the target [t]
    under the name [name]. *)
Inductive orch_event :=
| OStart (thread_name : string) (t : target)
| OSleep (seconds : Z)
| OSetStopEvent
| OJoin (thread_name : string) (timeout : Z)
| OLog (lv : level) (msg : string).

(** State of the main thread: the stop event, [self.recording_threads] (a
    thread is named by its position in the list), the seconds elapsed since
    [run] was entered, and the calls made so far. *)
Record Orch := mkOrch {
  o_stop_event : bool;
  recording_threads : list string;
  o_now : nat;
  o_trace : list orch_event;
}.

(** What can cut one pass of the spawn loop short. *)
Inductive spawn_answer :=
| SpawnOk
| StartRaises (e : exn)        (* [thread.start()] raises *)
| SleepInterrupted.            (* [KeyboardInterrupt] during [time.sleep(1)] *)

(** What the main thread meets: whether the [i]-th worker is alive at second
    [t], what happens in the [i]-th pass of the spawn loop, and whether the
    [k]-th sleep of [_wait_for_completion] is cut by a [KeyboardInterrupt].
    Time is counted in whole seconds; a sleep that an interrupt cuts is
    taken to last no time.  A second interrupt, arriving while
    [stop_all_recordings] runs, is not modelled. *)
Record orch_script := mkOrchScript {
  os_alive : nat -> nat -> bool;
  os_spawn : nat -> spawn_answer;
  os_wait : nat -> bool;
}.

Definition o_emit (e : orch_event) (o : Orch) : Orch :=
  mkOrch (o_stop_event o) (recording_threads o) (o_now o) (o_trace o ++ [e]).

(** [time.sleep(1)] and, more generally, a blocking call of [n] seconds. *)
Definition o_elapse (n : nat) (o : Orch) : Orch :=
  mkOrch (o_stop_event o) (recording_threads o) (o_now o + n) (o_trace o).

Definition o_sleep (o : Orch) : Orch := o_elapse 1 (o_emit (OSleep 1) o).

(** [self.recording_threads.append(thread)] *)
Definition o_append (thread_name : string) (o : Orch) : Orch :=
  mkOrch (o_stop_event o) (recording_threads o ++ [thread_name]) (o_now o)
         (o_trace o).

(** [self.stop_event.set()] *)
Definition o_set (o : Orch) : Orch :=
  mkOrch true (recording_threads o) (o_now o) (o_trace o ++ [OSetStopEvent]).

(** Seconds that [thread.join(timeout)] blocks when called at second [now]:
    until the thread is no longer alive, [timeout] at most. *)
Fixpoint join_wait (alive : nat -> bool) (now timeout : nat) : nat :=
  match timeout with
  | O => O
  | S timeout =>
      if alive now then S (join_wait alive (S now) timeout) else O
  end.

(** Lines 298-300, from the thread of position [i] on. *)
Fixpoint join_threads (sc : orch_script) (i : nat) (names : list string)
    (o : Orch) : Orch :=
  match names with
  | [] => o
  | thread_name :: rest =>
      let o :=
        if os_alive sc i (o_now o)
        then o_elapse (join_wait (os_alive sc i) (o_now o) 5)
                      (o_emit (OJoin thread_name 5) o)
        else o in
      join_threads sc (S i) rest o
  end.

(** [stop_all_recordings], lines 290-302. *)
Definition stop_all_recordings (sc : orch_script) (o : Orch) : Orch :=
  let o := o_emit (OLog INFO "Stopping all recordings...") o in
  let o := o_set o in
  let o := join_threads sc 0 (recording_threads o) o in
  o_emit (OLog INFO "All recordings stopped.") o.

(** [any(thread.is_alive() for thread in self.recording_threads)] *)
Definition any_alive (sc : orch_script) (o : Orch) : bool :=
  existsb (fun i => os_alive sc i (o_now o)) (seq 0 (length (recording_threads o))).

(** How [run] ends. *)
Inductive run_exit :=
| RunCompleted               (* [_wait_for_completion] saw no live thread *)
| RunStopped                 (* through [stop_all_recordings] *)
| RunRunning.                (* still polling when the fuel ran out *)

(** [_wait_for_completion], lines 279-288; [k] counts its sleeps. *)
Fixpoint wait_for_completion (fuel : nat) (sc : orch_script) (k : nat)
    (o : Orch) : run_exit * Orch :=
  match fuel with
  | O => (RunRunning, o)
  | S fuel =>
      if any_alive sc o then
        if os_wait sc k then
          (RunStopped,
           stop_all_recordings sc
             (o_emit (OLog INFO
                "Keyboard interrupt received, stopping all recordings...")
                (o_emit (OSleep 1) o)))
        else wait_for_completion fuel sc (S k) (o_sleep o)
      else (RunCompleted, o)
  end.

(** How the spawn loop of lines 89-110 ends. *)
Inductive spawn_exit :=
| SpawnedAll
| SpawnKeyboardInterrupt
| SpawnException (e : exn).

(** Lines 89-110, from the target of position [i] on. *)
Fixpoint spawn (sc : orch_script) (i : nat) (ts : list target) (o : Orch)
  : spawn_exit * Orch :=
  match ts with
  | [] => (SpawnedAll, o)
  | t :: rest =>
      let thread_name := thread_name_of i t in
      let o := o_append thread_name o in
      match os_spawn sc i with
      | StartRaises e => (SpawnException e, o)
      | a =>
          let o := o_emit (OStart thread_name t) o in
          let o := o_emit (OLog SUCCESS ("Started recording thread: "
                                         +:+ thread_name)) o in
          match a with
          | SleepInterrupted => (SpawnKeyboardInterrupt, o_emit (OSleep 1) o)
          | _ => spawn sc (S i) rest (o_sleep o)
          end
      end
  end.

(** [MultiStreamRecorder.__init__] leaves no thread and a clear event. *)
Definition orch_init : Orch := mkOrch false [] 0 [].

(** [run], lines 87-120 (the start-up display of lines 60-85 only prints). *)
Definition run (fuel : nat) (sc : orch_script) (self : MultiStreamRecorder)
  : run_exit * Orch :=
  match spawn sc 0 (targets self) orch_init with
  | (SpawnedAll, o) => wait_for_completion fuel sc 0 o
  | (SpawnKeyboardInterrupt, o) =>
      (RunStopped,
       stop_all_recordings sc
         (o_emit (OLog INFO
            "Received interrupt signal, stopping all recordings...") o))
  | (SpawnException e, o) =>
      (RunStopped,
       stop_all_recordings sc
         (o_emit (OLog ERROR ("Unexpected error in multi-stream recorder: "
                              +:+ str_of_exn e)) o))
  end.

(* ===================================================================== *)
(** ** Target selection of [main] ([src/main.py], lines 108-144) *)
(* ===================================================================== *)

(** The command-line values that the selection reads: [args.urls],
    [args.users], [args.room_ids] are lists or [None]; [args.url],
    [args.user], [args.room_id] are strings or [None]. *)
Record Args := mkArgs {
  a_urls : option (list string);
  a_users : option (list string);
  a_room_ids : option (list string);
  a_url : option string;
  a_user : option string;
  a_room_id : option string;
}.

(** Truth value of an optional list: [None] and [[]] are falsy. *)
Definition nonempty (o : option (list string)) : bool :=
  match o with
  | Some (_ :: _) => true
  | _ => false
  end.

(** Lines 110-117. *)
Definition select_targets (args : Args) : list target :=
  if nonempty (a_urls args) then
    map (fun url => (Some url, None, None)) (default [] (a_urls args))
  else if nonempty (a_users args) then
    map (fun user => (None, Some user, None)) (default [] (a_users args))
  else if nonempty (a_room_ids args) then
    map (fun room_id => (None, None, Some room_id)) (default [] (a_room_ids args))
  else [].

(** Which recorder [main] builds. *)
Inductive launch :=
| MultiStream (ts : list target)
| SingleStream (t : target).

(** Lines 108-144. *)
Definition main_launch (args : Args) : launch :=
  if nonempty (a_urls args) || nonempty (a_users args) || nonempty (a_room_ids args)
  then MultiStream (select_targets args)
  else SingleStream (a_url args, a_user args, a_room_id args).

(* ===================================================================== *)
(** ** The list of targets that [run] displays (lines 71-78) *)
(* ===================================================================== *)

(** One pass of the loop of lines 72-78: the line appended for the target of
    position [i], none when the three fields are empty. *)
Definition target_line (i : nat) (t : target) : option string :=
  let '(url, user, room_id) := t in
  let stream := "Stream " +:+ str_of_nat (i + 1) +:+ ": " in
  if truthy user then Some (stream +:+ "@" +:+ default "" user)
  else if truthy url then Some (stream +:+ default "" url)
  else if truthy room_id then Some (stream +:+ "Room " +:+ default "" room_id)
  else None.

(** [target_info] after the loop, from the target of position [i] on. *)
Fixpoint target_info (i : nat) (ts : list target) : list string :=
  match ts with
  | [] => []
  | t :: rest =>
      match target_line i t with
      | Some line => line :: target_info (S i) rest
      | None => target_info (S i) rest
      end
  end.

(* ===================================================================== *)
(** ** The resolution options of [main] ([src/main.py], lines 34-105) *)
(* ===================================================================== *)

(** [args.enable_resolution_restart], [args.disable_resolution_restart]
    (strings or [None]) and [args.resolution_check_interval] (an integer or
    [None]). *)
Record ResolutionArgs := mkRes {
  enable_resolution_restart : option string;
  disable_resolution_restart : option string;
  resolution_check_interval : option Z;
}.

(** A value stored in the configuration. *)
Inductive config_value :=
| VBool (b : bool)
| VInt (n : Z).

(** What [main] does, in program order.  The calls of the configuration
    manager are taken to return. *)
Inductive main_event :=
| MWarning (msg : string)                          (* [logger.warning] *)
| MInfo (msg : string)                             (* [logger.info] *)
| MError (msg : string)                            (* [logger.error] *)
| MSetUser (user key : string) (v : config_value)  (* [set_user_setting] *)
| MSetRoom (room_id key : string) (v : config_value) (* [set_room_setting] *)
| MSetDefault (key : string) (v : config_value)    (* [config["default"][key] = v] *)
| MSaveConfig                                      (* [_save_config()] *)
| MLaunch (l : launch).                            (* [...Recorder(...).run()] *)

(** [str.lower()], on the letters of ASCII; the other characters are left as
    they are, which cannot make a string equal to ['user'] or ['room']. *)
Definition lower_ascii (a : ascii) : ascii :=
  let n := nat_of_ascii a in
  if ((65 <=? n) && (n <=? 90))%nat then ascii_of_nat (n + 32) else a.

Fixpoint lower (s : string) : string :=
  match s with
  | EmptyString => EmptyString
  | String a r => String (lower_ascii a) (lower r)
  end.

(** [x is not None] *)
Definition is_not_none {A : Type} (x : option A) : bool :=
  match x with
  | Some _ => true
  | None => false
  end.

(** What a part of [main] did, and the message of the [ArgsParseError] it
    raised, if any. *)
Definition outcome : Type := list main_event * option string.

(** Sequence: [b] runs only when [a] did not raise. *)
Definition and_then (a b : outcome) : outcome :=
  match snd a with
  | Some _ => a
  | None => (fst a ++ fst b, snd b)
  end.

(** Lines 45-63 and 65-83: the same code for [-enable-resolution-restart]
    (with [True]) and [-disable-resolution-restart] (with [False]). *)
Definition restart_setting (args : Args) (opt : option string) (flag : string)
    (value : bool) : outcome :=
  if truthy opt then
    let setting_type := lower (default "" opt) in
    let key := "restart_on_resolution_change" in
    if negb (String.eqb setting_type "user" || String.eqb setting_type "room")
    then ([], Some ("Invalid value for " +:+ flag +:+ ". Use 'user' or 'room'."))
    else if String.eqb setting_type "user" && truthy (a_user args) then
      ([MSetUser (default "" (a_user args)) key (VBool value)], None)
    else if String.eqb setting_type "room" && truthy (a_room_id args) then
      ([MSetRoom (default "" (a_room_id args)) key (VBool value)], None)
    else if String.eqb setting_type "user" && nonempty (a_users args) then
      (map (fun user => MSetUser user key (VBool value))
           (default [] (a_users args)), None)
    else if String.eqb setting_type "room" && nonempty (a_room_ids args) then
      (map (fun room_id => MSetRoom room_id key (VBool value))
           (default [] (a_room_ids args)), None)
    else
      ([MWarning ("Cannot set " +:+ setting_type +:+
                  " setting without providing " +:+ setting_type +:+
                  " identifier.")], None)
  else ([], None).

(** Lines 86-105. *)
Definition interval_setting (args : Args) (interval : option Z) : outcome :=
  match interval with
  | None => ([], None)
  | Some n =>
      let key := "resolution_check_interval" in
      if n <? 1 then
        ([], Some "Resolution check interval must be at least 1 second.")
      else if truthy (a_user args) then
        ([MSetUser (default "" (a_user args)) key (VInt n)], None)
      else if truthy (a_room_id args) then
        ([MSetRoom (default "" (a_room_id args)) key (VInt n)], None)
      else if nonempty (a_users args) then
        (map (fun user => MSetUser user key (VInt n))
             (default [] (a_users args)), None)
      else if nonempty (a_room_ids args) then
        (map (fun room_id => MSetRoom room_id key (VInt n))
             (default [] (a_room_ids args)), None)
      else ([MSetDefault key (VInt n); MSaveConfig], None)
  end.

(** Lines 38-105; [ffprobe] is the answer of
    [ResolutionDetector.is_ffprobe_available()]. *)
Definition resolution_config (ffprobe : bool) (args : Args)
    (res : ResolutionArgs) : outcome :=
  if truthy (enable_resolution_restart res) ||
     truthy (disable_resolution_restart res) ||
     is_not_none (resolution_check_interval res)
  then
    if negb ffprobe then
      ([MWarning "ffprobe is not available. Resolution change detection features disabled.";
        MWarning "Install ffmpeg to enable resolution change detection."],
       None)
    else
      and_then
        (restart_setting args (enable_resolution_restart res)
           "-enable-resolution-restart" true)
        (and_then
           (restart_setting args (disable_resolution_restart res)
              "-disable-resolution-restart" false)
           (interval_setting args (resolution_check_interval res)))
  else ([], None).

(** [main] from line 34 on: the resolution options, then the recorder
    (lines 108-144); an [ArgsParseError] goes to the handler of lines
    146-147.  What the recorder does is not part of this function. *)
Definition main (ffprobe : bool) (args : Args) (res : ResolutionArgs)
  : list main_event :=
  match resolution_config ffprobe args res with
  | (evs, Some msg) => evs ++ [MError msg]
  | (evs, None) =>
      match main_launch args with
      | MultiStream ts =>
          evs ++ [MInfo ("Multi-stream mode: Recording " +:+
                         str_of_nat (length ts) +:+ " streams");
                  MLaunch (MultiStream ts)]
      | SingleStream t => evs ++ [MLaunch (SingleStream t)]
      end
  end.


(* ===================================================================== *)
(** ** Notions used in the statements *)
(* ===================================================================== *)

(** Between two statements of the loop, the bytes appended so far are the
    bytes written followed by the bytes still buffered. *)
Definition nothing_lost (s : RecState) : Prop :=
  file_content (st_file s) ++ st_buffer s = st_appended s.

(** After a completed [finally] clause the buffer is empty and the bytes
    appended so far are in the file, flushed. *)
Definition settled (s : RecState) : Prop :=
  st_buffer s = [] /\
  file_content (st_file s) = st_appended s /\
  file_durable (st_file s) = st_appended s.

(** The bytes appended so far are, in order, among the bytes that reached the
    file followed by the bytes still buffered: none is dropped or out of
    place.  What a failing [write] put in the file before the buffer was
    written again is all that can come in addition. *)
Definition nothing_dropped (s : RecState) : Prop :=
  sublist (st_appended s) (file_content (st_file s) ++ st_buffer s).


(** Scripts in which a [write] of the loop body (line 248) that raises has
    put nothing in the file, and scripts in which the same holds of the
    [write] of the [finally] clause (line 262). *)
Definition clean_chunks (cs : list chunk_ev) : Prop :=
  Forall (fun c => forall e, ce_write c = Raises e -> ce_partial c = 0%nat) cs.

Definition clean_cycles (cycles : list cycle) : Prop :=
  Forall (fun cy => clean_chunks (cy_chunks cy)) cycles.

Definition clean_finals (cycles : list cycle) : Prop :=
  Forall (fun cy => forall e, cy_final_write cy = Raises e ->
                              cy_final_partial cy = 0%nat) cycles.

(** The values that successive reads of the stop event return, [sets] telling
    before which of them the main thread called [set()]. *)
Fixpoint reads (sets : list bool) (w : World) : list bool :=
  match sets with
  | [] => []
  | b :: rest => stop_event (is_set b w) :: reads rest (is_set b w)
  end.

(** The calls that lines 269-277 add, whatever was called before. *)
Definition post_events (convert upload : answer unit) (r : Recorder)
    (thread_name out : string) : list event :=
  trace (post_process convert upload id id r thread_name out
           (mkWorld false ∅ ∅ [])).

(** The world in which [open(output, "wb")] has just succeeded: the calls of
    lines 202-231 have been made, the folder exists, the file is empty. *)
Definition opened_world (os_name : string) (n_targets : nat) (rs : rec_script)
    (r : Recorder) (thread_name : string) (w : World) : World :=
  let folder := user_folder os_name r in
  let out := output_path os_name r (strftime (rs_localtime rs)) n_targets
               thread_name in
  store out []
    (call (EOpen out)
       (logger INFO (started_message thread_name out)
          (makedirs os_name folder
             (call (EMakeDirs folder) (call (EGetLiveUrl (r_room_id r)) w))))).

(** Whether a call is an [open(...)]. *)
Definition is_open (e : event) : bool :=
  match e with
  | EOpen _ => true
  | _ => false
  end.

(** Whether a trace holds an [open(...)]. *)
Definition opens (tr : list event) : bool := existsb is_open tr.


(** The names the threads of the targets [ts] get, the first one having
    position [i]. *)
Fixpoint thread_names (i : nat) (ts : list target) : list string :=
  match ts with
  | [] => []
  | t :: rest => thread_name_of i t :: thread_names (S i) rest
  end.

(** The calls of a spawn loop that nothing cuts short. *)
Fixpoint spawn_events (i : nat) (ts : list target) : list orch_event :=
  match ts with
  | [] => []
  | t :: rest =>
      [OStart (thread_name_of i t) t;
       OLog SUCCESS ("Started recording thread: " +:+ thread_name_of i t);
       OSleep 1] ++ spawn_events (S i) rest
  end.


(** The targets for which a trace holds a [thread.start()], in order. *)
Fixpoint started (tr : list orch_event) : list target :=
  match tr with
  | [] => []
  | OStart _ t :: rest => t :: started rest
  | _ :: rest => started rest
  end.

(* ===================================================================== *)
(** ** Concrete scripts used in the examples *)
(* ===================================================================== *)

(** A world in which nothing has happened yet. *)
Definition world0 : World := mkWorld false ∅ ∅ [].

(** A chunk of [n] bytes. *)
Definition chunk_of (n : Z) : bytes := repeat "x"%byte (Z.to_nat n).

(** A chunk fetched at second [now] with the stop event clear and a sink that
    accepts the write. *)
Definition plain (c : bytes) (now : Q) : chunk_ev :=
  mkChunk false c (Returns tt) now.

(** A pass in which the broadcast is alive and the generator yields [cs] and
    ends, the sink working. *)
Definition streaming (cs : list chunk_ev) : cycle :=
  mkCycle false (Returns true) cs (Returns tt) (Returns tt) (Returns tt).

(** A pass in which the broadcast is found over. *)
Definition ended : cycle :=
  mkCycle false (Returns false) [] (Returns tt) (Returns tt) (Returns tt).



(** Two passes: five bytes arrive in two chunks, then the broadcast is over. *)
Definition two_chunks : list cycle :=
  [streaming [plain (chunk_of 3) 1; plain (chunk_of 2) 2]; ended].


(** A recorder for the user [alice], no output directory configured. *)
Definition alice : Recorder := mkRecorder "alice" "" None None false.

(** One target, watched in automatic mode every minute. *)
Definition auto_one : MultiStreamRecorder :=
  mkMulti [(None, Some "alice", None)] AUTOMATIC 1 None None None false.

(** One target, recorded in manual mode. *)
Definition manual_one : MultiStreamRecorder :=
  mkMulti [(None, Some "alice", None)] MANUAL 1 None None None false.

(** A call of [_start_recording_with_stop_event] in which [get_live_url]
    returns [None]. *)
Definition no_url : rec_script :=
  mkRecScript (Returns None) (mkTime 2024 1 2 3 4 5) (Returns tt) (Returns tt)
    0 [] (Returns tt) (Returns tt).

(** A pass of the automatic loop in which the user is not live and the stop
    event is set just before the read [k] of the wait. *)
Definition not_live_cycle (k : nat) : auto_cycle :=
  mkAuto false (Returns "7") (mkManual false (Returns false) no_url)
         (fun i => Nat.eqb i k).

(** A pass of the automatic loop in which the user is live but no live URL
    is returned; the stop event is never set. *)
Definition no_url_cycle : auto_cycle :=
  mkAuto false (Returns "7") (mkManual false (Returns true) no_url)
         (fun _ => false).

(** A chunk fetched 20 seconds after the start while the stop event is being
    set. *)
Definition tie_chunk : chunk_ev := mkChunk true (chunk_of 3) (Returns tt) 20.

(** A world in which the stop event is set. *)
Definition world_stopped : World := mkWorld true ∅ ∅ [].

(** A call of [_start_recording_with_stop_event] with a live URL, a working
    file system, and the passes [cycles] of the streaming loop; the clock
    starts at 0 and the recorder carries a limit of ten seconds. *)
Definition recording (cycles : list cycle) : rec_script :=
  mkRecScript (Returns (Some "http://cdn/live.flv")) (mkTime 2024 1 2 3 4 5)
    (Returns tt) (Returns tt) 0 cycles (Returns tt) (Returns tt).

(** A recorder for [alice], room 7, limited to ten seconds. *)
Definition alice_10s : Recorder := mkRecorder "alice" "7" None (Some 10) false.

(** A worker whose target is live but has no live URL. *)
Definition task_no_url : task_script :=
  mkTask (Returns alice) (mkManual false (Returns true) no_url)
         [no_url_cycle; not_live_cycle 0].

(** A worker in manual mode whose target is not live. *)
Definition task_not_live : task_script :=
  mkTask (Returns alice) (mkManual false (Returns false) no_url)
         [not_live_cycle 0].

(** A recorder for [alice] with the output directory [out]. *)
Definition alice_in (out : option string) : Recorder :=
  mkRecorder "alice" "7" out None false.

(** Two targets recorded together. *)
Definition manual_two : MultiStreamRecorder :=
  mkMulti [(None, Some "alice", None); (None, Some "bob", None)] MANUAL 1 None
          (Some "out") None false.

(** A command line that names targets of the three kinds at once. *)
Definition args_all_kinds : Args :=
  mkArgs (Some ["https://www.tiktok.com/@carol/live"]) (Some ["bob"])
         (Some ["9"]) None None None.

(** A command line that names users and room ids. *)
Definition args_users_and_rooms : Args :=
  mkArgs None (Some ["bob"; "dave"]) (Some ["9"]) None None None.

(** A main thread that is never interrupted and whose workers all end
    before second [3]. *)
Definition calm : orch_script :=
  mkOrchScript (fun _ t => (t <? 3)%nat) (fun _ => SpawnOk) (fun _ => false).

(** A main thread whose first sleep is cut by [KeyboardInterrupt] while the
    workers never end by themselves. *)
Definition interrupted_at_once : orch_script :=
  mkOrchScript (fun _ _ => true) (fun _ => SleepInterrupted) (fun _ => false).

(** A main thread that starts every thread and whose second sleep of the
    polling is cut by [KeyboardInterrupt], the workers never ending by
    themselves. *)
Definition interrupted_while_polling : orch_script :=
  mkOrchScript (fun _ _ => true) (fun _ => SpawnOk) (fun k => (k =? 1)%nat).

(** The calls that the streaming loop can make: liveness checks, downloads
    and log lines. *)
Definition is_loop_event (e : event) : bool :=
  match e with
  | EIsRoomAlive _ | EDownload _ | ELog _ _ => true
  | _ => false
  end.

(** [rs] with other post-processing hooks: other answers, and other effects
    on folders and files. *)
Definition with_post (convert upload : answer unit)
    (convert_fs upload_fs : fs_effect) (rs : rec_script) : rec_script :=
  mkRecScriptFs (rs_live_url rs) (rs_localtime rs) (rs_makedirs rs)
                (rs_open rs) (rs_start_time rs) (rs_cycles rs) convert upload
                convert_fs upload_fs.

(** Scripts in which the main thread never sets the stop event. *)
Definition quiet_chunks (cs : list chunk_ev) : Prop :=
  Forall (fun c => ce_stop c = false) cs.

Definition quiet_cycles (cys : list cycle) : Prop :=
  Forall (fun cy => cy_stop cy = false /\ quiet_chunks (cy_chunks cy)) cys.

Definition quiet_manual (ms : manual_script) : Prop :=
  ms_stop ms = false /\ quiet_cycles (rs_cycles (ms_rec ms)).

Definition quiet_auto (acs : list auto_cycle) : Prop :=
  Forall (fun ac => ac_stop ac = false /\ quiet_manual (ac_manual ac) /\
                    forall i, ac_wait ac i = false) acs.

Definition quiet_task (ts : task_script) : Prop :=
  quiet_manual (ts_manual ts) /\ quiet_auto (ts_auto ts).

(** Whether [old] occurs in [p +:+ tail] at no position inside [p]. *)
Fixpoint free_of (old p tail : string) : bool :=
  match p with
  | EmptyString => true
  | String _ p' => negb (String.prefix old (p +:+ tail)) && free_of old p' tail
  end.

(** What a worker with the recorder [r] and the name [thread_name] may ask
    of the file system and of the post-processing: to create the folder of
    its user, to open and to close a file named as one of its recordings, to
    have such a file converted, and to have the file named after it uploaded.
    The other calls (to TikTok, to the clock, to the log) are free. *)
Definition own_call (os_name : string) (r : Recorder) (n_targets : nat)
    (thread_name : string) (e : event) : Prop :=
  match e with
  | EMakeDirs d => d = user_folder os_name r
  | EOpen p | EClose p | EConvert p =>
      exists t, p = output_path os_name r (strftime t) n_targets thread_name
  | EUpload p =>
      exists t,
        p = str_replace "_flv.mp4" ".mp4"
              (output_path os_name r (strftime t) n_targets thread_name)
  | _ => True
  end.

(** The calls made between the worlds [w] and [w'] all satisfy [P]. *)
Definition calls_only (P : event -> Prop) (w w' : World) : Prop :=
  exists tr, trace w' = trace w ++ tr /\ Forall P tr.

(** The output path without its ending [_flv.mp4]. *)
Definition output_stem (os_name : string) (r : Recorder) (current_date : string)
    (n_targets : nat) (thread_name : string) : string :=
  base_output os_name (r_output r) +:+ r_user r +:+ "/TK_" +:+ r_user r +:+
  "_" +:+ current_date +:+ output_suffix n_targets thread_name.

(** Decimal digits, strings of digits, and strings that do not start with a
    digit. *)
Definition is_digit (a : ascii) : bool :=
  ((48 <=? nat_of_ascii a) && (nat_of_ascii a <=? 57))%nat.

Fixpoint digits (s : string) : bool :=
  match s with
  | EmptyString => true
  | String a r => is_digit a && digits r
  end.

Definition no_digit_first (s : string) : bool :=
  match s with
  | EmptyString => true
  | String a _ => negb (is_digit a)
  end.

(** The calls by which the main thread cancels the workers. *)
Definition is_shutdown (e : orch_event) : bool :=
  match e with
  | OSetStopEvent | OJoin _ _ => true
  | _ => false
  end.

Definition shuts_down (tr : list orch_event) : bool := existsb is_shutdown tr.

(** The spawn loop over [n] targets is cut short: the pass of some position
    meets an error of [Thread]/[start] or a KeyboardInterrupt. *)
Definition start_up_cut (sc : orch_script) (n : nat) : Prop :=
  exists k, (k < n)%nat /\ os_spawn sc k <> SpawnOk.

(** The polling of [n] workers that begins at second [t0] with the sleep of
    position [k0] is interrupted within [fuel] polls: some sleep is cut by a
    KeyboardInterrupt, none before it is, and every poll up to it finds a
    worker alive. *)
Definition polling_interrupted (sc : orch_script) (n t0 k0 fuel : nat)
  : Prop :=
  exists d, (d < fuel)%nat /\
    os_wait sc (k0 + d) = true /\
    (forall i, (i < d)%nat -> os_wait sc (k0 + i) = false) /\
    (forall i, (i <= d)%nat ->
       exists j, (j < n)%nat /\ os_alive sc j (t0 + i) = true).

(** Whether a target has a field that is not empty. *)
Definition listed (t : target) : bool :=
  let '(url, user, room_id) := t in
  truthy user || truthy url || truthy room_id.

(** Whether a resolution-restart option is given with a value that is
    neither [user] nor [room], in any case of letters. *)
Definition rejected (opt : option string) : bool :=
  truthy opt &&
  negb (String.eqb (lower (default "" opt)) "user" ||
        String.eqb (lower (default "" opt)) "room").

(** Whether the command line is one that [main] rejects. *)
Definition bad_resolution_options (ffprobe : bool) (res : ResolutionArgs)
  : Prop :=
  ffprobe = true /\
  (rejected (enable_resolution_restart res) = true \/
   rejected (disable_resolution_restart res) = true \/
   exists n, resolution_check_interval res = Some n /\ n < 1).

(** The users and the rooms that the command line names. *)
Definition named_user (args : Args) (user : string) : Prop :=
  a_user args = Some user \/ In user (default [] (a_users args)).

Definition named_room (args : Args) (room_id : string) : Prop :=
  a_room_id args = Some room_id \/ In room_id (default [] (a_room_ids args)).

(** The two settings: a restart flag, or a check interval of one second at
    least. *)
Definition setting (key : string) (v : config_value) : Prop :=
  (key = "restart_on_resolution_change" /\ exists b, v = VBool b) \/
  (key = "resolution_check_interval" /\ exists n, v = VInt n /\ 1 <= n).

(** What the handling of the resolution options may do for the command line
    [args]: warn, write a setting of a user or a room that the command line
    names, or, when it names none, write the default check interval. *)
Definition allowed (args : Args) (e : main_event) : Prop :=
  match e with
  | MWarning _ | MSaveConfig => True
  | MSetUser user key v => named_user args user /\ setting key v
  | MSetRoom room_id key v => named_room args room_id /\ setting key v
  | MSetDefault key v =>
      key = "resolution_check_interval" /\
      (exists n, v = VInt n /\ 1 <= n) /\
      truthy (a_user args) = false /\ truthy (a_room_id args) = false /\
      nonempty (a_users args) = false /\ nonempty (a_room_ids args) = false
  | MInfo _ | MError _ | MLaunch _ => False
  end.

(** [res] without the option of the check interval. *)
Definition without_interval (res : ResolutionArgs) : ResolutionArgs :=
  mkRes (enable_resolution_restart res) (disable_resolution_restart res) None.


(* ===================================================================== *)
(** * Lemmas *)
(* ===================================================================== *)

(** ** The file sink *)

Lemma file_content_write (f : File) (data : bytes) :
  file_content (file_write f data) = file_content f ++ data.
Proof.
  unfold file_content, file_write; simpl.
  rewrite concat_app; simpl. now rewrite app_nil_r.
Qed.

Lemma file_content_flush (f : File) :
  file_content (file_flush f) = file_content f.
Proof. reflexivity. Qed.

Lemma file_durable_flush (f : File) :
  file_durable (file_flush f) = file_content f.
Proof.
  unfold file_durable, file_content, file_flush; simpl.
  now rewrite firstn_all.
Qed.

(** ** The stream writer keeps every appended byte *)

Lemma settled_nothing_lost (s : RecState) : settled s -> nothing_lost s.
Proof.
  intros (Hb & Hc & _). unfold nothing_lost.
  rewrite Hb, Hc. apply app_nil_r.
Qed.

Lemma nothing_lost_observe (b : bool) (s : RecState) :
  nothing_lost s -> nothing_lost (observe_stop b s).
Proof. exact (fun H => H). Qed.

Lemma nothing_lost_emit (e : event) (s : RecState) :
  nothing_lost s -> nothing_lost (emit e s).
Proof. exact (fun H => H). Qed.

Lemma nothing_lost_extend (chunk : bytes) (s : RecState) :
  nothing_lost s -> nothing_lost (extend chunk s).
Proof.
  unfold nothing_lost; simpl. intros <-. now rewrite app_assoc.
Qed.

Lemma nothing_lost_write_and_clear (s : RecState) :
  nothing_lost s -> nothing_lost (write_and_clear s).
Proof.
  unfold nothing_lost; simpl. intros <-.
  rewrite file_content_write. apply app_nil_r.
Qed.

Create HintDb writer.

#[local] Hint Resolve nothing_lost_observe nothing_lost_emit nothing_lost_extend
  nothing_lost_write_and_clear settled_nothing_lost : writer.

Lemma write_partial_0 (s : RecState) : write_partial 0 s = s.
Proof. reflexivity. Qed.

Lemma write_partial_keeps (n : nat) (s : RecState) :
  st_stop_event (write_partial n s) = st_stop_event s /\
  st_buffer (write_partial n s) = st_buffer s /\
  st_appended (write_partial n s) = st_appended s /\
  st_trace (write_partial n s) = st_trace s /\
  file_content (st_file (write_partial n s)) =
    file_content (st_file s) ++ take n (st_buffer s).
Proof.
  unfold write_partial. destruct (take n (st_buffer s)) as [|b part] eqn:E.
  - repeat split. now rewrite app_nil_r.
  - cbn [st_stop_event st_buffer st_appended st_trace st_file].
    repeat split. apply file_content_write.
Qed.

Lemma for_chunks_nothing_lost duration start_time chunks gen_end :
  clean_chunks chunks ->
  forall s,
    nothing_lost s ->
    nothing_lost (snd (for_chunks duration start_time chunks gen_end s)).
Proof.
  induction 1 as [|c rest Hc _ IH]; intros s Hs; simpl.
  - now destruct gen_end.
  - destruct (st_stop_event s || ce_stop c); [exact Hs|].
    destruct (buffer_size <=? _).
    + destruct (ce_write c) as [u|e] eqn:Ew; simpl.
      * destruct (duration_reached _ _); simpl; auto with writer.
      * rewrite (Hc e eq_refl), write_partial_0. auto with writer.
    + destruct (duration_reached _ _); simpl; auto with writer.
Qed.

Lemma try_suite_nothing_lost thread_name room_id live_url duration start_time
    cy s :
  clean_chunks (cy_chunks cy) ->
  nothing_lost s ->
  nothing_lost (snd (try_suite thread_name room_id live_url duration start_time
                       cy s)).
Proof.
  intros Hc Hs. unfold try_suite.
  destruct (cy_alive cy) as [[|]|e]; simpl; auto with writer.
  destruct (for_chunks _ _ _ _ _) as [x s1] eqn:E; simpl.
  change s1 with (snd (x, s1)). rewrite <- E.
  apply for_chunks_nothing_lost; auto with writer.
Qed.

Lemma except_clause_nothing_lost thread_name x s :
  nothing_lost s -> nothing_lost (except_clause thread_name x s).
Proof. destruct x as [|[]]; simpl; auto with writer. Qed.

(** The [finally] clause, when it does not raise, leaves nothing in the
    buffer and everything in the flushed file; when it raises, the bytes
    appended are the same, and nothing is dropped from buffer and file if
    the failing [write] has put nothing in the file. *)
Lemma finally_clause_settles (cy : cycle) (s : RecState) :
  nothing_lost s ->
  match finally_clause cy s with
  | (Returns _, s') => settled s' /\ st_appended s' = st_appended s
  | (Raises _, s') =>
      st_appended s' = st_appended s /\
      ((forall e, cy_final_write cy = Raises e ->
                  cy_final_partial cy = 0%nat) -> nothing_lost s')
  end.
Proof.
  intros Hs. unfold finally_clause.
  destruct (st_buffer s) as [|b bs] eqn:Hb.
  - destruct (cy_flush cy); [|now split].
    split; [|reflexivity].
    unfold nothing_lost in Hs. rewrite Hb, app_nil_r in Hs.
    unfold settled; simpl. rewrite file_durable_flush, Hb.
    repeat split; exact Hs.
  - destruct (cy_final_write cy) as [u|e] eqn:Ew.
    + destruct (cy_flush cy); simpl.
      * split; [|reflexivity].
        unfold settled; simpl.
        rewrite file_durable_flush, file_content_flush, file_content_write.
        unfold nothing_lost in Hs. now repeat split.
      * split; [reflexivity|]. intros _.
        now apply nothing_lost_write_and_clear.
    + split; [apply write_partial_keeps|].
      intros H0. now rewrite (H0 e eq_refl), write_partial_0.
Qed.


(** *** Whatever the sink does, no appended byte is dropped *)

Lemma nothing_lost_dropped (s : RecState) : nothing_lost s -> nothing_dropped s.
Proof. unfold nothing_lost, nothing_dropped. now intros ->. Qed.

Lemma nothing_dropped_extend (chunk : bytes) (s : RecState) :
  nothing_dropped s -> nothing_dropped (extend chunk s).
Proof.
  unfold nothing_dropped; simpl. intros H. rewrite app_assoc.
  now apply sublist_app.
Qed.

Lemma nothing_dropped_write_and_clear (s : RecState) :
  nothing_dropped s -> nothing_dropped (write_and_clear s).
Proof.
  unfold nothing_dropped; simpl. intros H.
  now rewrite file_content_write, app_nil_r.
Qed.

Lemma nothing_dropped_write_partial (n : nat) (s : RecState) :
  nothing_dropped s -> nothing_dropped (write_partial n s).
Proof.
  unfold nothing_dropped. intros H.
  destruct (write_partial_keeps n s) as (_ & Hb & Ha & _ & Hc).
  rewrite Hb, Ha, Hc.
  apply sublist_app_r in H as (l1 & l2 & Hl & H1 & H2). rewrite Hl.
  rewrite <- app_assoc. apply sublist_app; [exact H1|].
  now apply sublist_inserts_l.
Qed.

Lemma for_chunks_nothing_dropped duration start_time chunks gen_end :
  forall s,
    nothing_dropped s ->
    nothing_dropped (snd (for_chunks duration start_time chunks gen_end s)).
Proof.
  induction chunks as [|c rest IH]; intros s Hs; cbn [for_chunks].
  - now destruct gen_end.
  - destruct (st_stop_event (observe_stop (ce_stop c) s)); [exact Hs|].
    assert (H1 : nothing_dropped (extend (ce_chunk c) (observe_stop (ce_stop c) s)))
      by now apply nothing_dropped_extend.
    destruct (buffer_size <=? _).
    + destruct (ce_write c).
      * destruct (duration_reached _ _); cbn [snd];
          [|apply IH]; now apply nothing_dropped_write_and_clear.
      * now apply nothing_dropped_write_partial.
    + destruct (duration_reached _ _); cbn [snd]; [exact H1|now apply IH].
Qed.

Lemma try_suite_nothing_dropped thread_name room_id live_url duration
    start_time cy s :
  nothing_dropped s ->
  nothing_dropped (snd (try_suite thread_name room_id live_url duration
                          start_time cy s)).
Proof.
  intros Hs. unfold try_suite.
  destruct (cy_alive cy) as [[|]|e]; try exact Hs.
  destruct (for_chunks _ _ _ _ _) as [x s1] eqn:E; cbn [snd].
  change s1 with (snd (x, s1)). rewrite <- E.
  now apply for_chunks_nothing_dropped.
Qed.

Lemma except_clause_nothing_dropped thread_name x s :
  nothing_dropped s -> nothing_dropped (except_clause thread_name x s).
Proof. now destruct x as [|[]]. Qed.

(** The [finally] clause drops nothing, and when it completes the buffer is
    empty and the file flushed. *)
Lemma finally_clause_nothing_dropped (cy : cycle) (s : RecState) :
  nothing_dropped s -> nothing_dropped (snd (finally_clause cy s)).
Proof.
  intros Hs. unfold finally_clause.
  destruct (st_buffer s) as [|b bs] eqn:Hb.
  - now destruct (cy_flush cy).
  - destruct (cy_final_write cy) as [u|e].
    + pose proof (nothing_dropped_write_and_clear s Hs) as H1.
      now destruct (cy_flush cy).
    + now apply nothing_dropped_write_partial.
Qed.


Lemma recording_loop_nothing_dropped thread_name room_id live_url duration
    start_time cycles :
  forall stop_recording s,
    nothing_dropped s ->
    nothing_dropped (snd (recording_loop thread_name room_id live_url duration
                            start_time cycles stop_recording s)).
Proof.
  induction cycles as [|cy rest IH]; intros b s Hs.
  - now destruct b.
  - destruct b; [exact Hs|]. cbn [recording_loop].
    destruct (st_stop_event (observe_stop (cy_stop cy) s)); [exact Hs|].
    destruct (try_suite _ _ _ _ _ _ _) as [t s1] eqn:Et.
    assert (H1 : nothing_dropped (except_clause thread_name t s1)).
    { apply except_clause_nothing_dropped.
      change s1 with (snd (t, s1)). rewrite <- Et.
      now apply try_suite_nothing_dropped. }
    pose proof (finally_clause_nothing_dropped cy _ H1) as Hf.
    destruct (finally_clause cy _) as [[[]|e] s2]; cbn [snd] in Hf.
    + destruct t as [|f]; [exact Hf|]. now apply IH.
    + exact Hf.
Qed.


Lemma enter_with_settled (w : World) : settled (enter_with w).
Proof. now repeat split. Qed.

(** ** The buffer and its threshold *)

(** One pass of the [for] body in which the stop event is clear, the sink
    accepts a write and the duration limit is not reached. *)
Lemma for_chunks_step duration start_time c rest gen_end s u :
  st_stop_event s = false ->
  ce_stop c = false ->
  ce_write c = Returns u ->
  duration_reached duration (ce_now c - start_time)%Q = false ->
  for_chunks duration start_time (c :: rest) gen_end s =
  for_chunks duration start_time rest gen_end
    (if buffer_size <=? Z.of_nat (length (st_buffer s ++ ce_chunk c))
     then write_and_clear (extend (ce_chunk c) s)
     else extend (ce_chunk c) s).
Proof.
  intros Hs Hc Hw Hd. destruct s as [ev buf f app tr].
  cbn [st_stop_event] in Hs. subst ev.
  cbn [for_chunks]. unfold observe_stop.
  cbn [st_stop_event st_buffer st_file st_appended st_trace].
  rewrite Hc. cbn [orb extend st_buffer].
  destruct (buffer_size <=? _).
  - rewrite Hw, Hd. reflexivity.
  - rewrite Hd. reflexivity.
Qed.

(** The [while] statement unfolded once. *)
Lemma recording_loop_cons thread_name room_id live_url duration start_time cy
    rest s :
  recording_loop thread_name room_id live_url duration start_time (cy :: rest)
    false s =
  let s := observe_stop (cy_stop cy) s in
  if st_stop_event s then (LoopStopEvent, s)
  else
    let '(x, s) := try_suite thread_name room_id live_url duration start_time
                     cy s in
    let s := except_clause thread_name x s in
    match finally_clause cy s with
    | (Raises e, s) => (LoopEscaped e, s)
    | (Returns _, s) =>
        match x with
        | TryBreak => (LoopNotLive, s)
        | TryFor x =>
            recording_loop thread_name room_id live_url duration start_time
              rest (stop_recording_after x) s
        end
    end.
Proof. reflexivity. Qed.
(** Three chunks of 200 KiB into an empty buffer: one write, of everything,
    when the third arrives. *)
Lemma for_chunks_three start_time c1 c2 c3 t1 t2 t3 s :
  st_stop_event s = false ->
  st_buffer s = [] ->
  Z.of_nat (length c1) = 200 * 1024 ->
  Z.of_nat (length c2) = 200 * 1024 ->
  Z.of_nat (length c3) = 200 * 1024 ->
  for_chunks None start_time [plain c1 t1; plain c2 t2; plain c3 t3]
    (Returns tt) s =
  (ForExhausted, write_and_clear (extend c3 (extend c2 (extend c1 s)))).
Proof.
  intros Hs Hb H1 H2 H3.
  rewrite (for_chunks_step _ _ _ _ _ _ tt); try reflexivity; [|exact Hs].
  cbn [plain mkChunk ce_chunk]. rewrite Hb. cbn [app].
  destruct (Z.leb_spec buffer_size (Z.of_nat (length c1)));
    [unfold buffer_size in *; lia|].
  rewrite (for_chunks_step _ _ _ _ _ _ tt); try reflexivity; [|exact Hs].
  cbn [plain mkChunk ce_chunk extend st_buffer]. rewrite Hb. cbn [app].
  destruct (Z.leb_spec buffer_size (Z.of_nat (length (c1 ++ c2))));
    [rewrite length_app in *; unfold buffer_size in *; lia|].
  rewrite (for_chunks_step _ _ _ _ _ _ tt); try reflexivity; [|exact Hs].
  cbn [plain mkChunk ce_chunk extend st_buffer]. rewrite Hb. cbn [app].
  destruct (Z.leb_spec buffer_size (Z.of_nat (length ((c1 ++ c2) ++ c3))));
    [|rewrite !length_app in *; unfold buffer_size in *; lia].
  reflexivity.
Qed.

(** ** Once the stop event is seen, nothing more is appended *)

Lemma for_chunks_observed duration start_time c rest gen_end s :
  st_stop_event s || ce_stop c = true ->
  for_chunks duration start_time (c :: rest) gen_end s =
  (ForStopEvent, observe_stop (ce_stop c) s).
Proof. intros H. cbn [for_chunks]. cbn [observe_stop st_stop_event]. now rewrite H. Qed.

Lemma observe_stop_set b s : st_stop_event s = true -> observe_stop b s = s.
Proof. destruct s; cbn. now intros ->. Qed.

Lemma for_chunks_set duration start_time chunks gen_end s :
  st_stop_event s = true ->
  st_appended (snd (for_chunks duration start_time chunks gen_end s)) = st_appended s
  /\ st_buffer (snd (for_chunks duration start_time chunks gen_end s)) = st_buffer s.
Proof.
  intros H. destruct chunks as [|c rest].
  - cbn. now destruct gen_end.
  - rewrite for_chunks_observed by now rewrite H. now split.
Qed.

Lemma recording_loop_set thread_name room_id live_url duration start_time cy
    rest s :
  st_stop_event s = true ->
  recording_loop thread_name room_id live_url duration start_time (cy :: rest)
    false s = (LoopStopEvent, s).
Proof.
  intros H. rewrite recording_loop_cons. cbn zeta.
  rewrite (observe_stop_set _ _ H), H. reflexivity.
Qed.

Lemma recording_loop_set_appended thread_name room_id live_url duration
    start_time cycles stop_recording s :
  st_stop_event s = true ->
  snd (recording_loop thread_name room_id live_url duration start_time cycles
         stop_recording s) = s.
Proof.
  intros H. destruct stop_recording; [now destruct cycles|].
  destruct cycles as [|cy rest]; [reflexivity|].
  now rewrite recording_loop_set.
Qed.

Lemma finally_clause_appended cy s :
  st_appended (snd (finally_clause cy s)) = st_appended s /\
  st_stop_event (snd (finally_clause cy s)) = st_stop_event s.
Proof.
  unfold finally_clause.
  destruct (st_buffer s) eqn:Hb; [destruct (cy_flush cy); now split|].
  destruct (cy_final_write cy); [destruct (cy_flush cy); now split|].
  cbn [snd].
  destruct (write_partial_keeps (cy_final_partial cy) s) as (H1 & _ & H3 & _).
  now split.
Qed.

Lemma except_clause_appended thread_name x s :
  st_appended (except_clause thread_name x s) = st_appended s /\
  st_buffer (except_clause thread_name x s) = st_buffer s /\
  st_stop_event (except_clause thread_name x s) = st_stop_event s.
Proof. destruct x as [|[]]; now repeat split. Qed.

(** The stop event is never cleared by the loop. *)
Lemma for_chunks_keeps_stop duration start_time chunks gen_end :
  forall s, st_stop_event s = true ->
    st_stop_event (snd (for_chunks duration start_time chunks gen_end s)) = true.
Proof.
  intros s H. destruct chunks as [|c rest].
  - cbn. now destruct gen_end.
  - rewrite for_chunks_observed by now rewrite H.
    cbn. now rewrite H.
Qed.

(** ** The stop event at the level of the worker *)

Lemma is_set_set b w : stop_event w = true -> is_set b w = w.
Proof. destruct w; cbn. now intros ->. Qed.

Lemma is_set_clear w : stop_event w = false -> is_set false w = w.
Proof. destruct w; cbn. now intros ->. Qed.

Lemma reads_once_set sets : forall w,
  stop_event w = true -> reads sets w = repeat true (length sets).
Proof.
  induction sets as [|b rest IH]; intros w H; [reflexivity|].
  cbn [reads length repeat]. rewrite (is_set_set _ _ H), H. f_equal. now apply IH.
Qed.

Lemma reads_monotone sets : forall w,
  exists k, (k <= length sets)%nat /\
    reads sets w = repeat false k ++ repeat true (length sets - k).
Proof.
  induction sets as [|b rest IH]; intros w.
  - exists 0%nat. now split.
  - cbn [reads]. destruct (stop_event (is_set b w)) eqn:E.
    + exists 0%nat. split; [lia|]. cbn [repeat app Nat.sub length].
      f_equal. now apply reads_once_set.
    + destruct (IH (is_set b w)) as (k & Hk & ->).
      exists (S k). split; [cbn [length]; lia|]. reflexivity.
Qed.

Lemma manual_mode_set self os_name ms r thread_name w :
  stop_event w = true ->
  manual_mode self os_name ms r thread_name w = (Done tt, w).
Proof. intros H. unfold manual_mode. now rewrite (is_set_set _ _ H), H. Qed.

Lemma automatic_mode_set self os_name ac rest r thread_name w :
  stop_event w = true ->
  automatic_mode self os_name (ac :: rest) r thread_name w = (AutoStopEvent, w).
Proof. intros H. cbn [automatic_mode]. now rewrite (is_set_set _ _ H), H. Qed.

(** The wait of lines 189-192 when the event is set between the reads
    [k - 1] and [k]: it returns at the read [k], after [k] sleeps. *)
Lemma wait_interval_returns set_before k : forall ticks i w,
  stop_event w = false ->
  (k < ticks)%nat ->
  (forall j, (j < k)%nat -> set_before (i + j)%nat = false) ->
  set_before (i + k)%nat = true ->
  wait_interval ticks i set_before w =
  (WaitReturned,
   mkWorld true (dirs w) (disk w) (trace w ++ repeat (ESleep 1) k)).
Proof.
  induction k as [|k IH]; intros ticks i w Hw Hk Hbefore Hset.
  - destruct ticks as [|ticks]; [lia|]. cbn [wait_interval].
    rewrite Nat.add_0_r in Hset.
    destruct w as [ev d f tr]; cbn in *. subst ev. rewrite Hset. cbn.
    now rewrite app_nil_r.
  - destruct ticks as [|ticks]; [lia|]. cbn [wait_interval].
    assert (H0 : set_before i = false).
    { rewrite <- (Nat.add_0_r i). apply Hbefore. lia. }
    rewrite H0, (is_set_clear _ Hw), Hw.
    rewrite (IH ticks (S i) (call (ESleep 1) w)).
    + cbn. rewrite <- app_assoc. reflexivity.
    + exact Hw.
    + lia.
    + intros j Hj. replace (S i + j)%nat with (i + S j)%nat by lia.
      apply Hbefore. lia.
    + replace (S i + k)%nat with (i + S k)%nat by lia. exact Hset.
Qed.

(** The wait when the event stays clear: all the ticks are slept. *)
Lemma wait_interval_elapses set_before : forall ticks i w,
  stop_event w = false ->
  (forall j, (j < ticks)%nat -> set_before (i + j)%nat = false) ->
  wait_interval ticks i set_before w =
  (WaitElapsed,
   mkWorld false (dirs w) (disk w) (trace w ++ repeat (ESleep 1) ticks)).
Proof.
  induction ticks as [|ticks IH]; intros i w Hw Hclear.
  - cbn. destruct w; cbn in *. subst. now rewrite app_nil_r.
  - cbn [wait_interval].
    assert (H0 : set_before i = false).
    { rewrite <- (Nat.add_0_r i). apply Hclear. lia. }
    rewrite H0, (is_set_clear _ Hw), Hw.
    rewrite (IH (S i) (call (ESleep 1) w)).
    + cbn. rewrite <- app_assoc. reflexivity.
    + exact Hw.
    + intros j Hj. replace (S i + j)%nat with (i + S j)%nat by lia.
      apply Hclear. lia.
Qed.

(** ** Cancellation during the wait and during streaming *)

(** One pass of the automatic loop that finds the user not live, up to the
    wait. *)
Lemma automatic_mode_not_live self os_name ac rest r thread_name w room_id :
  stop_event w = false ->
  ac_stop ac = false ->
  ac_room_id ac = Returns room_id ->
  ms_stop (ac_manual ac) = false ->
  ms_alive (ac_manual ac) = Returns false ->
  automatic_mode self os_name (ac :: rest) r thread_name w =
  match wait_interval (Z.to_nat (automatic_interval self * 60)) 0 (ac_wait ac)
          (logger INFO ("[" +:+ thread_name +:+ "] " +:+
                        not_live_message thread_name (r_user r))
             (call (EIsRoomAlive room_id) (call (EGetRoomId (r_user r)) w)))
  with
  | (WaitReturned, w) => (AutoReturnedInWait, w)
  | (WaitElapsed, w) =>
      automatic_mode self os_name rest (set_room_id room_id r) thread_name w
  end.
Proof.
  intros Hw Hs Hr Hm Ha. cbn [automatic_mode].
  rewrite Hs, (is_set_clear _ Hw), Hw, Hr.
  unfold manual_mode. rewrite Hm.
  rewrite (is_set_clear (call _ w)) by exact Hw.
  cbn [call stop_event]. rewrite Hw, Ha. reflexivity.
Qed.

(** ** The stop event is never cleared *)

Lemma for_chunks_left_by_stop duration start_time chunks gen_end :
  forall s s',
    for_chunks duration start_time chunks gen_end s = (ForStopEvent, s') ->
    st_stop_event s' = true.
Proof.
  induction chunks as [|c rest IH]; intros s s' H; cbn [for_chunks] in H.
  - destruct gen_end; discriminate.
  - destruct (st_stop_event (observe_stop (ce_stop c) s)) eqn:E.
    + inversion H; subst. exact E.
    + destruct (buffer_size <=? _).
      * destruct (ce_write c); [|discriminate].
        destruct (duration_reached _ _); [discriminate|]. eapply IH, H.
      * destruct (duration_reached _ _); [discriminate|]. eapply IH, H.
Qed.

Lemma recording_loop_left_by_stop thread_name room_id live_url duration
    start_time cycles :
  forall stop_recording s s',
    recording_loop thread_name room_id live_url duration start_time cycles
      stop_recording s = (LoopStopEvent, s') ->
    st_stop_event s' = true.
Proof.
  induction cycles as [|cy rest IH]; intros b s s' H.
  - destruct b; discriminate.
  - destruct b; [discriminate|]. rewrite recording_loop_cons in H.
    cbn zeta in H.
    destruct (st_stop_event (observe_stop (cy_stop cy) s)) eqn:E.
    + inversion H; subst. exact E.
    + destruct (try_suite _ _ _ _ _ _ _) as [x s1].
      destruct (finally_clause _ _) as [[[]|e] s2]; [|discriminate].
      destruct x as [|x]; [discriminate|]. eapply IH, H.
Qed.

Lemma wait_interval_left_by_stop set_before ticks :
  forall i w w',
    wait_interval ticks i set_before w = (WaitReturned, w') ->
    stop_event w' = true.
Proof.
  induction ticks as [|ticks IH]; intros i w w' H; cbn [wait_interval] in H.
  - discriminate.
  - destruct (stop_event (is_set (set_before i) w)) eqn:E.
    + inversion H; subst. exact E.
    + eapply IH, H.
Qed.

Lemma post_process_stop_event convert upload cf uf r thread_name out w :
  stop_event (post_process convert upload cf uf r thread_name out w) =
  stop_event w.
Proof.
  unfold post_process. destruct convert; [|reflexivity].
  destruct (r_use_telegram r); [|reflexivity]. now destruct upload.
Qed.

Lemma start_recording_keeps_stop self os_name rs r thread_name w :
  stop_event w = true ->
  stop_event (snd (start_recording self os_name rs r thread_name w)) = true.
Proof.
  intros Hw. unfold start_recording.
  destruct (rs_live_url rs) as [url|e]; [|exact Hw].
  destruct (negb (truthy url)); [exact Hw|].
  destruct (rs_makedirs rs); [|exact Hw].
  destruct (rs_open rs); [|exact Hw].
  match goal with |- context [recording_loop ?a ?b ?c ?d ?e ?f ?g ?s] =>
    pose proof (recording_loop_set_appended a b c d e f g s Hw) as Hs;
    destruct (recording_loop a b c d e f g s) as [x s1]
  end.
  cbn [snd] in Hs. subst s1.
  destruct x; cbn; try rewrite post_process_stop_event; exact Hw.
Qed.

Lemma automatic_mode_left_by_stop self os_name cycles :
  forall r thread_name w w' x,
    automatic_mode self os_name cycles r thread_name w = (x, w') ->
    x = AutoStopEvent \/ x = AutoReturnedInWait ->
    stop_event w' = true.
Proof.
  induction cycles as [|ac rest IH]; intros r thread_name w w' x H Hx;
    cbn [automatic_mode] in H.
  - inversion H; subst. now destruct Hx.
  - destruct (stop_event (is_set (ac_stop ac) w)) eqn:E.
    { inversion H; subst. exact E. }
    destruct (ac_room_id ac) as [room_id|e].
    + destruct (manual_mode _ _ _ _ _ _) as [[[]|e|] w1].
      * eapply IH; eauto.
      * destruct e as [m|m|m].
        -- destruct (wait_interval _ _ _ _) as [[] w2] eqn:Ew.
           ++ inversion H; subst. eapply wait_interval_left_by_stop, Ew.
           ++ eapply IH; eauto.
        -- inversion H; subst. now destruct Hx.
        -- inversion H; subst. now destruct Hx.
      * inversion H; subst. now destruct Hx.
    + destruct e as [m|m|m].
      * destruct (wait_interval _ _ _ _) as [[] w2] eqn:Ew.
        -- inversion H; subst. eapply wait_interval_left_by_stop, Ew.
        -- eapply IH; eauto.
      * inversion H; subst. now destruct Hx.
      * inversion H; subst. now destruct Hx.
Qed.

(** A worker started (or resumed) with the event set starts no attempt. *)
Lemma record_stream_set self os_name ts r thread_name w :
  stop_event w = true ->
  ts_recorder ts = Returns r ->
  (mode self = AUTOMATIC -> ts_auto ts <> []) ->
  record_stream self os_name ts thread_name w =
  (Returned,
   logger INFO ("[" +:+ thread_name +:+ "] Initializing recorder...") w).
Proof.
  intros Hw Hr Hauto. unfold record_stream, run_recorder. rewrite Hr.
  destruct (mode self).
  - now rewrite manual_mode_set.
  - destruct (ts_auto ts) as [|ac rest]; [now elim Hauto|].
    now rewrite automatic_mode_set.
Qed.

(** ** What [stop_all_recordings] does to the event *)

Lemma join_threads_stop_event sc names : forall i o,
  o_stop_event (join_threads sc i names o) = o_stop_event o.
Proof.
  induction names as [|n rest IH]; intros i o; cbn [join_threads]; [reflexivity|].
  rewrite IH. now destruct (os_alive sc i (o_now o)).
Qed.

Lemma stop_all_recordings_sets sc o :
  o_stop_event (stop_all_recordings sc o) = true.
Proof.
  unfold stop_all_recordings. cbn [o_emit o_stop_event].
  now rewrite join_threads_stop_event.
Qed.

(** ** After the loop: what post-processing is given *)

Lemma post_process_trace convert upload cf uf r thread_name out w :
  trace (post_process convert upload cf uf r thread_name out w) =
  trace w ++ post_events convert upload r thread_name out.
Proof.
  unfold post_events, post_process.
  destruct convert; [|cbn; now rewrite <- app_assoc].
  destruct (r_use_telegram r); [|reflexivity].
  destruct upload; cbn; now rewrite <- !app_assoc.
Qed.

(** [_start_recording_with_stop_event] when the URL is there and the folder
    and the file can be created: the loop runs from [opened_world]. *)
Lemma start_recording_opened self os_name rs r thread_name w url u1 u2 :
  rs_live_url rs = Returns (Some url) ->
  url <> "" ->
  rs_makedirs rs = Returns u1 ->
  rs_open rs = Returns u2 ->
  let out := output_path os_name r (strftime (rs_localtime rs))
               (length (targets self)) thread_name in
  let w1 := opened_world os_name (length (targets self)) rs r thread_name w in
  start_recording self os_name rs r thread_name w =
  let '(x, s) := recording_loop thread_name (r_room_id r) url (r_duration r)
                   (rs_start_time rs) (rs_cycles rs) false (enter_with w1) in
  match x with
  | LoopRunning => (Running, leave_with out (file_durable (st_file s)) s w1)
  | LoopEscaped e =>
      (Raised e,
       call (EClose out) (leave_with out (file_durable (st_file s)) s w1))
  | _ =>
      (Done tt,
       post_process (rs_convert rs) (rs_upload rs) (rs_convert_fs rs)
         (rs_upload_fs rs) r thread_name out
         (logger INFO (finished_message thread_name out)
            (call (EClose out)
               (leave_with out (file_content (st_file s)) s w1))))
  end.
Proof.
  intros Hurl Hne Hmk Hop out w1. unfold start_recording.
  rewrite Hurl, Hmk, Hop.
  assert (Ht : truthy (Some url) = true).
  { cbn. destruct url; [congruence|reflexivity]. }
  rewrite Ht. cbn [negb default]. fold out. reflexivity.
Qed.

(** Whatever ended the loop, the same calls follow it. *)
Lemma start_recording_after_loop self os_name rs r thread_name w url u1 u2 x s :
  rs_live_url rs = Returns (Some url) ->
  url <> "" ->
  rs_makedirs rs = Returns u1 ->
  rs_open rs = Returns u2 ->
  let out := output_path os_name r (strftime (rs_localtime rs))
               (length (targets self)) thread_name in
  recording_loop thread_name (r_room_id r) url (r_duration r)
    (rs_start_time rs) (rs_cycles rs) false
    (enter_with (opened_world os_name (length (targets self)) rs r
                   thread_name w)) = (x, s) ->
  x = LoopStopRecording \/ x = LoopStopEvent \/ x = LoopNotLive ->
  exists w',
    start_recording self os_name rs r thread_name w = (Done tt, w') /\
    trace w' =
      st_trace s ++
      [EClose out; ELog INFO (finished_message thread_name out)] ++
      post_events (rs_convert rs) (rs_upload rs) r thread_name out /\
    exists closed,
      w' = post_process (rs_convert rs) (rs_upload rs) (rs_convert_fs rs)
             (rs_upload_fs rs) r thread_name out closed /\
      disk closed !! out = Some (file_content (st_file s)).
Proof.
  intros Hurl Hne Hmk Hop out Hrun Hx.
  rewrite (start_recording_opened _ _ _ _ _ _ url u1 u2) by assumption.
  cbn zeta. rewrite Hrun.
  destruct Hx as [-> | [-> | ->]];
    (eexists; split; [reflexivity|]; split;
     [rewrite post_process_trace; cbn; now rewrite <- !app_assoc|]);
    (eexists; split; [reflexivity|]); cbn; apply lookup_insert_eq.
Qed.

(** ** A pass that ends on the duration limit *)

(** One pass of the [for] body that ends on the duration limit. *)
Lemma for_chunks_duration duration0 start_time c rest gen_end s :
  st_stop_event s = false ->
  ce_stop c = false ->
  (Z.of_nat (length (st_buffer s ++ ce_chunk c)) < buffer_size \/
   exists u, ce_write c = Returns u) ->
  duration_reached duration0 (ce_now c - start_time)%Q = true ->
  exists s',
    for_chunks duration0 start_time (c :: rest) gen_end s = (ForDuration, s') /\
    st_appended s' = st_appended s ++ ce_chunk c.
Proof.
  intros Hs Hc Hw Hd. destruct s as [ev buf f app tr].
  cbn [st_stop_event] in Hs. subst ev.
  cbn [for_chunks]. unfold observe_stop.
  cbn [st_stop_event st_buffer st_file st_appended st_trace] in *.
  rewrite Hc. cbn [orb extend st_buffer].
  destruct (Z.leb_spec buffer_size (Z.of_nat (length (buf ++ ce_chunk c)))).
  - destruct Hw as [Hw | [u Hw]]; [lia|].
    rewrite Hw, Hd. eexists. split; reflexivity.
  - rewrite Hd. eexists. split; reflexivity.
Qed.

(** ** A target that is not live, a live URL that is missing *)

Lemma start_recording_no_url self os_name rs r thread_name w url :
  rs_live_url rs = Returns url ->
  truthy url = false ->
  start_recording self os_name rs r thread_name w =
  (Raised (Exception (no_url_message thread_name)),
   call (EGetLiveUrl (r_room_id r)) w).
Proof.
  intros Hurl Ht. unfold start_recording. now rewrite Hurl, Ht.
Qed.

Lemma manual_mode_no_url self os_name ms r thread_name w url :
  stop_event w = false ->
  ms_stop ms = false ->
  ms_alive ms = Returns true ->
  rs_live_url (ms_rec ms) = Returns url ->
  truthy url = false ->
  manual_mode self os_name ms r thread_name w =
  (Raised (Exception (no_url_message thread_name)),
   call (EGetLiveUrl (r_room_id r)) (call (EIsRoomAlive (r_room_id r)) w)).
Proof.
  intros Hw Hs Ha Hurl Ht. unfold manual_mode.
  rewrite Hs, (is_set_clear _ Hw), Hw, Ha.
  now apply start_recording_no_url with (url := url).
Qed.

Lemma manual_mode_not_live self os_name ms r thread_name w :
  stop_event w = false ->
  ms_stop ms = false ->
  ms_alive ms = Returns false ->
  manual_mode self os_name ms r thread_name w =
  (Raised (UserLiveException (not_live_message thread_name (r_user r))),
   call (EIsRoomAlive (r_room_id r)) w).
Proof.
  intros Hw Hs Ha. unfold manual_mode.
  now rewrite Hs, (is_set_clear _ Hw), Hw, Ha.
Qed.

Lemma opens_app tr1 tr2 : opens (tr1 ++ tr2) = opens tr1 || opens tr2.
Proof. apply existsb_app. Qed.

(** A file is opened by the manual entry point only after the liveness check
    and the retrieval of the live URL have both succeeded. *)
Lemma manual_mode_opens self os_name ms r thread_name w :
  opens (trace w) = false ->
  opens (trace (snd (manual_mode self os_name ms r thread_name w))) = true ->
  ms_alive ms = Returns true /\
  exists url, rs_live_url (ms_rec ms) = Returns (Some url) /\ url <> "".
Proof.
  intros Hw. unfold manual_mode. unfold opens in *.
  destruct (stop_event (is_set (ms_stop ms) w)).
  { unfold is_set. cbn. congruence. }
  destruct (ms_alive ms) as [[|]|e].
  - unfold start_recording.
    destruct (rs_live_url (ms_rec ms)) as [[url|]|e].
    + destruct url as [|a url].
      * unfold call, is_set. cbn. rewrite !existsb_app, Hw. cbn. congruence.
      * intros _. split; [reflexivity|]. exists (String a url). now split.
    + unfold call, is_set. cbn. rewrite !existsb_app, Hw. cbn. congruence.
    + unfold call, is_set. cbn. rewrite !existsb_app, Hw. cbn. congruence.
  - unfold call, is_set. cbn. rewrite !existsb_app, Hw. cbn. congruence.
  - unfold call, is_set. cbn. rewrite !existsb_app, Hw. cbn. congruence.
Qed.

(** ** The output path and the trace of an attempt *)

Lemma append_assoc (s1 s2 s3 : string) :
  (s1 +:+ s2) +:+ s3 = s1 +:+ (s2 +:+ s3).
Proof.
  induction s1 as [|a s1 IH]; [reflexivity|].
  change (String a ((s1 +:+ s2) +:+ s3) = String a (s1 +:+ (s2 +:+ s3))).
  now rewrite IH.
Qed.

Lemma append_nil_r (s : string) : s +:+ "" = s.
Proof.
  induction s as [|a s IH]; [reflexivity|].
  change (String a (s +:+ "") = String a s). now rewrite IH.
Qed.

Lemma length_append (s1 s2 : string) :
  String.length (s1 +:+ s2) = (String.length s1 + String.length s2)%nat.
Proof.
  induction s1 as [|a s1 IH]; [reflexivity|].
  change (S (String.length (s1 +:+ s2)) =
          S (String.length s1 + String.length s2)). now rewrite IH.
Qed.

Lemma append_inj_l (p s1 s2 : string) : p +:+ s1 = p +:+ s2 -> s1 = s2.
Proof.
  induction p as [|a p IH]; intros H; [exact H|].
  change (String a (p +:+ s1) = String a (p +:+ s2)) in H.
  injection H as H. now apply IH.
Qed.

Lemma append_inj_r (s : string) : forall s1 s2, s1 +:+ s = s2 +:+ s -> s1 = s2.
Proof.
  induction s1 as [|a s1 IH]; intros [|b s2] H.
  - reflexivity.
  - apply (f_equal String.length) in H.
    change (String.length s = S (String.length (s2 +:+ s))) in H.
    rewrite length_append in H. lia.
  - apply (f_equal String.length) in H.
    change (S (String.length (s1 +:+ s)) = String.length s) in H.
    rewrite length_append in H. lia.
  - change (String a (s1 +:+ s) = String b (s2 +:+ s)) in H.
    injection H as -> H. f_equal. now apply IH.
Qed.




Lemma output_path_shape os_name r current_date n_targets thread_name :
  output_path os_name r current_date n_targets thread_name =
  base_output os_name (r_output r) +:+ r_user r +:+ "/TK_" +:+ r_user r +:+
  "_" +:+ current_date +:+ output_suffix n_targets thread_name +:+ "_flv.mp4".
Proof.
  unfold output_path, user_folder.
  now rewrite !append_assoc.
Qed.




(** The loop only adds to the trace. *)
Lemma for_chunks_trace duration0 start_time chunks gen_end : forall s,
  st_trace (snd (for_chunks duration0 start_time chunks gen_end s)) = st_trace s.
Proof.
  induction chunks as [|c rest IH]; intros s; cbn [for_chunks].
  - now destruct gen_end.
  - destruct (st_stop_event (observe_stop (ce_stop c) s)); [reflexivity|].
    destruct (buffer_size <=? _).
    + destruct (ce_write c);
        [|cbn [snd]; now rewrite (proj1 (proj2 (proj2 (proj2
                                   (write_partial_keeps _ _)))))].
      destruct (duration_reached _ _); [reflexivity|]. now rewrite IH.
    + destruct (duration_reached _ _); [reflexivity|]. now rewrite IH.
Qed.

Lemma finally_clause_trace cy s :
  st_trace (snd (finally_clause cy s)) = st_trace s.
Proof.
  unfold finally_clause.
  destruct (st_buffer s) eqn:Hb; [now destruct (cy_flush cy)|].
  destruct (cy_final_write cy); [now destruct (cy_flush cy)|].
  cbn [snd]. apply write_partial_keeps.
Qed.


(** ** The orchestrator *)

Lemma started_app tr1 tr2 : started (tr1 ++ tr2) = started tr1 ++ started tr2.
Proof.
  induction tr1 as [|e tr1 IH]; [reflexivity|].
  destruct e; cbn; now rewrite IH.
Qed.


Lemma length_thread_names ts : forall i, length (thread_names i ts) = length ts.
Proof.
  induction ts as [|t rest IH]; intros i; [reflexivity|].
  cbn. now rewrite IH.
Qed.

(** The spawn loop when nothing cuts it short. *)
Lemma spawn_all sc ts : forall i o,
  (forall j, (j < length ts)%nat -> os_spawn sc (i + j)%nat = SpawnOk) ->
  spawn sc i ts o =
  (SpawnedAll,
   mkOrch (o_stop_event o) (recording_threads o ++ thread_names i ts)
          (o_now o + length ts) (o_trace o ++ spawn_events i ts)).
Proof.
  induction ts as [|t rest IH]; intros i o Hok.
  - cbn. destruct o; cbn. now rewrite !app_nil_r, Nat.add_0_r.
  - cbn [spawn].
    assert (H0 : os_spawn sc i = SpawnOk).
    { rewrite <- (Nat.add_0_r i). apply Hok. cbn. lia. }
    rewrite H0. rewrite IH.
    + unfold o_sleep, o_elapse, o_emit, o_append. cbn.
      rewrite <- !app_assoc. cbn. f_equal. f_equal. lia.
    + intros j Hj. replace (S i + j)%nat with (i + S j)%nat by lia.
      apply Hok. cbn. lia.
Qed.


Lemma join_wait_spec alive timeout : forall now,
  (join_wait alive now timeout <= timeout)%nat /\
  ((join_wait alive now timeout < timeout)%nat ->
   alive (now + join_wait alive now timeout)%nat = false).
Proof.
  induction timeout as [|timeout IH]; intros now; cbn [join_wait].
  - split; [lia|lia].
  - destruct (alive now) eqn:E.
    + destruct (IH (S now)) as [Hle Hlt]. split; [lia|].
      intros H. replace (now + S (join_wait alive (S now) timeout))%nat
        with (S now + join_wait alive (S now) timeout)%nat by lia.
      apply Hlt. lia.
    + split; [lia|]. intros _. now rewrite Nat.add_0_r.
Qed.

(** Lines 298-300: each thread either is seen not alive at some moment of the
    joins, or has kept the main thread waiting for the five seconds of its
    timeout. *)
Lemma join_threads_spec sc names : forall i o,
  let o' := join_threads sc i names o in
  o_stop_event o' = o_stop_event o /\
  recording_threads o' = recording_threads o /\
  started (o_trace o') = started (o_trace o) /\
  (o_now o <= o_now o')%nat /\
  forall j, (j < length names)%nat ->
    (exists t, (o_now o <= t <= o_now o')%nat /\ os_alive sc (i + j) t = false) \/
    (o_now o + 5 <= o_now o')%nat.
Proof.
  induction names as [|n rest IH]; intros i o; cbn [join_threads].
  - cbn. repeat split; try lia; intros j Hj; cbn in Hj; lia.
  - set (o1 := if os_alive sc i (o_now o)
               then o_elapse (join_wait (os_alive sc i) (o_now o) 5)
                             (o_emit (OJoin n 5) o)
               else o).
    destruct (IH (S i) o1) as (Hs & Hr & Hst & Hnow & Hall).
    assert (H1 : o_stop_event o1 = o_stop_event o /\
                 recording_threads o1 = recording_threads o /\
                 started (o_trace o1) = started (o_trace o) /\
                 (o_now o <= o_now o1)%nat /\
                 ((exists t, (o_now o <= t <= o_now o1)%nat /\
                             os_alive sc i t = false) \/
                  (o_now o + 5 <= o_now o1)%nat)).
    { unfold o1. destruct (os_alive sc i (o_now o)) eqn:E.
      - unfold o_elapse, o_emit.
        cbn [o_stop_event recording_threads o_now o_trace].
        rewrite started_app. cbn [started]. rewrite app_nil_r.
        repeat split; try lia.
        destruct (join_wait_spec (os_alive sc i) 5 (o_now o)) as [Hle Hlt].
        destruct (Nat.eq_dec (join_wait (os_alive sc i) (o_now o) 5) 5%nat)
          as [Heq|Hne].
        + right. lia.
        + left. eexists. split; [|apply Hlt; lia]. lia.
      - repeat split; try lia. left. exists (o_now o). split; [lia|exact E]. }
    destruct H1 as (Hs1 & Hr1 & Hst1 & Hnow1 & Hfirst).
    cbn zeta. repeat split; try congruence; try lia.
    intros j Hj. destruct j as [|j].
    + rewrite Nat.add_0_r. destruct Hfirst as [(t & Ht & Hd) | H5].
      * left. exists t. split; [lia|exact Hd].
      * right. lia.
    + destruct (Hall j) as [(t & Ht & Hd) | H5]; [cbn in Hj; lia| |].
      * left. exists t. split; [lia|].
        now replace (i + S j)%nat with (S i + j)%nat by lia.
      * right. lia.
Qed.

Lemma stop_all_recordings_spec sc o :
  let o' := stop_all_recordings sc o in
  o_stop_event o' = true /\
  recording_threads o' = recording_threads o /\
  started (o_trace o') = started (o_trace o) /\
  (o_now o <= o_now o')%nat /\
  forall j, (j < length (recording_threads o))%nat ->
    (exists t, (o_now o <= t <= o_now o')%nat /\ os_alive sc j t = false) \/
    (o_now o + 5 <= o_now o')%nat.
Proof.
  unfold stop_all_recordings. cbn zeta.
  set (o0 := o_set (o_emit (OLog INFO "Stopping all recordings...") o)).
  destruct (join_threads_spec sc (recording_threads o0) 0 o0)
    as (Hs & Hr & Hst & Hnow & Hall).
  cbn zeta in *.
  set (o2 := join_threads sc 0 (recording_threads o0) o0) in *.
  assert (Hst0 : started (o_trace o0) = started (o_trace o)).
  { unfold o0, o_set, o_emit. cbn [o_trace].
    rewrite !started_app. cbn [started]. now rewrite !app_nil_r. }
  change (o_stop_event o0) with true in Hs.
  change (recording_threads o0) with (recording_threads o) in *.
  change (o_now o0) with (o_now o) in *.
  unfold o_emit. cbn [o_stop_event recording_threads o_now o_trace].
  rewrite started_app. cbn [started]. rewrite app_nil_r.
  repeat split; try assumption; congruence.
Qed.

Lemma any_alive_false sc o :
  any_alive sc o = false ->
  forall j, (j < length (recording_threads o))%nat ->
    os_alive sc j (o_now o) = false.
Proof.
  unfold any_alive. intros H j Hj.
  destruct (os_alive sc j (o_now o)) eqn:E; [|reflexivity].
  assert (Hex : existsb (fun i => os_alive sc i (o_now o))
                  (seq 0 (length (recording_threads o))) = true).
  { apply existsb_exists. exists j. split; [|exact E].
    apply in_seq. lia. }
  congruence.
Qed.

(** [_wait_for_completion]: it returns either with every thread seen not
    alive, or through [stop_all_recordings]. *)
Lemma wait_for_completion_spec sc fuel : forall k o x o',
  wait_for_completion fuel sc k o = (x, o') ->
  recording_threads o' = recording_threads o /\
  started (o_trace o') = started (o_trace o) /\
  (x = RunCompleted ->
   o_stop_event o' = o_stop_event o /\
   forall j, (j < length (recording_threads o))%nat ->
     os_alive sc j (o_now o') = false) /\
  (x = RunStopped ->
   o_stop_event o' = true /\
   exists t0, (t0 <= o_now o')%nat /\
     forall j, (j < length (recording_threads o))%nat ->
       (exists t, (t0 <= t <= o_now o')%nat /\ os_alive sc j t = false) \/
       (t0 + 5 <= o_now o')%nat).
Proof.
  induction fuel as [|fuel IH]; intros k o x o' H; cbn [wait_for_completion] in H.
  - inversion H; subst.
    split; [reflexivity|]. split; [reflexivity|]. split; discriminate.
  - destruct (any_alive sc o) eqn:Ea.
    + destruct (os_wait sc k).
      * inversion H; subst.
        match goal with |- context [stop_all_recordings sc ?a] =>
          destruct (stop_all_recordings_spec sc a) as (Hs & Hr & Hst & Hnow & Hall)
        end.
        cbn zeta in *. repeat split.
        -- rewrite Hr. reflexivity.
        -- rewrite Hst. unfold o_emit. cbn. rewrite !started_app. cbn.
           now rewrite !app_nil_r.
        -- discriminate.
        -- discriminate.
        -- exact Hs.
        -- eexists. split; [exact Hnow|]. intros j Hj. apply Hall. exact Hj.
      * apply IH in H. destruct H as (Hr & Hst & Hc & Hx).
        repeat split.
        -- rewrite Hr. reflexivity.
        -- rewrite Hst. unfold o_sleep, o_elapse, o_emit. cbn.
           rewrite started_app. cbn. now rewrite app_nil_r.
        -- apply Hc. assumption.
        -- apply Hc. assumption.
        -- apply Hx. assumption.
        -- apply Hx. assumption.
    + inversion H; subst.
      split; [reflexivity|]. split; [reflexivity|].
      split; [|discriminate].
      intros _. split; [reflexivity|]. now apply any_alive_false.
Qed.


Lemma join_threads_trace sc names : forall i o,
  exists tr, o_trace (join_threads sc i names o) = o_trace o ++ tr.
Proof.
  induction names as [|n rest IH]; intros i o; cbn [join_threads].
  - exists []. now rewrite app_nil_r.
  - destruct (os_alive sc i (o_now o)).
    + destruct (IH (S i)
                  (o_elapse (join_wait (os_alive sc i) (o_now o) 5)
                     (o_emit (OJoin n 5) o))) as [tr Htr].
      rewrite Htr. unfold o_elapse, o_emit. cbn [o_trace].
      rewrite <- app_assoc. eexists. reflexivity.
    + apply IH.
Qed.



(** *** Each thread is dealt with when the recordings are stopped *)






Lemma any_alive_true sc o :
  any_alive sc o = true ->
  exists j, (j < length (recording_threads o))%nat /\
            os_alive sc j (o_now o) = true.
Proof.
  unfold any_alive. intros H. apply existsb_exists in H as (j & Hj & H).
  apply in_seq in Hj. exists j. split; [lia|exact H].
Qed.

Lemma wait_for_completion_polls sc fuel : forall k o x o',
  wait_for_completion fuel sc k o = (x, o') ->
  x <> RunStopped ->
  o_stop_event o' = o_stop_event o /\
  recording_threads o' = recording_threads o /\
  (o_now o <= o_now o')%nat /\
  o_trace o' = o_trace o ++ repeat (OSleep 1) (o_now o' - o_now o) /\
  (forall t, (o_now o <= t < o_now o')%nat ->
     exists j, (j < length (recording_threads o))%nat /\
               os_alive sc j t = true) /\
  (x = RunCompleted ->
   forall j, (j < length (recording_threads o))%nat ->
     os_alive sc j (o_now o') = false).
Proof.
  induction fuel as [|fuel IH]; intros k o x o' H Hx; cbn [wait_for_completion] in H.
  - inversion H; subst. rewrite Nat.sub_diag, app_nil_r.
    repeat split; auto; try lia; discriminate.
  - destruct (any_alive sc o) eqn:Ea.
    + destruct (os_wait sc k); [inversion H; subst; now elim Hx|].
      apply IH in H; [|exact Hx].
      destruct H as (H1 & H2 & H3 & H4 & H5 & H6).
      unfold o_sleep, o_elapse, o_emit in *.
      cbn [o_stop_event recording_threads o_now o_trace] in *.
      split; [exact H1|]. split; [exact H2|]. split; [lia|]. split.
      * rewrite H4, <- app_assoc.
        replace (o_now o' - o_now o)%nat with (S (o_now o' - (o_now o + 1)))
          by lia.
        reflexivity.
      * split; [|exact H6].
        intros t Ht. destruct (Nat.eq_dec t (o_now o)) as [->|Hne].
        -- now apply any_alive_true.
        -- apply H5. lia.
    + inversion H; subst. rewrite Nat.sub_diag, app_nil_r.
      split; [reflexivity|]. split; [reflexivity|]. split; [lia|].
      split; [reflexivity|]. split; [intros t Ht; lia|].
      intros _. now apply any_alive_false.
Qed.

Lemma first_cut sc n :
  (forall i, (i < n)%nat -> os_spawn sc i = SpawnOk) \/
  exists k, (k < n)%nat /\
    (forall j, (j < k)%nat -> os_spawn sc j = SpawnOk) /\
    os_spawn sc k <> SpawnOk.
Proof.
  induction n as [|n IH]; [left; intros i Hi; lia|].
  destruct IH as [Hok|(k & Hk & Hokk & Hbad)].
  - destruct (os_spawn sc n) eqn:E.
    + left. intros i Hi.
      destruct (Nat.eq_dec i n) as [->|Hne]; [exact E|apply Hok; lia].
    + right. exists n. split; [lia|].
      split; [intros j Hj; now apply Hok|]. rewrite E. discriminate.
    + right. exists n. split; [lia|].
      split; [intros j Hj; now apply Hok|]. rewrite E. discriminate.
  - right. exists k. split; [lia|]. now split.
Qed.


(** The spawn loop when the pass of position [k] is the first that an error
    or an interrupt cuts short. *)
Lemma spawn_cut sc ts : forall i o k,
  (k < length ts)%nat ->
  (forall j, (j < k)%nat -> os_spawn sc (i + j) = SpawnOk) ->
  os_spawn sc (i + k) <> SpawnOk ->
  exists o',
    spawn sc i ts o =
      (match os_spawn sc (i + k) with
       | StartRaises e => SpawnException e
       | _ => SpawnKeyboardInterrupt
       end, o') /\
    o_stop_event o' = o_stop_event o /\
    recording_threads o' =
      recording_threads o ++ thread_names i (take (S k) ts) /\
    started (o_trace o') =
      started (o_trace o) ++
      take (match os_spawn sc (i + k) with
            | StartRaises _ => k
            | _ => S k
            end) ts /\
    o_now o' = (o_now o + k)%nat.
Proof.
  induction ts as [|t ts IH]; intros i o k Hk Hok Hbad; [cbn in Hk; lia|].
  destruct k as [|k].
  - rewrite Nat.add_0_r in *. cbn [spawn].
    destruct (os_spawn sc i) eqn:E; [now elim Hbad| |].
    + eexists. split; [reflexivity|].
      unfold o_append. cbn [o_stop_event recording_threads o_trace o_now].
      cbn [take thread_names]. rewrite app_nil_r, Nat.add_0_r.
      now repeat split.
    + eexists. split; [reflexivity|].
      unfold o_emit, o_append.
      cbn [o_stop_event recording_threads o_trace o_now].
      rewrite !started_app. cbn [started thread_names take].
      rewrite !app_nil_r, Nat.add_0_r. now repeat split.
  - cbn [spawn].
    assert (H0 : os_spawn sc i = SpawnOk).
    { rewrite <- (Nat.add_0_r i). apply Hok. lia. }
    rewrite H0.
    replace (i + S k)%nat with (S i + k)%nat in * by lia.
    destruct (IH (S i)
                (o_sleep
                   (o_emit (OLog SUCCESS ("Started recording thread: "
                                          +:+ thread_name_of i t))
                      (o_emit (OStart (thread_name_of i t) t)
                         (o_append (thread_name_of i t) o)))) k)
      as (o' & Hsp & Hs & Hr & Hst & Hnow).
    + cbn in Hk. lia.
    + intros j Hj. replace (S i + j)%nat with (i + S j)%nat by lia.
      apply Hok. lia.
    + exact Hbad.
    + exists o'. split; [exact Hsp|].
      unfold o_sleep, o_elapse, o_emit, o_append in Hs, Hr, Hst, Hnow.
      cbn [o_stop_event recording_threads o_trace o_now] in Hs, Hr, Hst, Hnow.
      split; [exact Hs|]. split.
      * rewrite Hr. cbn [take thread_names]. now rewrite <- app_assoc.
      * split; [|lia].
        rewrite Hst, !started_app. cbn [started].
        rewrite !app_nil_r, <- app_assoc.
        destruct (os_spawn sc (S i + k)); reflexivity.
Qed.


(* ===================================================================== *)
(** * The claims *)
(* ===================================================================== *)

(** ** C1: every exit path flushes what was appended *)




(** ** C2: the buffer and its threshold *)

(** C2.  Each incoming chunk is appended to the buffer; when the buffer then
    holds at least 512 KiB (524288 bytes) the whole buffer is written to the
    file and cleared, and when it holds less the file is left alone; at the
    end of the stream the [finally] clause writes whatever remains.  For
    three chunks of 200 KiB followed by the end of the broadcast: after the
    first two chunks nothing has been written and the buffer holds the 400
    KiB; the third chunk makes the loop body write the 600 KiB at once and
    clear the buffer; the [finally] clause then finds nothing to write and
    flushes; and the file holds exactly the 600 KiB, in one write. *)
Theorem C2_buffer_written_at_512KiB :
  forall duration start_time c s cy u
         thread_name room_id live_url c1 c2 c3 t1 t2 t3 w,
    (st_stop_event s = false -> ce_stop c = false -> ce_write c = Returns u ->
     exists x s',
       for_chunks duration start_time [c] (Returns tt) s = (x, s') /\
       (x = ForExhausted \/ x = ForDuration) /\
       st_appended s' = st_appended s ++ ce_chunk c /\
       (512 * 1024 <= Z.of_nat (length (st_buffer s ++ ce_chunk c)) ->
        st_buffer s' = [] /\
        f_writes (st_file s') = f_writes (st_file s) ++ [st_buffer s ++ ce_chunk c]) /\
       (Z.of_nat (length (st_buffer s ++ ce_chunk c)) < 512 * 1024 ->
        st_buffer s' = st_buffer s ++ ce_chunk c /\ st_file s' = st_file s)) /\
    (st_buffer s <> [] -> cy_final_write cy = Returns u -> cy_flush cy = Returns u ->
     exists s',
       finally_clause cy s = (Returns tt, s') /\
       st_buffer s' = [] /\
       f_writes (st_file s') = f_writes (st_file s) ++ [st_buffer s] /\
       f_flushed (st_file s') = length (f_writes (st_file s'))) /\
    (stop_event w = false ->
     Z.of_nat (length c1) = 200 * 1024 ->
     Z.of_nat (length c2) = 200 * 1024 ->
     Z.of_nat (length c3) = 200 * 1024 ->
     let s0 := emit (EDownload live_url)
                 (emit (EIsRoomAlive room_id) (enter_with w)) in
     (exists s2,
        for_chunks None start_time [plain c1 t1; plain c2 t2] (Returns tt) s0 =
          (ForExhausted, s2) /\
        f_writes (st_file s2) = [] /\
        st_buffer s2 = c1 ++ c2) /\
     (exists s3,
        for_chunks None start_time [plain c1 t1; plain c2 t2; plain c3 t3]
          (Returns tt) s0 = (ForExhausted, s3) /\
        f_writes (st_file s3) = [c1 ++ c2 ++ c3] /\
        f_flushed (st_file s3) = 0%nat /\
        st_buffer s3 = [] /\
        finally_clause (streaming [plain c1 t1; plain c2 t2; plain c3 t3]) s3 =
          (Returns tt, flush s3)) /\
     exists s',
       recording_loop thread_name room_id live_url None start_time
         [streaming [plain c1 t1; plain c2 t2; plain c3 t3]; ended] false
         (enter_with w) = (LoopNotLive, s') /\
       f_writes (st_file s') = [c1 ++ c2 ++ c3] /\
       f_flushed (st_file s') = 1%nat /\
       st_buffer s' = [] /\
       file_content (st_file s') = c1 ++ c2 ++ c3 /\
       Z.of_nat (length (file_content (st_file s'))) = 600 * 1024).
Proof.
  intros. fold buffer_size. split; [|split].
  - intros Hs Hc Hw.
    destruct (duration_reached duration0 (ce_now c - start_time)%Q) eqn:Hd.
    + destruct s as [ev buf f app tr]. cbn [st_stop_event] in Hs. subst ev.
      cbn [for_chunks]. unfold observe_stop.
      cbn [st_stop_event st_buffer st_file st_appended st_trace].
      rewrite Hc. cbn [orb extend st_buffer].
      destruct (Z.leb_spec buffer_size (Z.of_nat (length (buf ++ ce_chunk c)))).
      * rewrite Hw, Hd. eexists _, _. split; [reflexivity|].
        split; [now right|]. split; [reflexivity|].
        split; [intros _; split; reflexivity|lia].
      * rewrite Hd. eexists _, _. split; [reflexivity|].
        split; [now right|]. split; [reflexivity|].
        split; [lia|intros _; split; reflexivity].
    + rewrite (for_chunks_step _ _ _ _ _ _ u) by assumption.
      cbn [for_chunks]. eexists _, _. split; [reflexivity|].
      split; [now left|].
      destruct (Z.leb_spec buffer_size
                  (Z.of_nat (length (st_buffer s ++ ce_chunk c)))).
      * split; [reflexivity|]. split; [intros _; split; reflexivity|lia].
      * split; [reflexivity|]. split; [lia|intros _; split; reflexivity].
  - intros Hb Hw Hf. unfold finally_clause.
    destruct (st_buffer s) as [|b bs] eqn:Eb; [congruence|].
    rewrite Hw, Hf. destruct u. eexists. split; [reflexivity|].
    cbn. rewrite Eb. repeat split; reflexivity.
  - intros Hw H1 H2 H3 s0.
    assert (Hs0 : st_stop_event s0 = false) by exact Hw.
    assert (Hb0 : st_buffer s0 = []) by reflexivity.
    split; [|split].
    + rewrite (for_chunks_step _ _ _ _ _ _ tt); try reflexivity; [|exact Hs0].
      cbn [plain mkChunk ce_chunk]. rewrite Hb0. cbn [app].
      destruct (Z.leb_spec buffer_size (Z.of_nat (length c1)));
        [unfold buffer_size in *; lia|].
      rewrite (for_chunks_step _ _ _ _ _ _ tt); try reflexivity; [|exact Hs0].
      cbn [plain mkChunk ce_chunk extend st_buffer]. rewrite Hb0. cbn [app].
      destruct (Z.leb_spec buffer_size (Z.of_nat (length (c1 ++ c2))));
        [rewrite length_app in *; unfold buffer_size in *; lia|].
      eexists. split; [reflexivity|]. split; reflexivity.
    + rewrite for_chunks_three by assumption.
      eexists. split; [reflexivity|].
      cbn [write_and_clear extend st_buffer st_file file_write f_writes
           f_flushed s0 emit enter_with empty_file app].
      rewrite <- app_assoc.
      split; [reflexivity|]. split; [reflexivity|]. split; reflexivity.
    + rewrite recording_loop_cons.
      unfold try_suite, enter_with.
      cbn [streaming mkCycle cy_stop cy_alive cy_chunks cy_end].
      rewrite Hw. cbn [observe_stop st_stop_event orb].
      rewrite for_chunks_three by (reflexivity || assumption).
      eexists. split; [reflexivity|].
      cbn. rewrite <- !app_assoc.
      repeat split; try reflexivity.
      * now rewrite app_nil_r.
      * rewrite app_nil_r, !length_app. lia.
Qed.

(** The threshold is 524288 bytes: a chunk of that size is written by the
    loop body as soon as it is appended, a chunk one byte shorter stays in
    the buffer, and three chunks of 200 KiB are written when the third one
    arrives. *)
Lemma C2_buffer_written_at_512KiB_witness :
  (exists x s',
     for_chunks None 0 [plain (chunk_of 524288) 1] (Returns tt)
       (enter_with world0) = (x, s') /\
     st_buffer s' = [] /\
     f_writes (st_file s') =
       f_writes (st_file (enter_with world0)) ++
       [st_buffer (enter_with world0) ++ ce_chunk (plain (chunk_of 524288) 1)]) /\
  (exists x s',
     for_chunks None 0 [plain (chunk_of 524287) 1] (Returns tt)
       (enter_with world0) = (x, s') /\
     st_buffer s' =
       st_buffer (enter_with world0) ++ ce_chunk (plain (chunk_of 524287) 1) /\
     st_file s' = st_file (enter_with world0)) /\
  (exists s2,
     for_chunks None 0
       [plain (chunk_of (200 * 1024)) 1; plain (chunk_of (200 * 1024)) 2]
       (Returns tt)
       (emit (EDownload "http://cdn/live.flv")
          (emit (EIsRoomAlive "7") (enter_with world0))) = (ForExhausted, s2) /\
     f_writes (st_file s2) = [] /\
     st_buffer s2 = chunk_of (200 * 1024) ++ chunk_of (200 * 1024)) /\
  (exists s3,
     for_chunks None 0
       [plain (chunk_of (200 * 1024)) 1; plain (chunk_of (200 * 1024)) 2;
        plain (chunk_of (200 * 1024)) 3] (Returns tt)
       (emit (EDownload "http://cdn/live.flv")
          (emit (EIsRoomAlive "7") (enter_with world0))) = (ForExhausted, s3) /\
     f_writes (st_file s3) =
       [chunk_of (200 * 1024) ++ chunk_of (200 * 1024) ++ chunk_of (200 * 1024)] /\
     f_flushed (st_file s3) = 0%nat /\
     st_buffer s3 = []) /\
  exists s',
    recording_loop "Stream-1-alice" "7" "http://cdn/live.flv" None 0
      [streaming [plain (chunk_of (200 * 1024)) 1;
                  plain (chunk_of (200 * 1024)) 2;
                  plain (chunk_of (200 * 1024)) 3]; ended] false
      (enter_with world0) = (LoopNotLive, s') /\
    f_writes (st_file s') =
      [chunk_of (200 * 1024) ++ chunk_of (200 * 1024) ++ chunk_of (200 * 1024)] /\
    f_flushed (st_file s') = 1%nat /\
    st_buffer s' = [] /\
    Z.of_nat (length (file_content (st_file s'))) = 600 * 1024.
Proof.
  split; [|split].
  - destruct (C2_buffer_written_at_512KiB None 0 (plain (chunk_of 524288) 1)
                (enter_with world0) ended tt "Stream-1-alice" "7"
                "http://cdn/live.flv" [] [] [] 1 2 3 world0) as (H & _).
    destruct (H eq_refl eq_refl eq_refl) as (x & s' & Hrun & _ & _ & Hw & _).
    destruct Hw as [Hb Hf]; [vm_compute; discriminate|].
    exists x, s'. split; [exact Hrun|]. split; [exact Hb|exact Hf].
  - destruct (C2_buffer_written_at_512KiB None 0 (plain (chunk_of 524287) 1)
                (enter_with world0) ended tt "Stream-1-alice" "7"
                "http://cdn/live.flv" [] [] [] 1 2 3 world0) as (H & _).
    destruct (H eq_refl eq_refl eq_refl) as (x & s' & Hrun & _ & _ & _ & Hk).
    destruct Hk as [Hb Hf]; [vm_compute; reflexivity|].
    exists x, s'. split; [exact Hrun|]. split; [exact Hb|exact Hf].
  - destruct (C2_buffer_written_at_512KiB None 0 (plain [] 0)
                (enter_with world0) ended tt "Stream-1-alice" "7"
                "http://cdn/live.flv"
                (chunk_of (200 * 1024)) (chunk_of (200 * 1024))
                (chunk_of (200 * 1024)) 1 2 3 world0) as (_ & _ & H).
    destruct H as (H2 & H3 & Hloop);
      [reflexivity|vm_compute; reflexivity|vm_compute; reflexivity
      |vm_compute; reflexivity|].
    split; [exact H2|]. split.
    + destruct H3 as (s3 & Hrun & Hw & Hfl & Hb & _).
      exists s3. now repeat split.
    + destruct Hloop as (s' & Hrun & Hw & Hfl & Hb & _ & Hlen).
      exists s'. now repeat split.
Defined.

(** ** C3: no live URL *)

(** C3 (as amended).  When the broadcast is live but no live URL comes back,
    line 204 raises a plain [Exception].  In manual mode it reaches the last
    handler of [_record_stream]: the task ends, reported as an unexpected
    error, with no folder and no file created.  In automatic mode it is not a
    [UserLiveException], so the handler of line 194 logs it and breaks out of
    the loop: the task ends as well, without a wait and whatever the later
    passes would have met. *)
Theorem C3_missing_live_url_ends_the_task :
  forall self os_name ts r thread_name w url ac rest room_id,
    (mode self = MANUAL ->
     stop_event w = false ->
     ts_recorder ts = Returns r ->
     ms_stop (ts_manual ts) = false ->
     ms_alive (ts_manual ts) = Returns true ->
     rs_live_url (ms_rec (ts_manual ts)) = Returns url ->
     truthy url = false ->
     record_stream self os_name ts thread_name w =
     (UnexpectedErrorReported (no_url_message thread_name),
      mkWorld false (dirs w) (disk w)
        (trace w ++
         [ELog INFO ("[" +:+ thread_name +:+ "] Initializing recorder...");
          EIsRoomAlive (r_room_id r);
          EGetLiveUrl (r_room_id r);
          ELog ERROR ("[" +:+ thread_name +:+ "] Unexpected error: " +:+
                      no_url_message thread_name)]))) /\
    (mode self = AUTOMATIC ->
     stop_event w = false ->
     ts_recorder ts = Returns r ->
     ts_auto ts = ac :: rest ->
     ac_stop ac = false ->
     ac_room_id ac = Returns room_id ->
     ms_stop (ac_manual ac) = false ->
     ms_alive (ac_manual ac) = Returns true ->
     rs_live_url (ms_rec (ac_manual ac)) = Returns url ->
     truthy url = false ->
     fst (automatic_mode self os_name (ac :: rest) r thread_name
            (logger INFO ("[" +:+ thread_name +:+ "] Initializing recorder...") w)) =
       AutoBreak (Exception (no_url_message thread_name)) /\
     record_stream self os_name ts thread_name w =
     (Returned,
      mkWorld false (dirs w) (disk w)
        (trace w ++
         [ELog INFO ("[" +:+ thread_name +:+ "] Initializing recorder...");
          EGetRoomId (r_user r);
          EIsRoomAlive room_id;
          EGetLiveUrl room_id;
          ELog ERROR ("[" +:+ thread_name +:+ "] Unexpected error: " +:+
                      no_url_message thread_name)]))).
Proof.
  intros. split.
  - intros Hmode Hw Hr Hs Ha Hurl Ht.
    unfold record_stream, run_recorder. rewrite Hr, Hmode.
    rewrite (manual_mode_no_url _ _ _ _ _ _ url) by assumption.
    destruct w as [ev d f tr]. cbn in Hw. subst ev.
    unfold logger, call. cbn. now rewrite <- !app_assoc.
  - intros Hmode Hw Hr Hauto Hs Hrid Hms Ha Hurl Ht.
    assert (Hstep :
      automatic_mode self os_name (ac :: rest) r thread_name
        (logger INFO ("[" +:+ thread_name +:+ "] Initializing recorder...") w) =
      (AutoBreak (Exception (no_url_message thread_name)),
       mkWorld false (dirs w) (disk w)
         (trace w ++
          [ELog INFO ("[" +:+ thread_name +:+ "] Initializing recorder...");
           EGetRoomId (r_user r);
           EIsRoomAlive room_id;
           EGetLiveUrl room_id;
           ELog ERROR ("[" +:+ thread_name +:+ "] Unexpected error: " +:+
                       no_url_message thread_name)]))).
    { cbn [automatic_mode]. rewrite Hs.
      rewrite is_set_clear by exact Hw.
      cbn [logger call stop_event]. rewrite Hw, Hrid.
      rewrite (manual_mode_no_url _ _ _ _ _ _ url) by assumption.
      destruct w as [ev d f tr]. cbn in Hw. subst ev.
      unfold logger, call. cbn. now rewrite <- !app_assoc. }
    split; [now rewrite Hstep|].
    unfold record_stream, run_recorder. rewrite Hr, Hmode, Hauto.
    now rewrite Hstep.
Qed.

Lemma C3_missing_live_url_ends_the_task_witness :
  record_stream manual_one "posix" task_no_url "Stream-1-alice" world0 =
  (UnexpectedErrorReported (no_url_message "Stream-1-alice"),
   mkWorld false ∅ ∅
     ([] ++
      [ELog INFO ("[" +:+ "Stream-1-alice" +:+ "] Initializing recorder...");
       EIsRoomAlive (r_room_id alice);
       EGetLiveUrl (r_room_id alice);
       ELog ERROR ("[" +:+ "Stream-1-alice" +:+ "] Unexpected error: " +:+
                   no_url_message "Stream-1-alice")])) /\
  record_stream auto_one "posix" task_no_url "Stream-1-alice" world0 =
  (Returned,
   mkWorld false ∅ ∅
     ([] ++
      [ELog INFO ("[" +:+ "Stream-1-alice" +:+ "] Initializing recorder...");
       EGetRoomId (r_user alice);
       EIsRoomAlive "7";
       EGetLiveUrl "7";
       ELog ERROR ("[" +:+ "Stream-1-alice" +:+ "] Unexpected error: " +:+
                   no_url_message "Stream-1-alice")])).
Proof.
  split.
  - apply (C3_missing_live_url_ends_the_task manual_one "posix" task_no_url
             alice "Stream-1-alice" world0 None no_url_cycle
             [not_live_cycle 0] "7"); reflexivity.
  - apply (C3_missing_live_url_ends_the_task auto_one "posix" task_no_url
             alice "Stream-1-alice" world0 None no_url_cycle
             [not_live_cycle 0] "7"); reflexivity.
Defined.

(** C3 (as stated) fails in automatic mode: the user is live, no live URL
    comes back, the stop event is never set and a further pass is scripted,
    yet the loop is left by the [break] of line 196 and the thread returns;
    there is no sleep and no second resolution of the room. *)
Lemma C3_counterexample_automatic_mode_breaks :
  fst (automatic_mode auto_one "posix" [no_url_cycle; not_live_cycle 0] alice
         "Stream-1-alice" world0) =
    AutoBreak (Exception "[Stream-1-alice] Could not retrieve live URL") /\
  fst (record_stream auto_one "posix" task_no_url "Stream-1-alice" world0) =
    Returned /\
  stop_event
    (snd (record_stream auto_one "posix" task_no_url "Stream-1-alice" world0)) =
    false /\
  trace (snd (record_stream auto_one "posix" task_no_url "Stream-1-alice" world0)) =
    [ELog INFO "[Stream-1-alice] Initializing recorder...";
     EGetRoomId "alice"; EIsRoomAlive "7"; EGetLiveUrl "7";
     ELog ERROR
       "[Stream-1-alice] Unexpected error: [Stream-1-alice] Could not retrieve live URL"] /\
  ~ In (ESleep 1)
      (trace (snd (record_stream auto_one "posix" task_no_url "Stream-1-alice"
                     world0))).
Proof.
  split; [vm_compute; reflexivity|].
  split; [vm_compute; reflexivity|].
  split; [vm_compute; reflexivity|].
  split; [vm_compute; reflexivity|].
  vm_compute. intros H. repeat (destruct H as [H|H]; [discriminate H|]). exact H.
Qed.

(** ** C4: the stop event during the wait and during streaming *)

(** C4.  In the wait of the automatic loop (one read of the stop event and one
    sleep of one second per tick, [automatic_interval * 60] ticks), when the
    event is set between the reads [k - 1] and [k] the wait returns at the
    read [k], having slept [k] seconds and not the whole interval, and so does
    the task that found its target not live; when the event stays clear the
    whole interval is slept and the loop goes on.  In
    the streaming loop, a read of the stop event that finds it set leaves the
    [for] statement before the chunk is appended, and from a state in which
    the event has been seen set neither the [for] statement, nor the [finally]
    clause, nor the [while] statement appends anything more. *)
Theorem C4_stop_event_ends_wait_and_appends :
  forall self os_name ac rest r thread_name w room_id k ticks set_before
         duration start_time c chunks gen_end s cy cycles stop_recording
         live_url,
    (stop_event w = false ->
     (k < ticks)%nat ->
     (forall j, (j < k)%nat -> set_before j = false) ->
     set_before k = true ->
     wait_interval ticks 0 set_before w =
     (WaitReturned,
      mkWorld true (dirs w) (disk w) (trace w ++ repeat (ESleep 1) k))) /\
    (stop_event w = false ->
     ac_stop ac = false ->
     ac_room_id ac = Returns room_id ->
     ms_stop (ac_manual ac) = false ->
     ms_alive (ac_manual ac) = Returns false ->
     (k < Z.to_nat (automatic_interval self * 60))%nat ->
     (forall j, (j < k)%nat -> ac_wait ac j = false) ->
     ac_wait ac k = true ->
     automatic_mode self os_name (ac :: rest) r thread_name w =
     (AutoReturnedInWait,
      mkWorld true (dirs w) (disk w)
        (trace w ++
         [EGetRoomId (r_user r); EIsRoomAlive room_id;
          ELog INFO ("[" +:+ thread_name +:+ "] " +:+
                     not_live_message thread_name (r_user r))] ++
         repeat (ESleep 1) k))) /\
    (stop_event w = false ->
     ac_stop ac = false ->
     ac_room_id ac = Returns room_id ->
     ms_stop (ac_manual ac) = false ->
     ms_alive (ac_manual ac) = Returns false ->
     (forall j, ac_wait ac j = false) ->
     automatic_mode self os_name (ac :: rest) r thread_name w =
     automatic_mode self os_name rest (set_room_id room_id r) thread_name
       (mkWorld false (dirs w) (disk w)
          (trace w ++
           [EGetRoomId (r_user r); EIsRoomAlive room_id;
            ELog INFO ("[" +:+ thread_name +:+ "] " +:+
                       not_live_message thread_name (r_user r))] ++
           repeat (ESleep 1) (Z.to_nat (automatic_interval self * 60))))) /\
    (st_stop_event s || ce_stop c = true ->
     for_chunks duration start_time (c :: chunks) gen_end s =
     (ForStopEvent, observe_stop (ce_stop c) s)) /\
    (st_stop_event s = true ->
     st_appended (snd (for_chunks duration start_time chunks gen_end s)) =
       st_appended s /\
     st_appended (snd (finally_clause cy s)) = st_appended s /\
     st_stop_event (snd (finally_clause cy s)) = true /\
     snd (recording_loop thread_name room_id live_url duration start_time
            cycles stop_recording s) = s).
Proof.
  intros. split; [|split; [|split; [|split]]].
  - intros Hw Hk Hbefore Hset. now apply wait_interval_returns.
  - intros Hw Hs Hr Hm Ha Hk Hbefore Hset.
    rewrite (automatic_mode_not_live _ _ _ _ _ _ _ room_id) by assumption.
    rewrite (wait_interval_returns _ k) by assumption.
    cbn. now rewrite <- !app_assoc.
  - intros Hw Hs Hr Hm Ha Hclear.
    rewrite (automatic_mode_not_live _ _ _ _ _ _ _ room_id) by assumption.
    rewrite wait_interval_elapses by (try assumption; intros; apply Hclear).
    cbn. now rewrite <- !app_assoc.
  - apply for_chunks_observed.
  - intros Hs. split; [apply for_chunks_set, Hs|].
    split; [apply finally_clause_appended|].
    split; [now rewrite (proj2 (finally_clause_appended cy s))|].
    now apply recording_loop_set_appended.
Qed.

Lemma C4_stop_event_ends_wait_and_appends_witness :
  automatic_mode auto_one "posix" [not_live_cycle 3; not_live_cycle 0] alice
    "Stream-1-alice" world0 =
  (AutoReturnedInWait,
   mkWorld true ∅ ∅
     ([] ++
      [EGetRoomId "alice"; EIsRoomAlive "7";
       ELog INFO ("[" +:+ "Stream-1-alice" +:+ "] " +:+
                  not_live_message "Stream-1-alice" "alice")] ++
      repeat (ESleep 1) 3)) /\
  for_chunks (Some 10) 0 [tie_chunk] (Returns tt) (enter_with world0) =
  (ForStopEvent, observe_stop true (enter_with world0)).
Proof.
  destruct (C4_stop_event_ends_wait_and_appends auto_one "posix"
              (not_live_cycle 3) [not_live_cycle 0] alice "Stream-1-alice"
              world0 "7" 3 60 (fun i => Nat.eqb i 3) (Some 10) 0%Q tie_chunk
              [] (Returns tt) (enter_with world0) ended [] false
              "http://cdn/live.flv")
    as (_ & Hwait & _ & Hfor & _).
  split.
  - apply Hwait; try reflexivity.
    + vm_compute; lia.
    + intros j Hj. destruct j as [|[|[|j]]]; try reflexivity. lia.
  - apply Hfor. reflexivity.
Defined.

(** ** C5: the stop event is set once and ends the task *)

(** C5.  The stop event only ever goes from clear to set: whatever the moments
    at which the main thread sets it, the values a worker reads are some
    [false]s followed only by [true]s, and [stop_all_recordings] leaves it
    set.  Once it is set, a read changes nothing, the manual entry point
    returns before the liveness check (the world, trace included, is
    untouched), the automatic loop is left at its test, the streaming loop
    begins no further pass, and a worker whose recorder is built starts no
    attempt.  Every exit that the event causes leaves the event set in the
    state the worker continues from, and [_start_recording_with_stop_event]
    never clears it. *)
Theorem C5_stop_event_set_once_no_new_attempt :
  forall self os_name sc o sets b w ms ac rest r thread_name ts rs
         room_id live_url duration0 start_time cy cycles s,
    (exists k, (k <= length sets)%nat /\
       reads sets w = repeat false k ++ repeat true (length sets - k)) /\
    o_stop_event (stop_all_recordings sc o) = true /\
    (stop_event w = true ->
     is_set b w = w /\
     manual_mode self os_name ms r thread_name w = (Done tt, w) /\
     automatic_mode self os_name (ac :: rest) r thread_name w =
       (AutoStopEvent, w) /\
     stop_event (snd (start_recording self os_name rs r thread_name w)) = true /\
     (ts_recorder ts = Returns r ->
      (mode self = AUTOMATIC -> ts_auto ts <> []) ->
      record_stream self os_name ts thread_name w =
      (Returned,
       logger INFO ("[" +:+ thread_name +:+ "] Initializing recorder...") w))) /\
    (st_stop_event s = true ->
     recording_loop thread_name room_id live_url duration0 start_time
       (cy :: cycles) false s = (LoopStopEvent, s)) /\
    (forall chunks gen_end s',
       for_chunks duration0 start_time chunks gen_end s = (ForStopEvent, s') ->
       st_stop_event s' = true) /\
    (forall stop_recording s',
       recording_loop thread_name room_id live_url duration0 start_time cycles
         stop_recording s = (LoopStopEvent, s') ->
       st_stop_event s' = true) /\
    (forall ticks i set_before w',
       wait_interval ticks i set_before w = (WaitReturned, w') ->
       stop_event w' = true) /\
    (forall autos x w',
       automatic_mode self os_name autos r thread_name w = (x, w') ->
       x = AutoStopEvent \/ x = AutoReturnedInWait ->
       stop_event w' = true).
Proof.
  intros.
  split; [apply reads_monotone|].
  split; [apply stop_all_recordings_sets|].
  split.
  { intros Hw.
    split; [now apply is_set_set|].
    split; [now apply manual_mode_set|].
    split; [now apply automatic_mode_set|].
    split; [now apply start_recording_keeps_stop|].
    intros Hr Hauto. now apply record_stream_set with (r := r). }
  split; [apply recording_loop_set|].
  split; [intros chunks gen_end s'; apply for_chunks_left_by_stop|].
  split; [intros b' s'; apply recording_loop_left_by_stop|].
  split; [intros ticks i sb w'; apply wait_interval_left_by_stop|].
  intros autos x w'. apply automatic_mode_left_by_stop.
Qed.

Lemma C5_stop_event_set_once_no_new_attempt_witness :
  manual_mode manual_one "posix" (mkManual false (Returns true) no_url) alice
    "Stream-1-alice" world_stopped = (Done tt, world_stopped) /\
  automatic_mode auto_one "posix" [no_url_cycle; no_url_cycle] alice
    "Stream-1-alice" world_stopped = (AutoStopEvent, world_stopped) /\
  recording_loop "Stream-1-alice" "7" "http://cdn/live.flv" None 0 two_chunks
    false (enter_with world_stopped) =
  (LoopStopEvent, enter_with world_stopped).
Proof.
  destruct (C5_stop_event_set_once_no_new_attempt auto_one "posix"
              (mkOrchScript (fun _ _ => false) (fun _ => SpawnOk) (fun _ => false))
              orch_init [] false world_stopped
              (mkManual false (Returns true) no_url) no_url_cycle
              [no_url_cycle] alice "Stream-1-alice"
              (mkTask (Returns alice) (mkManual false (Returns true) no_url) [])
              no_url "7" "http://cdn/live.flv" None 0%Q
              (streaming [plain (chunk_of 3) 1; plain (chunk_of 2) 2]) [ended]
              (enter_with world_stopped))
    as (_ & _ & Hw & Hloop & _).
  destruct (Hw eq_refl) as (_ & _ & Hauto & _).
  destruct (C5_stop_event_set_once_no_new_attempt manual_one "posix"
              (mkOrchScript (fun _ _ => false) (fun _ => SpawnOk) (fun _ => false))
              orch_init [] false world_stopped
              (mkManual false (Returns true) no_url) no_url_cycle
              [no_url_cycle] alice "Stream-1-alice"
              (mkTask (Returns alice) (mkManual false (Returns true) no_url) [])
              no_url "7" "http://cdn/live.flv" None 0%Q
              (streaming [plain (chunk_of 3) 1; plain (chunk_of 2) 2]) [ended]
              (enter_with world_stopped))
    as (_ & _ & Hw' & _).
  destruct (Hw' eq_refl) as (_ & Hman & _).
  split; [exact Hman|]. split; [exact Hauto|]. apply Hloop. reflexivity.
Defined.

(** ** C6: duration limit and stop event in the same pass *)

(** C6 (as amended).  When the stop event is found set by the test of line
    242, the [for] statement is left there, before the chunk is appended and
    before the duration limit is looked at: how much time has elapsed makes no
    difference.  Only when that test finds the event clear can the duration
    test end the pass; the chunk has then been appended and the loop test does
    not read the event any more.  Either way [stop_recording] is true and the
    recording stops, and what follows the loop (closing the file, the
    "Recording finished" message, the conversion and the upload of the output
    path) is the same: no outcome is handed to post-processing. *)
Theorem C6_stop_event_is_tested_before_duration :
  forall self os_name rs r thread_name w url u1 u2 x s1
         duration0 start_time c chunks gen_end s room_id live_url cycles,
    (st_stop_event s || ce_stop c = true ->
     for_chunks duration0 start_time (c :: chunks) gen_end s =
     (ForStopEvent, observe_stop (ce_stop c) s)) /\
    (st_stop_event s = false ->
     ce_stop c = false ->
     (Z.of_nat (length (st_buffer s ++ ce_chunk c)) < buffer_size \/
      exists u, ce_write c = Returns u) ->
     duration_reached duration0 (ce_now c - start_time)%Q = true ->
     exists s',
       for_chunks duration0 start_time (c :: chunks) gen_end s =
         (ForDuration, s') /\
       st_appended s' = st_appended s ++ ce_chunk c /\
       recording_loop thread_name room_id live_url duration0 start_time cycles
         (stop_recording_after ForDuration) s' = (LoopStopRecording, s')) /\
    stop_recording_after ForStopEvent = true /\
    stop_recording_after ForDuration = true /\
    (rs_live_url rs = Returns (Some url) ->
     url <> "" ->
     rs_makedirs rs = Returns u1 ->
     rs_open rs = Returns u2 ->
     recording_loop thread_name (r_room_id r) url (r_duration r)
       (rs_start_time rs) (rs_cycles rs) false
       (enter_with (opened_world os_name (length (targets self)) rs r
                      thread_name w)) = (x, s1) ->
     x = LoopStopRecording \/ x = LoopStopEvent \/ x = LoopNotLive ->
     exists w',
       start_recording self os_name rs r thread_name w = (Done tt, w') /\
       trace w' =
         st_trace s1 ++
         [EClose (output_path os_name r (strftime (rs_localtime rs))
                    (length (targets self)) thread_name);
          ELog INFO
            (finished_message thread_name
               (output_path os_name r (strftime (rs_localtime rs))
                  (length (targets self)) thread_name))] ++
         post_events (rs_convert rs) (rs_upload rs) r thread_name
           (output_path os_name r (strftime (rs_localtime rs))
              (length (targets self)) thread_name)).
Proof.
  intros. split; [apply for_chunks_observed|].
  split.
  { intros Hs Hc Hw Hd.
    destruct (for_chunks_duration duration0 start_time c chunks gen_end s
                Hs Hc Hw Hd) as (s' & Hfor & Happ).
    exists s'. split; [exact Hfor|]. split; [exact Happ|].
    now destruct cycles. }
  split; [reflexivity|]. split; [reflexivity|].
  intros Hurl Hne Hmk Hop Hrun Hx.
  destruct (start_recording_after_loop self os_name rs r thread_name w url u1
              u2 x s1 Hurl Hne Hmk Hop Hrun Hx) as (w' & Hw' & Htr & _).
  exists w'. now split.
Qed.

Lemma C6_stop_event_is_tested_before_duration_witness :
  for_chunks (Some 10) 0 [tie_chunk] (Returns tt) (enter_with world0) =
    (ForStopEvent, observe_stop (ce_stop tie_chunk) (enter_with world0)) /\
  exists s',
    for_chunks (Some 10) 0 [plain (chunk_of 3) 20] (Returns tt)
      (enter_with world0) = (ForDuration, s') /\
    st_appended s' = st_appended (enter_with world0) ++ ce_chunk (plain (chunk_of 3) 20) /\
    recording_loop "Stream-1-alice" "7" "http://cdn/live.flv" (Some 10) 0
      [ended] (stop_recording_after ForDuration) s' = (LoopStopRecording, s').
Proof.
  split.
  - apply (C6_stop_event_is_tested_before_duration manual_one "posix"
             (recording []) alice_10s "Stream-1-alice" world0
             "http://cdn/live.flv" tt tt LoopNotLive (enter_with world0)
             (Some 10) 0%Q tie_chunk [] (Returns tt) (enter_with world0)
             "7" "http://cdn/live.flv" [ended]).
    reflexivity.
  - apply (C6_stop_event_is_tested_before_duration manual_one "posix"
             (recording []) alice_10s "Stream-1-alice" world0
             "http://cdn/live.flv" tt tt LoopNotLive (enter_with world0)
             (Some 10) 0%Q (plain (chunk_of 3) 20) [] (Returns tt)
             (enter_with world0) "7" "http://cdn/live.flv" [ended]).
    + reflexivity.
    + reflexivity.
    + left. vm_compute. reflexivity.
    + vm_compute. reflexivity.
Defined.

(** C6 (as stated) fails: ten seconds are allowed, a chunk arrives twenty
    seconds after the start while the stop event is set.  Both conditions hold
    in this pass, and the [for] statement is left by the cancellation branch
    of lines 242-244, not by the duration branch: the chunk is not
    appended. *)
Lemma C6_counterexample_cancellation_first :
  duration_reached (Some 10) (ce_now tie_chunk - 0)%Q = true /\
  ce_stop tie_chunk = true /\
  fst (for_chunks (Some 10) 0 [tie_chunk] (Returns tt) (enter_with world0)) =
    ForStopEvent /\
  fst (for_chunks (Some 10) 0 [tie_chunk] (Returns tt) (enter_with world0)) <>
    ForDuration /\
  st_appended
    (snd (for_chunks (Some 10) 0 [tie_chunk] (Returns tt) (enter_with world0))) = [] /\
  fst (start_recording manual_one "posix"
         (recording [streaming [tie_chunk]]) alice_10s "Stream-1-alice" world0) =
  fst (start_recording manual_one "posix"
         (recording [streaming [mkChunk true (chunk_of 3) (Returns tt) 1]])
         alice_10s "Stream-1-alice" world0) /\
  trace (snd (start_recording manual_one "posix"
         (recording [streaming [tie_chunk]]) alice_10s "Stream-1-alice" world0)) =
  trace (snd (start_recording manual_one "posix"
         (recording [streaming [mkChunk true (chunk_of 3) (Returns tt) 1]])
         alice_10s "Stream-1-alice" world0)).
Proof.
  split; [vm_compute; reflexivity|].
  split; [reflexivity|].
  split; [vm_compute; reflexivity|].
  split; [vm_compute; discriminate|].
  split; [vm_compute; reflexivity|].
  split; vm_compute; reflexivity.
Qed.

(** ** C7: the output path and its folder *)



(** The three shapes of the path: an output directory off Windows, none, and
    an output directory on Windows. *)
Lemma output_path_examples :
  output_path "posix" (alice_in (Some "out")) "2024.01.02_03-04-05" 1
    "Stream-1-alice" = "out/alice/TK_alice_2024.01.02_03-04-05_flv.mp4" /\
  output_path "posix" (alice_in None) "2024.01.02_03-04-05" 1 "Stream-1-alice" =
    "alice/TK_alice_2024.01.02_03-04-05_flv.mp4" /\
  output_path "nt" (alice_in (Some "out")) "2024.01.02_03-04-05" 1
    "Stream-1-alice" = "out\alice/TK_alice_2024.01.02_03-04-05_flv.mp4".
Proof. repeat split; vm_compute; reflexivity. Qed.

(** ** C8: manual mode and a target that is not live *)

(** C8.  In manual mode, when the liveness check reports the target not live,
    the worker raises [UserLiveException] ("User is not currently live"),
    which the first handler of [_record_stream] reports, and the thread ends
    at once: the only calls made are the liveness check and the two log
    lines, and neither a folder nor a file is created.  More generally a file
    is opened only after the liveness check and the retrieval of the live URL
    have succeeded. *)
Theorem C8_manual_not_live_fails_without_file :
  forall self os_name ts r thread_name w ms,
    (mode self = MANUAL ->
     stop_event w = false ->
     ts_recorder ts = Returns r ->
     ms_stop (ts_manual ts) = false ->
     ms_alive (ts_manual ts) = Returns false ->
     record_stream self os_name ts thread_name w =
     (UserLiveReported (not_live_message thread_name (r_user r)),
      mkWorld false (dirs w) (disk w)
        (trace w ++
         [ELog INFO ("[" +:+ thread_name +:+ "] Initializing recorder...");
          EIsRoomAlive (r_room_id r);
          ELog INFO ("[" +:+ thread_name +:+ "] " +:+
                     not_live_message thread_name (r_user r))]))) /\
    (opens (trace w) = false ->
     opens (trace (snd (manual_mode self os_name ms r thread_name w))) = true ->
     ms_alive ms = Returns true /\
     exists url, rs_live_url (ms_rec ms) = Returns (Some url) /\ url <> "").
Proof.
  intros. split; [|apply manual_mode_opens].
  intros Hmode Hw Hr Hs Ha.
  unfold record_stream, run_recorder. rewrite Hr, Hmode.
  rewrite manual_mode_not_live by assumption.
  destruct w as [ev d f tr]. cbn in Hw. subst ev.
  unfold logger, call. cbn. now rewrite <- !app_assoc.
Qed.

Lemma C8_manual_not_live_fails_without_file_witness :
  record_stream manual_one "posix" task_not_live "Stream-1-alice" world0 =
  (UserLiveReported (not_live_message "Stream-1-alice" (r_user alice)),
   mkWorld false ∅ ∅
     ([] ++
      [ELog INFO ("[" +:+ "Stream-1-alice" +:+ "] Initializing recorder...");
       EIsRoomAlive (r_room_id alice);
       ELog INFO ("[" +:+ "Stream-1-alice" +:+ "] " +:+
                  not_live_message "Stream-1-alice" (r_user alice))])).
Proof.
  apply (C8_manual_not_live_fails_without_file manual_one "posix"
           task_not_live alice "Stream-1-alice" world0
           (mkManual false (Returns false) no_url)); reflexivity.
Defined.

(** ** C9: the orchestrator *)




(** ** C10: which list of targets [main] keeps *)

(** C10.  [main] starts the multi-stream recorder as soon as one of the three
    lists is non-empty, and the targets are those of the first non-empty list
    in the order URLs, usernames, room ids: what the later lists hold changes
    nothing. *)
Theorem C10_first_nonempty_list_wins :
  forall args args',
    (nonempty (a_urls args) = true ->
     main_launch args =
       MultiStream (map (fun url => (Some url, None, None))
                        (default [] (a_urls args))) /\
     (a_urls args' = a_urls args ->
      select_targets args' = select_targets args)) /\
    (nonempty (a_urls args) = false ->
     nonempty (a_users args) = true ->
     main_launch args =
       MultiStream (map (fun user => (None, Some user, None))
                        (default [] (a_users args))) /\
     (nonempty (a_urls args') = false ->
      a_users args' = a_users args ->
      select_targets args' = select_targets args)) /\
    (nonempty (a_urls args) = false ->
     nonempty (a_users args) = false ->
     nonempty (a_room_ids args) = true ->
     main_launch args =
       MultiStream (map (fun room_id => (None, None, Some room_id))
                        (default [] (a_room_ids args)))) /\
    (nonempty (a_urls args) = false ->
     nonempty (a_users args) = false ->
     nonempty (a_room_ids args) = false ->
     main_launch args = SingleStream (a_url args, a_user args, a_room_id args)).
Proof.
  intros args args'. unfold main_launch, select_targets.
  split; [|split; [|split]].
  - intros Hu. rewrite Hu. split; [reflexivity|].
    intros ->. now rewrite Hu.
  - intros Hu Hs. rewrite Hu, Hs. split; [reflexivity|].
    intros Hu' ->. now rewrite Hu', Hs.
  - intros Hu Hs Hr. now rewrite Hu, Hs, Hr.
  - intros Hu Hs Hr. now rewrite Hu, Hs, Hr.
Qed.

Lemma C10_first_nonempty_list_wins_witness :
  main_launch args_all_kinds =
    MultiStream (map (fun url => (Some url, None, None))
                     (default [] (a_urls args_all_kinds))) /\
  main_launch args_users_and_rooms =
    MultiStream (map (fun user => (None, Some user, None))
                     (default [] (a_users args_users_and_rooms))).
Proof.
  split.
  - apply (C10_first_nonempty_list_wins args_all_kinds args_all_kinds).
    reflexivity.
  - apply (C10_first_nonempty_list_wins args_users_and_rooms
             args_users_and_rooms); reflexivity.
Defined.

(* ===================================================================== *)
(** * Further properties of the code *)
(* ===================================================================== *)

(** ** The stream writer: order, threshold, payloads *)

Lemma recording_loop_nothing_lost thread_name room_id live_url duration0
    start_time cycles :
  clean_cycles cycles ->
  clean_finals cycles ->
  forall stop_recording s,
    nothing_lost s ->
    nothing_lost (snd (recording_loop thread_name room_id live_url duration0
                         start_time cycles stop_recording s)).
Proof.
  induction cycles as [|cy rest IH]; intros Hc Hf b s Hs.
  - now destruct b.
  - destruct b; [exact Hs|]. rewrite recording_loop_cons. cbn zeta.
    destruct (st_stop_event (observe_stop (cy_stop cy) s)); [exact Hs|].
    destruct (try_suite _ _ _ _ _ _ _) as [t s1] eqn:Et.
    assert (H1 : nothing_lost (except_clause thread_name t s1)).
    { apply except_clause_nothing_lost.
      change s1 with (snd (t, s1)). rewrite <- Et.
      apply try_suite_nothing_lost; [exact (Forall_inv Hc)|].
      auto with writer. }
    pose proof (finally_clause_settles cy _ H1) as Hfin.
    destruct (finally_clause cy _) as [[[]|e] s2].
    + destruct Hfin as [Hfin _]. destruct t as [|f].
      * cbn. auto with writer.
      * apply IH; [exact (Forall_inv_tail Hc)|exact (Forall_inv_tail Hf)|].
        auto with writer.
    + cbn. apply Hfin. exact (Forall_inv Hf).
Qed.

Lemma file_durable_prefix (f : File) :
  exists rest, file_content f = file_durable f ++ rest.
Proof.
  unfold file_content, file_durable.
  exists (concat (drop (f_flushed f) (f_writes f))).
  now rewrite <- concat_app, take_drop.
Qed.

(** X1.  At every exit of the streaming loop, the one through a failing
    [finally] clause included, and between any two passes, the bytes appended
    so far are, in order, among the bytes that reached the file followed by
    the bytes still in the buffer: whatever the sink does, no appended byte
    is dropped or out of place, and only what a failing [write] had put in
    the file before it raised can come in addition.  When every failing
    [write] has written nothing, file and buffer hold exactly the appended
    bytes.  What has been flushed is the beginning of what reached the
    file. *)
Theorem X1_no_appended_byte_is_dropped :
  forall thread_name room_id live_url duration0 start_time cycles w,
    let s' := snd (recording_loop thread_name room_id live_url duration0
                     start_time cycles false (enter_with w)) in
    sublist (st_appended s') (file_content (st_file s') ++ st_buffer s') /\
    (clean_cycles cycles -> clean_finals cycles ->
     file_content (st_file s') ++ st_buffer s' = st_appended s') /\
    exists rest, file_content (st_file s') = file_durable (st_file s') ++ rest.
Proof.
  intros. subst s'. split; [|split].
  - apply recording_loop_nothing_dropped. apply sublist_nil_l.
  - intros Hc Hf.
    apply (recording_loop_nothing_lost thread_name room_id live_url duration0
             start_time cycles Hc Hf false (enter_with w)
             (settled_nothing_lost _ (enter_with_settled w))).
  - apply file_durable_prefix.
Qed.

(** What the [for] statement writes: payloads of at least the threshold. *)
Lemma for_chunks_writes duration0 start_time chunks gen_end :
  forall s,
  (forall e,
     fst (for_chunks duration0 start_time chunks gen_end s) <> ForRaised e) ->
  exists new,
    f_writes (st_file (snd (for_chunks duration0 start_time chunks gen_end s))) =
      f_writes (st_file s) ++ new /\
    Forall (fun d : bytes => buffer_size <= Z.of_nat (length d)) new.
Proof.
  induction chunks as [|c rest IH]; intros s; cbn [for_chunks].
  - intros _. exists []. destruct gen_end; cbn; now rewrite app_nil_r.
  - destruct (st_stop_event (observe_stop (ce_stop c) s)).
    { intros _. exists []. cbn. now rewrite app_nil_r. }
    destruct (Z.leb_spec buffer_size
                (Z.of_nat (length (st_buffer
                   (extend (ce_chunk c) (observe_stop (ce_stop c) s)))))).
    + destruct (ce_write c).
      * destruct (duration_reached _ _).
        -- intros _. eexists [_]. cbn. split; [reflexivity|]. now constructor.
        -- intros Hx.
           destruct (IH (write_and_clear
                           (extend (ce_chunk c) (observe_stop (ce_stop c) s)))
                        Hx)
             as (new & Hnew & Hall).
           eexists (_ :: new). rewrite Hnew. cbn.
           rewrite <- app_assoc. split; [reflexivity|]. now constructor.
      * intros Hx. now elim (Hx e).
    + destruct (duration_reached _ _).
      * intros _. exists []. cbn. now rewrite app_nil_r.
      * intros Hx.
        destruct (IH (extend (ce_chunk c) (observe_stop (ce_stop c) s)) Hx)
          as (new & Hnew & Hall).
        exists new. now rewrite Hnew.
Qed.

Lemma write_partial_payload (n : nat) (s : RecState) :
  Forall (fun d : bytes => d <> []) (f_writes (st_file s)) ->
  Forall (fun d : bytes => d <> []) (f_writes (st_file (write_partial n s))).
Proof.
  intros Hs. unfold write_partial.
  destruct (take n (st_buffer s)) as [|b part]; [exact Hs|].
  cbn [st_file file_write f_writes]. apply Forall_app. split; [exact Hs|].
  constructor; [discriminate|constructor].
Qed.

(** What reaches the file in the [for] statement is never empty. *)
Lemma for_chunks_payloads duration0 start_time chunks gen_end :
  forall s,
    Forall (fun d : bytes => d <> []) (f_writes (st_file s)) ->
    Forall (fun d : bytes => d <> [])
      (f_writes (st_file (snd (for_chunks duration0 start_time chunks gen_end
                                 s)))).
Proof.
  induction chunks as [|c rest IH]; intros s Hs; cbn [for_chunks].
  - now destruct gen_end.
  - destruct (st_stop_event (observe_stop (ce_stop c) s)); [exact Hs|].
    destruct (Z.leb_spec buffer_size
                (Z.of_nat (length (st_buffer
                   (extend (ce_chunk c) (observe_stop (ce_stop c) s)))))).
    + assert (Hw : Forall (fun d : bytes => d <> [])
                     (f_writes (st_file (write_and_clear
                        (extend (ce_chunk c) (observe_stop (ce_stop c) s)))))).
      { cbn [write_and_clear st_file file_write f_writes].
        apply Forall_app. split; [exact Hs|].
        constructor; [|constructor].
        intros Hnil. rewrite Hnil in H. cbn in H. unfold buffer_size in H. lia. }
      destruct (ce_write c).
      * destruct (duration_reached _ _); [exact Hw|now apply IH].
      * cbn [snd]. now apply write_partial_payload.
    + destruct (duration_reached _ _); [exact Hs|now apply IH].
Qed.

Lemma for_chunks_buffer_bound duration0 start_time chunks gen_end :
  forall s x s',
    Z.of_nat (length (st_buffer s)) < buffer_size ->
    for_chunks duration0 start_time chunks gen_end s = (x, s') ->
    (forall e, x <> ForRaised e) ->
    Z.of_nat (length (st_buffer s')) < buffer_size.
Proof.
  induction chunks as [|c rest IH]; intros s x s' Hs H Hx; cbn [for_chunks] in H.
  - destruct gen_end; inversion H; subst; [exact Hs|now elim (Hx e)].
  - destruct (st_stop_event (observe_stop (ce_stop c) s)).
    { inversion H; subst. exact Hs. }
    destruct (Z.leb_spec buffer_size
                (Z.of_nat (length (st_buffer
                   (extend (ce_chunk c) (observe_stop (ce_stop c) s)))))).
    + destruct (ce_write c); [|inversion H; subst; now elim (Hx e)].
      destruct (duration_reached _ _).
      * inversion H; subst. cbn. unfold buffer_size. lia.
      * eapply IH; [|exact H|exact Hx]. cbn. unfold buffer_size. lia.
    + destruct (duration_reached _ _).
      * inversion H; subst. assumption.
      * eapply IH; [|exact H|exact Hx]. assumption.
Qed.

(** X2.  Every payload that the [for] statement hands to [write] holds at
    least 512 KiB, and when the statement is entered with less than 512 KiB in
    the buffer and left otherwise than by an exception, less than 512 KiB are
    left in the buffer. *)
Theorem X2_buffer_stays_below_the_threshold :
  forall duration0 start_time chunks gen_end s,
    Z.of_nat (length (st_buffer s)) < buffer_size ->
    (forall e,
       fst (for_chunks duration0 start_time chunks gen_end s) <> ForRaised e) ->
    (exists new,
       f_writes (st_file (snd (for_chunks duration0 start_time chunks gen_end s)))
         = f_writes (st_file s) ++ new /\
       Forall (fun d : bytes => buffer_size <= Z.of_nat (length d)) new) /\
    Z.of_nat (length (st_buffer
                        (snd (for_chunks duration0 start_time chunks gen_end s))))
      < buffer_size.
Proof.
  intros * Hs Hx. split.
  - now apply for_chunks_writes.
  - destruct (for_chunks duration0 start_time chunks gen_end s) as [x s'] eqn:E.
    eapply for_chunks_buffer_bound; eauto.
Qed.

Lemma X2_buffer_stays_below_the_threshold_witness :
  let r := for_chunks None 0
             [plain (chunk_of (300 * 1024)) 1; plain (chunk_of (300 * 1024)) 2;
              plain (chunk_of 7) 3] (Returns tt) (enter_with world0) in
  (exists new,
     f_writes (st_file (snd r)) = f_writes (st_file (enter_with world0)) ++ new /\
     Forall (fun d : bytes => buffer_size <= Z.of_nat (length d)) new) /\
  Z.of_nat (length (st_buffer (snd r))) < buffer_size.
Proof.
  apply (X2_buffer_stays_below_the_threshold None 0
           [plain (chunk_of (300 * 1024)) 1; plain (chunk_of (300 * 1024)) 2;
            plain (chunk_of 7) 3] (Returns tt) (enter_with world0)).
  - vm_compute; reflexivity.
  - intros e. vm_compute. discriminate.
Defined.

Lemma recording_loop_writes thread_name room_id live_url duration0 start_time
    cycles :
  forall stop_recording s,
    Forall (fun d : bytes => d <> []) (f_writes (st_file s)) ->
    Forall (fun d : bytes => d <> [])
      (f_writes (st_file (snd (recording_loop thread_name room_id live_url
                                 duration0 start_time cycles stop_recording s)))).
Proof.
  induction cycles as [|cy rest IH]; intros b s Hs.
  - now destruct b.
  - destruct b; [exact Hs|]. rewrite recording_loop_cons. cbn zeta.
    destruct (st_stop_event (observe_stop (cy_stop cy) s)); [exact Hs|].
    destruct (try_suite _ _ _ _ _ _ _) as [t s1] eqn:Et.
    assert (H1 : Forall (fun d : bytes => d <> [])
                   (f_writes (st_file (except_clause thread_name t s1)))).
    { assert (H0 : Forall (fun d : bytes => d <> []) (f_writes (st_file s1))).
      { unfold try_suite in Et. destruct (cy_alive cy) as [[|]|e].
        - destruct (for_chunks _ _ _ _ _) as [y s2] eqn:Ef.
          inversion Et; subst.
          match type of Ef with for_chunks ?a ?b ?c ?d ?s0 = _ =>
            pose proof (for_chunks_payloads a b c d s0 Hs) as Hall
          end.
          now rewrite Ef in Hall.
        - inversion Et; subst. exact Hs.
        - inversion Et; subst. exact Hs. }
      destruct t as [|[]]; exact H0. }
    set (s2 := except_clause thread_name t s1) in *.
    assert (H2 : Forall (fun d : bytes => d <> [])
                   (f_writes (st_file (snd (finally_clause cy s2))))).
    { unfold finally_clause. destruct (st_buffer s2) as [|b0 bs] eqn:Eb.
      - destruct (cy_flush cy); exact H1.
      - destruct (cy_final_write cy);
          [|cbn [snd]; now apply write_partial_payload].
        destruct (cy_flush cy); cbn; rewrite Eb;
          (apply Forall_app; split; [exact H1|]);
          constructor; [discriminate|constructor|discriminate|constructor]. }
    destruct (finally_clause cy s2) as [[[]|e] s3]; cbn [snd] in H2.
    + destruct t as [|f]; [exact H2|]. now apply IH.
    + exact H2.
Qed.

(** X3.  The file never receives an empty write: the payloads written inside
    the [for] statement hold at least 512 KiB and the [finally] clause writes
    only a buffer that is not empty. *)
Theorem X3_no_empty_write :
  forall thread_name room_id live_url duration0 start_time cycles w,
    Forall (fun d : bytes => d <> [])
      (f_writes (st_file (snd (recording_loop thread_name room_id live_url
                                 duration0 start_time cycles false
                                 (enter_with w))))).
Proof.
  intros. apply recording_loop_writes. constructor.
Qed.

Lemma for_chunks_no_duration start_time chunks gen_end duration0 :
  (forall e, duration_reached duration0 e = false) ->
  forall s, fst (for_chunks duration0 start_time chunks gen_end s) <> ForDuration.
Proof.
  intros Hd. induction chunks as [|c rest IH]; intros s; cbn [for_chunks].
  - now destruct gen_end.
  - destruct (st_stop_event _); [discriminate|].
    destruct (buffer_size <=? _).
    + destruct (ce_write c); [|discriminate]. rewrite Hd. apply IH.
    + rewrite Hd. apply IH.
Qed.

Lemma try_suite_trace thread_name room_id live_url duration0 start_time cy s :
  exists tr,
    st_trace (snd (try_suite thread_name room_id live_url duration0 start_time
                     cy s)) = st_trace s ++ tr /\
    forallb is_loop_event tr = true.
Proof.
  unfold try_suite. destruct (cy_alive cy) as [[|]|e].
  - destruct (for_chunks _ _ _ _ _) as [x s1] eqn:E. cbn [snd].
    change s1 with (snd (x, s1)). rewrite <- E, for_chunks_trace. cbn.
    rewrite <- app_assoc. eexists. split; [reflexivity|reflexivity].
  - cbn. rewrite <- app_assoc. eexists. split; [reflexivity|reflexivity].
  - cbn. eexists. split; [reflexivity|reflexivity].
Qed.

Lemma except_clause_trace thread_name x s :
  exists tr,
    st_trace (except_clause thread_name x s) = st_trace s ++ tr /\
    forallb is_loop_event tr = true.
Proof.
  destruct x as [|[]]; cbn;
    try (exists []; split; [now rewrite app_nil_r|reflexivity]).
  eexists. split; reflexivity.
Qed.

(** The calls of the streaming loop are liveness checks, downloads and log
    lines, added at the end of the trace. *)
Lemma recording_loop_events thread_name room_id live_url duration0 start_time
    cycles :
  forall stop_recording s,
  exists tr,
    st_trace (snd (recording_loop thread_name room_id live_url duration0
                     start_time cycles stop_recording s)) = st_trace s ++ tr /\
    forallb is_loop_event tr = true.
Proof.
  induction cycles as [|cy rest IH]; intros b s.
  - exists []. destruct b; cbn; now rewrite app_nil_r.
  - destruct b; [exists []; cbn; now rewrite app_nil_r|].
    rewrite recording_loop_cons. cbn zeta.
    destruct (st_stop_event (observe_stop (cy_stop cy) s)).
    { exists []. cbn. now rewrite app_nil_r. }
    destruct (try_suite_trace thread_name room_id live_url duration0 start_time
                cy (observe_stop (cy_stop cy) s)) as (tr1 & H1 & F1).
    destruct (try_suite _ _ _ _ _ _ _) as [t s1]. cbn [snd] in H1.
    destruct (except_clause_trace thread_name t s1) as (tr2 & H2 & F2).
    pose proof (finally_clause_trace cy (except_clause thread_name t s1)) as H3.
    destruct (finally_clause cy _) as [[[]|e] s3]; cbn [snd] in H3.
    + destruct t as [|y].
      * exists (tr1 ++ tr2). cbn [snd]. rewrite H3, H2, H1, app_assoc.
        split; [reflexivity|]. rewrite forallb_app, F1, F2. reflexivity.
      * destruct (IH (stop_recording_after y) s3) as (tr3 & H4 & F3).
        exists (tr1 ++ tr2 ++ tr3). rewrite H4, H3, H2, H1.
        rewrite !app_assoc. split; [reflexivity|].
        rewrite !forallb_app, F1, F2, F3. reflexivity.
    + exists (tr1 ++ tr2). cbn [snd]. rewrite H3, H2, H1, app_assoc.
      split; [reflexivity|]. rewrite forallb_app, F1, F2. reflexivity.
Qed.

Lemma try_suite_for thread_name room_id live_url duration0 start_time cy s y s1 :
  try_suite thread_name room_id live_url duration0 start_time cy s =
    (TryFor y, s1) ->
  (exists e, cy_alive cy = Raises e /\ y = ForRaised e) \/
  for_chunks duration0 start_time (cy_chunks cy) (cy_end cy)
    (emit (EDownload live_url) (emit (EIsRoomAlive room_id) s)) = (y, s1).
Proof.
  unfold try_suite. destruct (cy_alive cy) as [[|]|e]; intros H.
  - destruct (for_chunks _ _ _ _ _) as [x s2]. inversion H; subst. now right.
  - discriminate.
  - inversion H; subst. left. now exists e.
Qed.

(** Without a duration limit, [stop_recording] only becomes true through the
    stop event or an error. *)
Lemma recording_loop_unlimited thread_name room_id live_url duration0
    start_time cycles :
  (forall elapsed, duration_reached duration0 elapsed = false) ->
  forall s s',
    recording_loop thread_name room_id live_url duration0 start_time cycles
      false s = (LoopStopRecording, s') ->
    st_stop_event s' = true \/
    exists e tr,
      st_trace s' = st_trace s ++ tr /\
      In (ELog ERROR ("[" +:+ thread_name +:+ "] Recording error: "
                      +:+ str_of_exn e)) tr.
Proof.
  intros Hd. induction cycles as [|cy rest IH]; intros s s' H.
  - discriminate.
  - rewrite recording_loop_cons in H. cbn zeta in H.
    destruct (st_stop_event (observe_stop (cy_stop cy) s)); [discriminate|].
    destruct (try_suite_trace thread_name room_id live_url duration0 start_time
                cy (observe_stop (cy_stop cy) s)) as (tr1 & H1 & _).
    destruct (try_suite _ _ _ _ _ _ _) as [t s1] eqn:Et. cbn [snd] in H1.
    change (st_trace (observe_stop (cy_stop cy) s)) with (st_trace s) in H1.
    pose proof (finally_clause_trace cy (except_clause thread_name t s1)) as H3.
    pose proof (finally_clause_appended cy (except_clause thread_name t s1))
      as [_ H3'].
    destruct (finally_clause cy _) as [[[]|e] s3]; [|discriminate].
    cbn [snd] in H3, H3'.
    destruct t as [|y]; [discriminate|].
    assert (Hend : forall b, b = true ->
              recording_loop thread_name room_id live_url duration0 start_time
                rest b s3 = (LoopStopRecording, s3)).
    { intros b ->. now destruct rest. }
    destruct y as [| | |e].
    + cbn [stop_recording_after] in H. apply IH in H.
      destruct H as [H|(e & tr & Htr & Hin)]; [now left|].
      right. exists e, (tr1 ++ tr). split.
      * rewrite Htr, H3. cbn [except_clause]. now rewrite H1, app_assoc.
      * apply in_or_app. now right.
    + rewrite Hend in H by reflexivity. inversion H; subst s'. left.
      rewrite H3'.
      destruct (except_clause_appended thread_name (TryFor ForStopEvent) s1)
        as (_ & _ & ->).
      apply try_suite_for in Et. destruct Et as [(e & _ & He)|Ef];
        [discriminate|].
      now apply for_chunks_left_by_stop in Ef.
    + apply try_suite_for in Et. destruct Et as [(e & _ & He)|Ef];
        [discriminate|].
      exfalso.
      apply (for_chunks_no_duration start_time (cy_chunks cy) (cy_end cy)
               duration0 Hd
               (emit (EDownload live_url)
                  (emit (EIsRoomAlive room_id) (observe_stop (cy_stop cy) s)))).
      now rewrite Ef.
    + rewrite Hend in H by reflexivity. inversion H; subst s'. right.
      exists e. eexists. split.
      * rewrite H3. cbn [except_clause emit st_trace]. rewrite H1.
        rewrite <- app_assoc. reflexivity.
      * apply in_or_app. right. now left.
Qed.

(** X4.  A duration of [None] or of [0] is no limit: whatever the clock says,
    the [for] statement is never left by the duration branch, and when the
    loop ends with [stop_recording] true, the stop event is set or a
    recording error has been logged. *)
Theorem X4_zero_duration_is_no_limit :
  forall duration0 start_time thread_name room_id live_url,
    duration0 = None \/ duration0 = Some 0 ->
    (forall chunks gen_end s,
       fst (for_chunks duration0 start_time chunks gen_end s) <> ForDuration) /\
    (forall cycles w s',
       recording_loop thread_name room_id live_url duration0 start_time cycles
         false (enter_with w) = (LoopStopRecording, s') ->
       st_stop_event s' = true \/
       exists e tr,
         st_trace s' = trace w ++ tr /\
         In (ELog ERROR ("[" +:+ thread_name +:+ "] Recording error: "
                         +:+ str_of_exn e)) tr).
Proof.
  intros * Hd.
  assert (H0 : forall elapsed, duration_reached duration0 elapsed = false).
  { intros elapsed. destruct Hd as [-> | ->]; reflexivity. }
  split.
  - intros. now apply for_chunks_no_duration.
  - intros cycles w s' H.
    apply (recording_loop_unlimited _ _ _ _ _ _ H0) in H. exact H.
Qed.

Lemma X4_zero_duration_is_no_limit_witness :
  fst (for_chunks (Some 0) 0 [plain (chunk_of 3) 20] (Returns tt)
         (enter_with world0)) <> ForDuration.
Proof.
  apply (proj1 (X4_zero_duration_is_no_limit (Some 0) 0 "Stream-1-alice" "7"
                  "http://cdn/live.flv" (or_intror eq_refl))).
Defined.

(** ** Post-processing *)

Lemma post_process_failed convert upload cf uf r thread_name out w e :
  convert = Raises e \/
  ((exists u, convert = Returns u) /\ r_use_telegram r = true /\
   upload = Raises e) ->
  last (trace (post_process convert upload cf uf r thread_name out w)) =
  Some (ELog ERROR ("[" +:+ thread_name +:+ "] Post-processing error: "
                    +:+ str_of_exn e)).
Proof.
  unfold post_process, logger, call, affect.
  intros [->|((u & ->) & -> & ->)]; cbn [trace]; apply last_snoc.
Qed.

(** X5.  What the conversion and the upload return, raise or do to the files
    has no influence on how the attempt ends, nor on the stop event: with any
    other hooks the attempt ends in the same way.  In particular it returns
    normally when a hook raises: the exception is only logged, as a
    post-processing error, and that is the last thing the attempt does. *)
Theorem X5_post_processing_cannot_fail_a_recording :
  forall self os_name rs r thread_name w convert upload convert_fs upload_fs,
    let a := start_recording self os_name rs r thread_name w in
    let b := start_recording self os_name
               (with_post convert upload convert_fs upload_fs rs) r
               thread_name w in
    fst b = fst a /\
    stop_event (snd b) = stop_event (snd a) /\
    (fst b = Done tt ->
     forall e,
       convert = Raises e \/
       ((exists u, convert = Returns u) /\ r_use_telegram r = true /\
        upload = Raises e) ->
       last (trace (snd b)) =
       Some (ELog ERROR ("[" +:+ thread_name +:+ "] Post-processing error: "
                         +:+ str_of_exn e))).
Proof.
  intros. subst a b. unfold start_recording.
  cbn [with_post rs_live_url rs_localtime rs_makedirs rs_open rs_start_time
       rs_cycles rs_convert rs_upload rs_convert_fs rs_upload_fs].
  destruct (rs_live_url rs) as [url|e];
    [|split; [reflexivity|split; [reflexivity|discriminate]]].
  destruct (negb (truthy url));
    [split; [reflexivity|split; [reflexivity|discriminate]]|].
  destruct (rs_makedirs rs);
    [|split; [reflexivity|split; [reflexivity|discriminate]]].
  destruct (rs_open rs);
    [|split; [reflexivity|split; [reflexivity|discriminate]]].
  destruct (recording_loop _ _ _ _ _ _ _ _) as [x s].
  destruct x; cbn [fst snd];
    (split; [reflexivity|]);
    rewrite ?post_process_stop_event;
    (split; [reflexivity|]);
    try discriminate;
    intros _ e He; now apply post_process_failed.
Qed.

Lemma replace_from_free old new p tail :
  free_of old p tail = true ->
  replace_from old new 0 (p +:+ tail) = p +:+ replace_from old new 0 tail.
Proof.
  induction p as [|a p IH]; intros H; [reflexivity|].
  cbn [free_of] in H. apply andb_true_iff in H as [H1 H2].
  apply negb_true_iff in H1.
  change (String a p +:+ tail) with (String a (p +:+ tail)) in *.
  cbn [replace_from]. rewrite H1. now rewrite IH.
Qed.

Lemma output_path_stem os_name r current_date n_targets thread_name :
  output_path os_name r current_date n_targets thread_name =
  output_stem os_name r current_date n_targets thread_name +:+ "_flv.mp4".
Proof.
  rewrite output_path_shape. unfold output_stem.
  now rewrite !append_assoc.
Qed.

(** X6.  The conversion is asked for the recorded file and for nothing else;
    the upload is attempted exactly when Telegram is enabled and the
    conversion returned, and, provided [_flv.mp4] occurs nowhere in the
    output path before its end, it is given the output path with its ending
    [_flv.mp4] replaced by [.mp4]. *)
Theorem X6_upload_gets_the_converted_file :
  forall convert upload os_name r current_date n_targets thread_name,
    let out := output_path os_name r current_date n_targets thread_name in
    let stem := output_stem os_name r current_date n_targets thread_name in
    free_of "_flv.mp4" stem "_flv.mp4" = true ->
    (forall q,
       In (EConvert q) (post_events convert upload r thread_name out) <->
       q = out) /\
    (forall q,
       In (EUpload q) (post_events convert upload r thread_name out) <->
       r_use_telegram r = true /\ (exists u, convert = Returns u) /\
       q = stem +:+ ".mp4").
Proof.
  intros * Hfree.
  assert (Hrep : str_replace "_flv.mp4" ".mp4" out = stem +:+ ".mp4").
  { subst out stem. rewrite output_path_stem. unfold str_replace.
    now rewrite replace_from_free. }
  unfold post_events, post_process, logger, call, affect. rewrite Hrep.
  generalize dependent out. intros out _. clear Hfree.
  destruct convert as [[]|e], (r_use_telegram r), upload as [[]|e'];
    cbn [trace app]; split; intros q; split; cbn [In]; intros H;
    repeat match goal with
      | H : _ \/ _ |- _ => destruct H
      | H : _ /\ _ |- _ => destruct H
      | H : exists _, _ |- _ => destruct H
      | H : False |- _ => destruct H
      | H : _ = _ |- _ => discriminate H
      | H : EConvert _ = EConvert _ |- _ => inversion H; clear H
      | H : EUpload _ = EUpload _ |- _ => inversion H; clear H
      end;
    subst; eauto 6.
Qed.

Lemma X6_upload_gets_the_converted_file_witness :
  In (EUpload "out/alice/TK_alice_2024.01.02_03-04-05_Stream-1-alice.mp4")
     (post_events (Returns tt) (Returns tt)
        (mkRecorder "alice" "7" (Some "out") None true) "Stream-1-alice"
        (output_path "posix" (mkRecorder "alice" "7" (Some "out") None true)
           "2024.01.02_03-04-05" 2 "Stream-1-alice")).
Proof.
  apply (proj2 (X6_upload_gets_the_converted_file (Returns tt) (Returns tt)
                  "posix" (mkRecorder "alice" "7" (Some "out") None true)
                  "2024.01.02_03-04-05" 2 "Stream-1-alice"
                  ltac:(vm_compute; reflexivity))).
  split; [reflexivity|]. split; [now exists tt|reflexivity].
Defined.

(** ** The calls a worker makes *)

Lemma calls_only_refl P w w' : trace w' = trace w -> calls_only P w w'.
Proof. intros H. exists []. rewrite H, app_nil_r. now split. Qed.

Lemma calls_only_trans P w1 w2 w3 :
  calls_only P w1 w2 -> calls_only P w2 w3 -> calls_only P w1 w3.
Proof.
  intros (tr1 & H1 & F1) (tr2 & H2 & F2). exists (tr1 ++ tr2).
  rewrite H2, H1, app_assoc. split; [reflexivity|].
  apply Forall_app. now split.
Qed.

Lemma calls_only_call P e w : P e -> calls_only P w (call e w).
Proof. intros H. exists [e]. split; [reflexivity|]. now constructor. Qed.

Lemma loop_event_own os_name r n thread_name e :
  is_loop_event e = true -> own_call os_name r n thread_name e.
Proof. destruct e; try discriminate; intros _; exact I. Qed.

Lemma post_process_calls os_name r n thread_name convert upload cf uf t w :
  calls_only (own_call os_name r n thread_name) w
    (post_process convert upload cf uf r thread_name
       (output_path os_name r (strftime t) n thread_name) w).
Proof.
  exists (post_events convert upload r thread_name
            (output_path os_name r (strftime t) n thread_name)).
  split; [apply post_process_trace|].
  unfold post_events, post_process, logger, call, affect.
  destruct convert; [destruct (r_use_telegram r); [destruct upload|]|];
    cbn [trace app]; repeat constructor; eexists; reflexivity.
Qed.

Lemma start_recording_calls self os_name rs r thread_name w :
  calls_only (own_call os_name r (length (targets self)) thread_name) w
    (snd (start_recording self os_name rs r thread_name w)).
Proof.
  set (P := own_call os_name r (length (targets self)) thread_name).
  unfold start_recording.
  set (w0 := call (EGetLiveUrl (r_room_id r)) w).
  assert (H0 : calls_only P w w0) by now apply calls_only_call.
  destruct (rs_live_url rs) as [url|e]; [|exact H0].
  destruct (negb (truthy url)); [exact H0|].
  set (folder := user_folder os_name r).
  set (w1 := call (EMakeDirs folder) w0).
  assert (H1 : calls_only P w w1).
  { eapply calls_only_trans; [exact H0|]. now apply calls_only_call. }
  destruct (rs_makedirs rs); [|exact H1].
  set (out := output_path os_name r (strftime (rs_localtime rs))
                (length (targets self)) thread_name).
  assert (Hout : exists t, out = output_path os_name r (strftime t)
                               (length (targets self)) thread_name)
    by now exists (rs_localtime rs).
  set (w2 := call (EOpen out)
               (logger INFO (started_message thread_name out)
                  (makedirs os_name folder w1))).
  assert (H2 : calls_only P w w2).
  { eapply calls_only_trans; [exact H1|].
    exists [ELog INFO (started_message thread_name out); EOpen out].
    split; [unfold w2, logger, call, makedirs; cbn [trace];
            now rewrite <- app_assoc|].
    constructor; [exact I|]. constructor; [exact Hout|constructor]. }
  destruct (rs_open rs); [|exact H2].
  destruct (recording_loop_events thread_name (r_room_id r) (default "" url)
              (r_duration r) (rs_start_time rs) (rs_cycles rs) false
              (enter_with (store out [] w2))) as (tr & Htr & Hev).
  destruct (recording_loop _ _ _ _ _ _ _ _) as [x s]. cbn [snd] in Htr.
  change (st_trace (enter_with (store out [] w2))) with (trace w2) in Htr.
  assert (H3 : forall data, calls_only P w (leave_with out data s (store out [] w2))).
  { intros data. eapply calls_only_trans; [exact H2|].
    exists tr. split; [exact Htr|].
    apply List.Forall_forall. intros ev Hin.
    apply loop_event_own. rewrite forallb_forall in Hev. now apply Hev. }
  assert (H4 : forall data,
            calls_only P w
              (call (EClose out) (leave_with out data s (store out [] w2)))).
  { intros data. eapply calls_only_trans; [apply H3|].
    now apply calls_only_call. }
  destruct x; cbn [snd]; try apply H3; try apply H4.
  all: eapply calls_only_trans;
    [eapply calls_only_trans; [apply (H4 (file_content (st_file s)))|];
     apply (calls_only_call P (ELog INFO (finished_message thread_name out)));
     exact I|].
  all: apply post_process_calls.
Qed.

Lemma manual_mode_calls self os_name ms r thread_name w :
  calls_only (own_call os_name r (length (targets self)) thread_name) w
    (snd (manual_mode self os_name ms r thread_name w)).
Proof.
  unfold manual_mode.
  destruct (stop_event (is_set (ms_stop ms) w)); [now apply calls_only_refl|].
  assert (H0 : calls_only
                 (own_call os_name r (length (targets self)) thread_name) w
                 (call (EIsRoomAlive (r_room_id r)) (is_set (ms_stop ms) w))).
  { exists [EIsRoomAlive (r_room_id r)]. split; [reflexivity|].
    now repeat constructor. }
  destruct (ms_alive ms) as [[|]|e]; try exact H0.
  eapply calls_only_trans; [exact H0|apply start_recording_calls].
Qed.

Lemma wait_interval_calls P set_before ticks :
  P (ESleep 1) ->
  forall i w, calls_only P w (snd (wait_interval ticks i set_before w)).
Proof.
  intros HP. induction ticks as [|ticks IH]; intros i w;
    [now apply calls_only_refl|].
  cbn [wait_interval].
  destruct (stop_event (is_set (set_before i) w)); [now apply calls_only_refl|].
  eapply calls_only_trans; [|apply IH].
  exists [ESleep 1]. split; [reflexivity|]. now repeat constructor.
Qed.

Lemma automatic_mode_calls self os_name cycles : forall r thread_name w,
  calls_only (own_call os_name r (length (targets self)) thread_name) w
    (snd (automatic_mode self os_name cycles r thread_name w)).
Proof.
  induction cycles as [|ac rest IH]; intros r thread_name w;
    [now apply calls_only_refl|].
  set (P := own_call os_name r (length (targets self)) thread_name).
  cbn [automatic_mode].
  destruct (stop_event (is_set (ac_stop ac) w)); [now apply calls_only_refl|].
  set (w1 := call (EGetRoomId (r_user r)) (is_set (ac_stop ac) w)).
  assert (H1 : calls_only P w w1).
  { exists [EGetRoomId (r_user r)]. split; [reflexivity|].
    now repeat constructor. }
  assert (Hlog : forall lv msg w0, calls_only P w w0 ->
                   calls_only P w (logger lv msg w0)).
  { intros lv msg w0 H. eapply calls_only_trans; [exact H|].
    now apply calls_only_call. }
  assert (Hwait : forall w0, calls_only P w w0 ->
            match wait_interval (Z.to_nat (automatic_interval self * 60)) 0
                    (ac_wait ac) w0 with
            | (_, w3) => calls_only P w w3
            end).
  { intros w0 H.
    pose proof (wait_interval_calls P (ac_wait ac)
                  (Z.to_nat (automatic_interval self * 60)) I 0%nat w0) as Hw.
    destruct (wait_interval _ _ _ _) as [y w3]. cbn [snd] in Hw.
    eapply calls_only_trans; eassumption. }
  destruct (ac_room_id ac) as [room_id|e].
  - pose proof (manual_mode_calls self os_name (ac_manual ac)
                  (set_room_id room_id r) thread_name w1) as H2.
    change (own_call os_name (set_room_id room_id r) (length (targets self))
              thread_name) with P in H2.
    destruct (manual_mode _ _ _ _ _ _) as [x w2]. cbn [snd] in H2.
    pose proof (calls_only_trans _ _ _ _ H1 H2) as H3.
    destruct x as [[]|e|].
    + eapply calls_only_trans; [exact H3|].
      pose proof (IH (set_room_id room_id r) thread_name w2) as H4.
      exact H4.
    + destruct e as [m|m|m]; try (cbn [snd]; now apply Hlog).
      pose proof (Hwait _ (Hlog INFO ("[" +:+ thread_name +:+ "] " +:+ m) _ H3))
        as H4.
      destruct (wait_interval _ _ _ _) as [[|] w3]; [exact H4|].
      eapply calls_only_trans; [exact H4|].
      exact (IH (set_room_id room_id r) thread_name w3).
    + exact H3.
  - destruct e as [m|m|m]; try (cbn [snd]; now apply Hlog).
    pose proof (Hwait _ (Hlog INFO ("[" +:+ thread_name +:+ "] " +:+ m) _ H1))
      as H4.
    destruct (wait_interval _ _ _ _) as [[|] w3]; [exact H4|].
    eapply calls_only_trans; [exact H4|apply IH].
Qed.

(** X7.  A worker asks the file system and the post-processing only for what
    is its own: in either mode and whatever fails, the only folder it asks
    [os.makedirs] for is the folder of its user, the only files it opens and
    closes are named as recordings of its user made under its thread name,
    and only such files are handed to the conversion and, under the name
    with [.mp4], to the upload.  When the recorder cannot be constructed, the
    worker only logs. *)
Theorem X7_worker_asks_only_for_its_own_files :
  forall self os_name ts thread_name w,
    let w' := snd (record_stream self os_name ts thread_name w) in
    match ts_recorder ts with
    | Returns r =>
        calls_only (own_call os_name r (length (targets self)) thread_name) w w'
    | Raises _ =>
        calls_only (fun e => exists lv msg, e = ELog lv msg) w w'
    end.
Proof.
  intros. subst w'. unfold record_stream.
  set (w0 := logger INFO _ w).
  destruct (ts_recorder ts) as [r|e].
  - set (P := own_call os_name r (length (targets self)) thread_name).
    assert (H0 : calls_only P w w0) by now apply calls_only_call.
    assert (H : calls_only P w
                  (snd (run_recorder self os_name ts r thread_name w0))).
    { unfold run_recorder. destruct (mode self).
      - eapply calls_only_trans; [exact H0|apply manual_mode_calls].
      - pose proof (automatic_mode_calls self os_name (ts_auto ts) r
                      thread_name w0) as H.
        destruct (automatic_mode _ _ _ _ _ _) as [[] w1]; cbn [snd] in *;
          (eapply calls_only_trans; [exact H0|exact H]). }
    destruct (run_recorder _ _ _ _ _ _) as [x w1]. cbn [snd] in H.
    destruct x as [[]|[m|m|m]|]; cbn [snd]; try exact H;
      (eapply calls_only_trans; [exact H|]); now apply calls_only_call.
  - destruct e; cbn [snd]; eexists [_; _];
      (split; [unfold w0, logger, call; cbn [trace];
               now rewrite <- app_assoc|]);
      repeat constructor; eauto.
Qed.

(** ** The stop event belongs to the main thread *)

Lemma for_chunks_quiet duration0 start_time chunks gen_end :
  quiet_chunks chunks ->
  forall s, st_stop_event s = false ->
    st_stop_event (snd (for_chunks duration0 start_time chunks gen_end s))
      = false.
Proof.
  induction 1 as [|c rest Hc _ IH]; intros s Hs; cbn [for_chunks].
  - now destruct gen_end.
  - rewrite Hc.
    assert (Hs' : st_stop_event (observe_stop false s) = false)
      by (cbn; now rewrite Hs).
    set (s0 := observe_stop false s) in *. rewrite Hs'.
    destruct (buffer_size <=? _).
    + destruct (ce_write c);
        [|cbn [snd]; now rewrite (proj1 (write_partial_keeps _ _))].
      destruct (duration_reached _ _); [exact Hs'|]. now apply IH.
    + destruct (duration_reached _ _); [exact Hs'|]. now apply IH.
Qed.

Lemma recording_loop_quiet thread_name room_id live_url duration0 start_time
    cycles :
  quiet_cycles cycles ->
  forall stop_recording s, st_stop_event s = false ->
    st_stop_event (snd (recording_loop thread_name room_id live_url duration0
                          start_time cycles stop_recording s)) = false.
Proof.
  induction 1 as [|cy rest [Hc Hq] _ IH]; intros b s Hs.
  - now destruct b.
  - destruct b; [exact Hs|]. rewrite recording_loop_cons. cbn zeta.
    rewrite Hc.
    assert (Hs' : st_stop_event (observe_stop false s) = false)
      by (cbn; now rewrite Hs).
    set (s0 := observe_stop false s) in *. rewrite Hs'.
    assert (H1 : st_stop_event
                   (snd (try_suite thread_name room_id live_url duration0
                           start_time cy s0)) = false).
    { unfold try_suite. destruct (cy_alive cy) as [[|]|e]; try exact Hs'.
      pose proof (for_chunks_quiet duration0 start_time (cy_chunks cy)
                    (cy_end cy) Hq
                    (emit (EDownload live_url) (emit (EIsRoomAlive room_id) s0))
                    Hs') as H.
      now destruct (for_chunks _ _ _ _ _). }
    destruct (try_suite _ _ _ _ _ _ _) as [t s1]. cbn [snd] in H1.
    destruct (except_clause_appended thread_name t s1) as (_ & _ & H2).
    destruct (finally_clause_appended cy (except_clause thread_name t s1))
      as [_ H3].
    rewrite H2, H1 in H3.
    destruct (finally_clause cy _) as [[[]|e] s3]; cbn [snd] in *;
      [|exact H3].
    destruct t; [exact H3|]. now apply IH.
Qed.

Lemma start_recording_quiet self os_name rs r thread_name w :
  quiet_cycles (rs_cycles rs) ->
  stop_event w = false ->
  stop_event (snd (start_recording self os_name rs r thread_name w)) = false.
Proof.
  intros Hq Hw. unfold start_recording.
  destruct (rs_live_url rs) as [url|e]; [|exact Hw].
  destruct (negb (truthy url)); [exact Hw|].
  destruct (rs_makedirs rs); [|exact Hw].
  destruct (rs_open rs); [|exact Hw].
  match goal with |- context [recording_loop ?a ?b ?c ?d ?e ?f ?g ?s] =>
    pose proof (recording_loop_quiet a b c d e f Hq g s Hw) as H
  end.
  destruct (recording_loop _ _ _ _ _ _ _ _) as [x s]. cbn [snd] in H.
  destruct x; cbn [snd]; try rewrite post_process_stop_event; exact H.
Qed.

Lemma manual_mode_quiet self os_name ms r thread_name w :
  quiet_manual ms ->
  stop_event w = false ->
  stop_event (snd (manual_mode self os_name ms r thread_name w)) = false.
Proof.
  intros [Hm Hq] Hw. unfold manual_mode. rewrite Hm, is_set_clear by exact Hw.
  rewrite Hw. destruct (ms_alive ms) as [[|]|e]; try exact Hw.
  now apply start_recording_quiet.
Qed.

Lemma wait_interval_quiet set_before ticks :
  (forall i, set_before i = false) ->
  forall i w, stop_event w = false ->
    stop_event (snd (wait_interval ticks i set_before w)) = false.
Proof.
  intros Hq. induction ticks as [|ticks IH]; intros i w Hw; [exact Hw|].
  cbn [wait_interval]. rewrite Hq, is_set_clear by exact Hw. rewrite Hw.
  now apply IH.
Qed.

Lemma automatic_mode_quiet self os_name cycles :
  quiet_auto cycles ->
  forall r thread_name w, stop_event w = false ->
    stop_event (snd (automatic_mode self os_name cycles r thread_name w))
      = false.
Proof.
  induction 1 as [|ac rest (Ha & Hm & Hwait) _ IH]; intros r thread_name w Hw;
    [exact Hw|].
  cbn [automatic_mode]. rewrite Ha, is_set_clear by exact Hw. rewrite Hw.
  set (w1 := call (EGetRoomId (r_user r)) w).
  destruct (ac_room_id ac) as [room_id|e].
  - pose proof (manual_mode_quiet self os_name (ac_manual ac)
                  (set_room_id room_id r) thread_name w1 Hm Hw) as H2.
    destruct (manual_mode _ _ _ _ _ _) as [x w2]. cbn [snd] in H2.
    destruct x as [[]|e|]; [now apply IH| |exact H2].
    destruct e as [m|m|m]; try exact H2.
    pose proof (wait_interval_quiet (ac_wait ac)
                  (Z.to_nat (automatic_interval self * 60)) Hwait 0%nat
                  (logger INFO ("[" +:+ thread_name +:+ "] " +:+ m) w2) H2)
      as H3.
    destruct (wait_interval _ _ _ _) as [[|] w3]; cbn [snd] in H3;
      [exact H3|now apply IH].
  - destruct e as [m|m|m]; try exact Hw.
    pose proof (wait_interval_quiet (ac_wait ac)
                  (Z.to_nat (automatic_interval self * 60)) Hwait 0%nat
                  (logger INFO ("[" +:+ thread_name +:+ "] " +:+ m) w1) Hw)
      as H3.
    destruct (wait_interval _ _ _ _) as [[|] w3]; cbn [snd] in H3;
      [exact H3|now apply IH].
Qed.

(** X8.  A worker never sets the stop event: as long as the main thread does
    not set it, the event is still clear when the worker ends, in either
    mode and whatever fails on the way. *)
Theorem X8_worker_never_sets_the_stop_event :
  forall self os_name ts thread_name w,
    quiet_task ts ->
    stop_event w = false ->
    stop_event (snd (record_stream self os_name ts thread_name w)) = false.
Proof.
  intros * [Hm Ha] Hw. unfold record_stream.
  set (w0 := logger INFO _ w).
  assert (H0 : stop_event w0 = false) by exact Hw.
  destruct (ts_recorder ts) as [r|e].
  - assert (H : stop_event
                  (snd (run_recorder self os_name ts r thread_name w0)) = false).
    { unfold run_recorder. destruct (mode self).
      - now apply manual_mode_quiet.
      - pose proof (automatic_mode_quiet self os_name (ts_auto ts) Ha r
                      thread_name w0 H0) as H.
        now destruct (automatic_mode _ _ _ _ _ _) as [[] w1]. }
    destruct (run_recorder _ _ _ _ _ _) as [x w1]. cbn [snd] in H.
    now destruct x as [[]|[m|m|m]|].
  - now destruct e.
Qed.

Lemma X8_worker_never_sets_the_stop_event_witness :
  stop_event
    (snd (record_stream manual_one "posix"
            (mkTask (Returns alice)
                    (mkManual false (Returns true) (recording two_chunks)) [])
            "Stream-1-alice" world0)) = false.
Proof.
  apply (X8_worker_never_sets_the_stop_event manual_one "posix"
           (mkTask (Returns alice)
                   (mkManual false (Returns true) (recording two_chunks)) [])
           "Stream-1-alice" world0).
  - split; [split; [reflexivity|]|constructor].
    repeat constructor.
  - reflexivity.
Defined.

(** ** The automatic loop *)

(** X9.  With an automatic interval of zero or less there is no wait at
    all: after a target is found not live, the loop goes to its next check at
    once, without a sleep and without reading the stop event in between. *)
Theorem X9_no_wait_with_a_zero_interval :
  forall self os_name ac rest r thread_name w room_id,
    automatic_interval self <= 0 ->
    stop_event w = false ->
    ac_stop ac = false ->
    ac_room_id ac = Returns room_id ->
    ms_stop (ac_manual ac) = false ->
    ms_alive (ac_manual ac) = Returns false ->
    automatic_mode self os_name (ac :: rest) r thread_name w =
    automatic_mode self os_name rest (set_room_id room_id r) thread_name
      (mkWorld false (dirs w) (disk w)
         (trace w ++
          [EGetRoomId (r_user r); EIsRoomAlive room_id;
           ELog INFO ("[" +:+ thread_name +:+ "] " +:+
                      not_live_message thread_name (r_user r))])).
Proof.
  intros * Hi Hw Hs Hr Hm Ha.
  rewrite (automatic_mode_not_live self os_name ac rest r thread_name w room_id
             Hw Hs Hr Hm Ha).
  replace (Z.to_nat (automatic_interval self * 60)) with 0%nat by lia.
  cbn [wait_interval]. unfold logger, call. cbn [stop_event dirs disk trace].
  rewrite Hw, <- !app_assoc. reflexivity.
Qed.

Lemma X9_no_wait_with_a_zero_interval_witness :
  automatic_mode
    (mkMulti [(None, Some "alice", None)] AUTOMATIC 0 None None None false)
    "posix" [not_live_cycle 5; not_live_cycle 5] alice "Stream-1-alice" world0 =
  automatic_mode
    (mkMulti [(None, Some "alice", None)] AUTOMATIC 0 None None None false)
    "posix" [not_live_cycle 5] (set_room_id "7" alice) "Stream-1-alice"
    (mkWorld false (dirs world0) (disk world0)
       (trace world0 ++
        [EGetRoomId (r_user alice); EIsRoomAlive "7";
         ELog INFO ("[" +:+ "Stream-1-alice" +:+ "] " +:+
                    not_live_message "Stream-1-alice" (r_user alice))])).
Proof.
  apply (X9_no_wait_with_a_zero_interval
           (mkMulti [(None, Some "alice", None)] AUTOMATIC 0 None None None
              false)
           "posix" (not_live_cycle 5) [not_live_cycle 5] alice "Stream-1-alice"
           world0 "7").
  - cbn. lia.
  - reflexivity.
  - reflexivity.
  - reflexivity.
  - reflexivity.
  - reflexivity.
Defined.

Lemma automatic_mode_break self os_name cycles :
  forall r thread_name w e w',
    automatic_mode self os_name cycles r thread_name w = (AutoBreak e, w') ->
    (forall m, e <> UserLiveException m) /\
    last (trace w') =
      Some (ELog ERROR ("[" +:+ thread_name +:+ "] Unexpected error: "
                        +:+ str_of_exn e)).
Proof.
  induction cycles as [|ac rest IH]; intros r thread_name w e w' H;
    [discriminate|].
  cbn [automatic_mode] in H.
  destruct (stop_event (is_set (ac_stop ac) w)); [discriminate|].
  set (w1 := call (EGetRoomId (r_user r)) (is_set (ac_stop ac) w)) in *.
  assert (Hlog : forall e0 w0,
            (forall m, e0 <> UserLiveException m) ->
            (AutoBreak e0,
             logger ERROR ("[" +:+ thread_name +:+ "] Unexpected error: "
                           +:+ str_of_exn e0) w0) = (AutoBreak e, w') ->
            (forall m, e <> UserLiveException m) /\
            last (trace w') =
              Some (ELog ERROR ("[" +:+ thread_name +:+ "] Unexpected error: "
                                +:+ str_of_exn e))).
  { intros e0 w0 He0 Heq. inversion Heq; subst. split; [exact He0|].
    unfold logger, call. cbn [trace]. apply last_snoc. }
  destruct (ac_room_id ac) as [room_id|e0].
  - destruct (manual_mode _ _ _ _ _ _) as [x w2].
    destruct x as [[]|e0|]; [now apply IH in H| |discriminate].
    destruct e0 as [m|m|m].
    + destruct (wait_interval _ _ _ _) as [[|] w3];
        [discriminate|now apply IH in H].
    + now apply Hlog in H.
    + now apply Hlog in H.
  - destruct e0 as [m|m|m].
    + destruct (wait_interval _ _ _ _) as [[|] w3];
        [discriminate|now apply IH in H].
    + now apply Hlog in H.
    + now apply Hlog in H.
Qed.

(** X10.  In automatic mode, once the recorder is constructed, no exception
    reaches the handlers of [_record_stream]: the loop absorbs them all.  The
    worker then ends only with the stop event set, or just after logging, as
    an unexpected error, an exception that is not a [UserLiveException]. *)
Theorem X10_automatic_worker_ends_by_stop_or_error :
  forall self os_name ts r thread_name w,
    mode self = AUTOMATIC ->
    ts_recorder ts = Returns r ->
    let x := fst (record_stream self os_name ts thread_name w) in
    let w' := snd (record_stream self os_name ts thread_name w) in
    (x = Returned \/ x = StillRunning) /\
    (x = Returned ->
     stop_event w' = true \/
     exists e,
       (forall m, e <> UserLiveException m) /\
       last (trace w') =
         Some (ELog ERROR ("[" +:+ thread_name +:+ "] Unexpected error: "
                           +:+ str_of_exn e))).
Proof.
  intros * Hmode Hr. unfold record_stream, run_recorder. rewrite Hr, Hmode.
  set (w0 := logger INFO _ w).
  destruct (automatic_mode self os_name (ts_auto ts) r thread_name w0)
    as [a w1] eqn:Ea.
  destruct a; cbn [fst snd]; (split; [auto|intros H; try discriminate]).
  - left. eapply automatic_mode_left_by_stop; [exact Ea|auto].
  - left. eapply automatic_mode_left_by_stop; [exact Ea|auto].
  - right. exists e. eapply automatic_mode_break. exact Ea.
Qed.

Lemma X10_automatic_worker_ends_by_stop_or_error_witness :
  let x := fst (record_stream auto_one "posix" task_no_url "Stream-1-alice"
                  world0) in
  let w' := snd (record_stream auto_one "posix" task_no_url "Stream-1-alice"
                   world0) in
  (x = Returned \/ x = StillRunning) /\
  (x = Returned ->
   stop_event w' = true \/
   exists e,
     (forall m, e <> UserLiveException m) /\
     last (trace w') =
       Some (ELog ERROR ("[" +:+ "Stream-1-alice" +:+ "] Unexpected error: "
                         +:+ str_of_exn e))).
Proof.
  apply (X10_automatic_worker_ends_by_stop_or_error auto_one "posix"
           task_no_url alice "Stream-1-alice" world0).
  - reflexivity.
  - reflexivity.
Defined.

(** ** Thread names and output files of concurrent workers *)

Lemma digits_string_of_uint (d : Decimal.uint) :
  digits (NilEmpty.string_of_uint d) = true.
Proof. induction d; cbn [NilEmpty.string_of_uint digits]; auto. Qed.

Lemma to_uint_not_nil (n : nat) : Nat.to_uint n <> Decimal.Nil.
Proof.
  intros H. pose proof (DecimalNat.Unsigned.to_of (Nat.to_uint n)) as E.
  rewrite DecimalNat.Unsigned.of_to, H in E. discriminate E.
Qed.

Lemma digits_str_of_nat (n : nat) : digits (str_of_nat n) = true.
Proof.
  unfold str_of_nat, NilZero.string_of_uint.
  destruct (Nat.to_uint n); try apply digits_string_of_uint. reflexivity.
Qed.

Lemma str_of_nat_inj (n m : nat) : str_of_nat n = str_of_nat m -> n = m.
Proof.
  unfold str_of_nat. intros H.
  apply DecimalNat.Unsigned.to_uint_inj.
  apply (f_equal NilZero.uint_of_string) in H.
  rewrite !NilZero.usu in H by apply to_uint_not_nil.
  now injection H.
Qed.

(** A string of digits followed by something that does not start with a
    digit can be read in one way only. *)
Lemma digits_split : forall d1 d2 r1 r2,
  digits d1 = true -> digits d2 = true ->
  no_digit_first r1 = true -> no_digit_first r2 = true ->
  d1 +:+ r1 = d2 +:+ r2 -> d1 = d2 /\ r1 = r2.
Proof.
  induction d1 as [|a d1 IH]; intros [|b d2] r1 r2 H1 H2 Hr1 Hr2 H.
  - now split.
  - change (r1 = String b (d2 +:+ r2)) in H. subst r1.
    cbn [digits] in H2. apply andb_true_iff in H2 as [H2 _].
    cbn [no_digit_first] in Hr1. rewrite H2 in Hr1. discriminate.
  - change (String a (d1 +:+ r1) = r2) in H. subst r2.
    cbn [digits] in H1. apply andb_true_iff in H1 as [H1 _].
    cbn [no_digit_first] in Hr2. rewrite H1 in Hr2. discriminate.
  - change (String a (d1 +:+ r1) = String b (d2 +:+ r2)) in H.
    injection H as -> H.
    cbn [digits] in H1, H2.
    apply andb_true_iff in H1 as [_ H1]. apply andb_true_iff in H2 as [_ H2].
    destruct (IH d2 r1 r2 H1 H2 Hr1 Hr2 H) as [-> ->]. now split.
Qed.

(** Lines 90-96: [Stream-<i+1>], then nothing or a dash and the target. *)
Lemma thread_name_of_shape (i : nat) (t : target) :
  exists tail,
    thread_name_of i t = "Stream-" +:+ str_of_nat (i + 1) +:+ tail /\
    no_digit_first tail = true.
Proof.
  destruct t as [[url user] room_id]. unfold thread_name_of.
  destruct (truthy user); [|destruct (truthy url); [|destruct (truthy room_id)]].
  - eexists. rewrite append_assoc. split; reflexivity.
  - eexists. rewrite append_assoc. split; reflexivity.
  - eexists. rewrite append_assoc. split; reflexivity.
  - exists "". rewrite append_nil_r. split; reflexivity.
Qed.

Lemma thread_name_of_inj i j t t' :
  thread_name_of i t = thread_name_of j t' -> i = j.
Proof.
  destruct (thread_name_of_shape i t) as (r1 & -> & Hr1).
  destruct (thread_name_of_shape j t') as (r2 & -> & Hr2).
  intros H. apply append_inj_l in H.
  apply digits_split in H as [H _];
    auto using digits_str_of_nat.
  apply str_of_nat_inj in H. lia.
Qed.

Lemma thread_names_bound ts : forall i name,
  In name (thread_names i ts) ->
  exists j t, (i <= j)%nat /\ name = thread_name_of j t.
Proof.
  induction ts as [|t ts IH]; intros i name H; [destruct H|].
  destruct H as [<-|H].
  - exists i, t. split; [lia|reflexivity].
  - apply IH in H as (j & t' & Hj & ->). exists j, t'. split; [lia|reflexivity].
Qed.

Lemma NoDup_thread_names ts : forall i, NoDup (thread_names i ts).
Proof.
  induction ts as [|t ts IH]; intros i; cbn [thread_names]; constructor.
  - intros H. apply list_elem_of_In in H.
    apply thread_names_bound in H as (j & t' & Hj & H).
    apply thread_name_of_inj in H. lia.
  - apply IH.
Qed.

Lemma spawn_threads sc ts : forall i o,
  exists k,
    recording_threads (snd (spawn sc i ts o)) =
      recording_threads o ++ thread_names i (take k ts).
Proof.
  induction ts as [|t ts IH]; intros i o.
  - exists 0%nat. cbn. now rewrite app_nil_r.
  - cbn [spawn].
    destruct (os_spawn sc i) eqn:E.
    + destruct (IH (S i)
                  (o_sleep
                     (o_emit (OLog SUCCESS ("Started recording thread: "
                                            +:+ thread_name_of i t))
                        (o_emit (OStart (thread_name_of i t) t)
                           (o_append (thread_name_of i t) o)))))
        as (k & Hk).
      exists (S k). rewrite Hk. cbn. now rewrite <- app_assoc.
    + exists 1%nat. cbn. now rewrite take_0.
    + exists 1%nat. cbn. now rewrite take_0.
Qed.

(** X11.  The names that [run] gives to its threads are pairwise different,
    because each one starts with the position of its target: two threads
    never share a name, even when the same user is given twice. *)
Theorem X11_thread_names_are_distinct :
  (forall i j t t', thread_name_of i t = thread_name_of j t' -> i = j) /\
  (forall fuel sc self, NoDup (recording_threads (snd (run fuel sc self)))).
Proof.
  split; [exact thread_name_of_inj|].
  intros fuel sc self. unfold run.
  destruct (spawn_threads sc (targets self) 0 orch_init) as (k & Hk).
  destruct (spawn sc 0 (targets self) orch_init) as [x o]. cbn [snd] in Hk.
  assert (Ho : NoDup (recording_threads o)).
  { rewrite Hk. cbn. apply NoDup_thread_names. }
  destruct x; cbn [snd].
  - destruct (wait_for_completion fuel sc 0 o) as [y o'] eqn:E.
    apply wait_for_completion_spec in E as [E _]. cbn [snd].
    now rewrite E.
  - destruct (stop_all_recordings_spec sc
                (o_emit (OLog INFO
                   "Received interrupt signal, stopping all recordings...") o))
      as (_ & -> & _). exact Ho.
  - destruct (stop_all_recordings_spec sc
                (o_emit (OLog ERROR
                   ("Unexpected error in multi-stream recorder: "
                    +:+ str_of_exn e)) o))
      as (_ & -> & _). exact Ho.
Qed.

(** X12.  When several targets are recorded, two workers never write to the
    same file, even for the same user, the same output directory and the
    same second: the thread name in the file name tells them apart. *)
Theorem X12_concurrent_workers_use_different_files :
  forall os_name r current_date n_targets i j t t',
    (1 < n_targets)%nat ->
    i <> j ->
    output_path os_name r current_date n_targets (thread_name_of i t) <>
    output_path os_name r current_date n_targets (thread_name_of j t').
Proof.
  intros * Hn Hij H. apply Hij.
  rewrite !output_path_shape in H.
  do 6 apply append_inj_l in H.
  apply append_inj_r in H.
  unfold output_suffix in H.
  apply Nat.ltb_lt in Hn. rewrite Hn in H.
  apply append_inj_l in H. now apply thread_name_of_inj in H.
Qed.

Lemma X12_concurrent_workers_use_different_files_witness :
  output_path "posix" (alice_in (Some "out")) "2024.01.02_03-04-05" 2
    (thread_name_of 0 (None, Some "alice", None)) <>
  output_path "posix" (alice_in (Some "out")) "2024.01.02_03-04-05" 2
    (thread_name_of 1 (None, Some "alice", None)).
Proof.
  apply (X12_concurrent_workers_use_different_files "posix"
           (alice_in (Some "out")) "2024.01.02_03-04-05" 2 0 1
           (None, Some "alice", None) (None, Some "alice", None)).
  - lia.
  - lia.
Defined.

(** ** The main thread: polling and shutting down *)

Lemma join_threads_time sc names : forall i o,
  (o_now o <= o_now (join_threads sc i names o) <=
   o_now o + 5 * length names)%nat.
Proof.
  induction names as [|name rest IH]; intros i o; cbn [join_threads length].
  - lia.
  - destruct (os_alive sc i (o_now o)).
    + pose proof (IH (S i)
                    (o_elapse (join_wait (os_alive sc i) (o_now o) 5)
                       (o_emit (OJoin name 5) o))) as H.
      destruct (join_wait_spec (os_alive sc i) 5 (o_now o)) as [Hj _].
      unfold o_elapse, o_emit in *.
      cbn [o_stop_event recording_threads o_now o_trace] in *. lia.
    + pose proof (IH (S i) o). lia.
Qed.

Lemma join_threads_nobody_alive sc names : forall i o,
  (forall j, (j < length names)%nat -> os_alive sc (i + j) (o_now o) = false) ->
  join_threads sc i names o = o.
Proof.
  induction names as [|name rest IH]; intros i o H; [reflexivity|].
  cbn [join_threads].
  pose proof (H 0%nat ltac:(cbn; lia)) as H0.
  rewrite Nat.add_0_r in H0. rewrite H0.
  apply IH. intros j Hj.
  replace (S i + j)%nat with (i + S j)%nat by lia. apply H. cbn. lia.
Qed.

(** X13.  [stop_all_recordings] lasts at most five seconds per thread, and
    when no worker is alive any more it joins nobody and takes no time: it
    sets the stop event between its two log lines and returns. *)
Theorem X13_shutdown_takes_at_most_five_seconds_per_thread :
  forall sc o,
    let o' := stop_all_recordings sc o in
    (o_now o <= o_now o' <= o_now o + 5 * length (recording_threads o))%nat /\
    ((forall j, (j < length (recording_threads o))%nat ->
                os_alive sc j (o_now o) = false) ->
     o_now o' = o_now o /\
     o_trace o' =
       o_trace o ++ [OLog INFO "Stopping all recordings..."; OSetStopEvent;
                     OLog INFO "All recordings stopped."]).
Proof.
  intros. subst o'. unfold stop_all_recordings.
  set (o2 := o_set (o_emit (OLog INFO "Stopping all recordings...") o)).
  change (recording_threads o2) with (recording_threads o).
  split.
  - pose proof (join_threads_time sc (recording_threads o) 0 o2) as H.
    change (o_now o2) with (o_now o) in H. exact H.
  - intros H. rewrite join_threads_nobody_alive by exact H.
    split; [reflexivity|].
    cbn [o_emit o_set o_trace o_stop_event recording_threads o_now o2].
    now rewrite <- !app_assoc.
Qed.

(** X14.  [_wait_for_completion] polls once a second and does nothing else:
    when it returns because the workers are done, it has slept exactly once
    for each second at which some worker was still alive, it returns at the
    first second at which none is, and the stop event is as it was. *)
Theorem X14_polling_returns_at_the_first_quiet_second :
  forall sc fuel k o o',
    wait_for_completion fuel sc k o = (RunCompleted, o') ->
    (o_now o <= o_now o')%nat /\
    o_trace o' = o_trace o ++ repeat (OSleep 1) (o_now o' - o_now o) /\
    (forall t, (o_now o <= t < o_now o')%nat ->
       exists j, (j < length (recording_threads o))%nat /\
                 os_alive sc j t = true) /\
    (forall j, (j < length (recording_threads o))%nat ->
       os_alive sc j (o_now o') = false) /\
    o_stop_event o' = o_stop_event o.
Proof.
  intros * H. apply wait_for_completion_polls in H; [|discriminate].
  destruct H as (H1 & H2 & H3 & H4 & H5 & H6).
  repeat split; auto; try lia.
Qed.

Lemma X14_polling_returns_at_the_first_quiet_second_witness :
  exists o',
    wait_for_completion 10 calm 0 (mkOrch false ["Stream-1-alice"] 1 []) =
      (RunCompleted, o') /\
    o_now o' = 3%nat /\
    o_trace o' = [OSleep 1; OSleep 1].
Proof.
  eexists. split; [vm_compute; reflexivity|].
  split; [reflexivity|].
  pose proof (X14_polling_returns_at_the_first_quiet_second calm 10 0
                (mkOrch false ["Stream-1-alice"] 1 [])
                (mkOrch false ["Stream-1-alice"] 3 [OSleep 1; OSleep 1])
                ltac:(vm_compute; reflexivity)) as (_ & H & _).
  exact H.
Defined.

Lemma spawn_no_shutdown sc ts : forall i o,
  o_stop_event (snd (spawn sc i ts o)) = o_stop_event o /\
  exists tr, o_trace (snd (spawn sc i ts o)) = o_trace o ++ tr /\
             shuts_down tr = false.
Proof.
  induction ts as [|t ts IH]; intros i o.
  - split; [reflexivity|]. exists []. cbn. now rewrite app_nil_r.
  - cbn [spawn].
    destruct (os_spawn sc i).
    + destruct (IH (S i)
                  (o_sleep
                     (o_emit (OLog SUCCESS ("Started recording thread: "
                                            +:+ thread_name_of i t))
                        (o_emit (OStart (thread_name_of i t) t)
                           (o_append (thread_name_of i t) o)))))
        as (H1 & tr & H2 & H3).
      split; [exact H1|]. eexists. rewrite H2. cbn.
      rewrite <- !app_assoc. split; [reflexivity|]. exact H3.
    + split; [reflexivity|]. exists []. cbn. now rewrite app_nil_r.
    + split; [reflexivity|]. eexists. cbn. rewrite <- !app_assoc.
      split; reflexivity.
Qed.

Lemma shuts_down_app tr1 tr2 :
  shuts_down (tr1 ++ tr2) = shuts_down tr1 || shuts_down tr2.
Proof. apply existsb_app. Qed.

Lemma stop_all_recordings_shuts_down sc o :
  shuts_down (o_trace (stop_all_recordings sc o)) = true.
Proof.
  unfold stop_all_recordings.
  set (o2 := o_set (o_emit (OLog INFO "Stopping all recordings...") o)).
  destruct (join_threads_trace sc (recording_threads o2) 0 o2) as (tr & Htr).
  unfold o_emit at 1. cbn [o_trace]. rewrite Htr.
  cbn [o2 o_set o_emit o_trace].
  rewrite !shuts_down_app. cbn. now rewrite !orb_true_r.
Qed.

Lemma wait_for_completion_stopped sc fuel : forall k o o',
  wait_for_completion fuel sc k o = (RunStopped, o') ->
  shuts_down (o_trace o') = true.
Proof.
  induction fuel as [|fuel IH]; intros k o o' H; cbn [wait_for_completion] in H;
    [discriminate|].
  destruct (any_alive sc o); [|discriminate].
  destruct (os_wait sc k).
  - inversion H; subst. apply stop_all_recordings_shuts_down.
  - now apply IH in H.
Qed.

Lemma wait_for_completion_stopped_iff sc fuel : forall k o,
  fst (wait_for_completion fuel sc k o) = RunStopped <->
  polling_interrupted sc (length (recording_threads o)) (o_now o) k fuel.
Proof.
  induction fuel as [|fuel IH]; intros k o; cbn [wait_for_completion].
  - split; [discriminate|]. intros (d & Hd & _). lia.
  - destruct (any_alive sc o) eqn:Ea.
    + destruct (os_wait sc k) eqn:Ew.
      * split; [intros _|reflexivity].
        exists 0%nat. rewrite Nat.add_0_r.
        split; [lia|]. split; [exact Ew|]. split; [intros i Hi; lia|].
        intros i Hi. assert (i = 0)%nat as -> by lia.
        rewrite Nat.add_0_r. now apply any_alive_true.
      * rewrite IH. unfold o_sleep, o_elapse, o_emit.
        cbn [recording_threads o_now]. split.
        -- intros (d & Hd & Hw & Hno & Hal). exists (S d).
           split; [lia|].
           split; [now replace (k + S d)%nat with (S k + d)%nat by lia|].
           split.
           ++ intros i Hi. destruct i as [|i].
              ** now rewrite Nat.add_0_r.
              ** replace (k + S i)%nat with (S k + i)%nat by lia.
                 apply Hno. lia.
           ++ intros i Hi. destruct i as [|i].
              ** rewrite Nat.add_0_r. now apply any_alive_true.
              ** replace (o_now o + S i)%nat with (o_now o + 1 + i)%nat
                   by lia.
                 apply Hal. lia.
        -- intros (d & Hd & Hw & Hno & Hal). destruct d as [|d].
           ++ rewrite Nat.add_0_r in Hw. congruence.
           ++ exists d. split; [lia|].
              split; [now replace (S k + d)%nat with (k + S d)%nat by lia|].
              split.
              ** intros i Hi.
                 replace (S k + i)%nat with (k + S i)%nat by lia.
                 apply Hno. lia.
              ** intros i Hi.
                 replace (o_now o + 1 + i)%nat with (o_now o + S i)%nat
                   by lia.
                 apply Hal. lia.
    + split; [discriminate|]. intros (d & _ & _ & _ & Hal).
      destruct (Hal 0%nat ltac:(lia)) as (j & Hj & Hj').
      rewrite Nat.add_0_r in Hj'.
      now rewrite (any_alive_false _ _ Ea j Hj) in Hj'.
Qed.

(** How [run] ends, and what it has done by then to cancel the workers. *)
Lemma run_cancels fuel sc self :
  let x := fst (run fuel sc self) in
  let o' := snd (run fuel sc self) in
  (x = RunStopped ->
   o_stop_event o' = true /\ shuts_down (o_trace o') = true) /\
  (x <> RunStopped ->
   o_stop_event o' = false /\ shuts_down (o_trace o') = false).
Proof.
  intros. subst x o'. unfold run.
  destruct (spawn_no_shutdown sc (targets self) 0 orch_init)
    as (Hs & tr & Htr & Hno).
  destruct (spawn sc 0 (targets self) orch_init) as [x o].
  cbn [snd orch_init o_stop_event o_trace app] in Hs, Htr.
  destruct x; cbn [fst snd].
  - destruct (wait_for_completion fuel sc 0 o) as [y o'] eqn:E.
    cbn [fst snd]. split.
    + intros ->. pose proof E as E0.
      apply wait_for_completion_spec in E as (_ & _ & _ & E).
      destruct (E eq_refl) as [E1 _]. split; [exact E1|].
      eapply wait_for_completion_stopped. exact E0.
    + intros Hy. apply wait_for_completion_polls in E; [|exact Hy].
      destruct E as (E1 & _ & _ & E4 & _).
      split; [now rewrite E1|].
      rewrite E4, Htr, shuts_down_app, Hno. cbn [orb].
      generalize (o_now o' - o_now o)%nat as n.
      induction n as [|n IHn]; [reflexivity|exact IHn].
  - split; [intros _|intros H; now elim H].
    split; [apply stop_all_recordings_sets|apply stop_all_recordings_shuts_down].
  - split; [intros _|intros H; now elim H].
    split; [apply stop_all_recordings_sets|apply stop_all_recordings_shuts_down].
Qed.

(** [run] ends through [stop_all_recordings] exactly when the start-up is
    cut short or the polling is interrupted. *)
Lemma run_stopped_iff fuel sc self :
  fst (run fuel sc self) = RunStopped <->
  start_up_cut sc (length (targets self)) \/
  polling_interrupted sc (length (targets self)) (length (targets self)) 0
    fuel.
Proof.
  unfold run.
  destruct (first_cut sc (length (targets self)))
    as [Hok|(k & Hk & Hokk & Hbad)].
  - rewrite (spawn_all sc (targets self) 0 orch_init) by exact Hok.
    rewrite wait_for_completion_stopped_iff.
    cbn [recording_threads o_now orch_init app Nat.add].
    rewrite length_thread_names. split; [now right|].
    intros [(k & Hk & Hbad)|H]; [|exact H]. elim Hbad. now apply Hok.
  - destruct (spawn_cut sc (targets self) 0 orch_init k Hk Hokk Hbad)
      as (o' & E & _).
    rewrite E. cbn [Nat.add].
    split; [intros _; left; now exists k|intros _].
    destruct (os_spawn sc k); reflexivity.
Qed.

(** X15.  [run] cancels the workers only when it is interrupted or a thread
    cannot be started.  It ends through [stop_all_recordings], it has set
    the stop event, and it has set the event or joined a thread, each
    exactly in these cases: [Thread], [start] or the sleep of the spawn loop
    raises for some target ([os_spawn] is not [SpawnOk] there), or every
    thread was started and a KeyboardInterrupt cuts a sleep of the polling
    ([os_wait]) that a live worker made necessary. *)
Theorem X15_run_cancels_only_on_interrupt_or_error :
  forall fuel sc self,
    let n := length (targets self) in
    let x := fst (run fuel sc self) in
    let o' := snd (run fuel sc self) in
    let cancelled := start_up_cut sc n \/ polling_interrupted sc n n 0 fuel in
    (x = RunStopped <-> cancelled) /\
    (o_stop_event o' = true <-> cancelled) /\
    (shuts_down (o_trace o') = true <-> cancelled).
Proof.
  intros. subst n x o' cancelled. rewrite <- run_stopped_iff.
  destruct (run_cancels fuel sc self) as [Hyes Hno].
  cbv zeta in Hyes, Hno.
  assert (D : fst (run fuel sc self) = RunStopped \/
              fst (run fuel sc self) <> RunStopped).
  { destruct (fst (run fuel sc self));
      [right; discriminate|now left|right; discriminate]. }
  destruct D as [E|E].
  - destruct (Hyes E) as [H1 H2]. now rewrite H1, H2.
  - destruct (Hno E) as [H1 H2]. rewrite H1, H2.
    split; [reflexivity|]. split; (split; [discriminate|intros H; now elim E]).
Qed.

(** The three cases on two targets: an interrupt in the spawn loop, an
    interrupt of the polling, and neither. *)
Lemma run_cancels_examples :
  (start_up_cut interrupted_at_once 2 /\
   fst (run 10 interrupted_at_once manual_two) = RunStopped) /\
  (~ start_up_cut interrupted_while_polling 2 /\
   polling_interrupted interrupted_while_polling 2 2 0 10 /\
   fst (run 10 interrupted_while_polling manual_two) = RunStopped /\
   o_stop_event (snd (run 10 interrupted_while_polling manual_two)) = true) /\
  (~ (start_up_cut calm 2 \/ polling_interrupted calm 2 2 0 10) /\
   fst (run 10 calm manual_two) = RunCompleted /\
   o_stop_event (snd (run 10 calm manual_two)) = false /\
   shuts_down (o_trace (snd (run 10 calm manual_two))) = false).
Proof.
  split; [|split].
  - split; [|reflexivity]. exists 0%nat. split; [lia|discriminate].
  - split; [intros (k & _ & H); now elim H|].
    split; [|split; reflexivity].
    exists 1%nat. split; [lia|]. split; [reflexivity|].
    split.
    + intros i Hi. assert (i = 0)%nat as -> by lia. reflexivity.
    + intros i _. exists 0%nat. split; [lia|reflexivity].
  - split; [|repeat split; reflexivity].
    intros [(k & _ & H)|(d & _ & H & _)]; [now elim H|discriminate].
Qed.

(** X16.  Once [open] has succeeded, the attempt closes the file whatever
    happens in the loop, a failing [finally] clause included: between the
    [open] and the [close] there are only liveness checks, downloads and log
    lines, and the post-processing comes after the [close], and only when
    the loop was left without an exception. *)
Theorem X16_an_opened_file_is_closed :
  forall self os_name rs r thread_name w url u1 u2,
    rs_live_url rs = Returns (Some url) ->
    url <> "" ->
    rs_makedirs rs = Returns u1 ->
    rs_open rs = Returns u2 ->
    let out := output_path os_name r (strftime (rs_localtime rs))
                 (length (targets self)) thread_name in
    let a := start_recording self os_name rs r thread_name w in
    fst a <> Running ->
    exists tr post,
      trace (snd a) =
        trace w ++
        [EGetLiveUrl (r_room_id r); EMakeDirs (user_folder os_name r);
         ELog INFO (started_message thread_name out); EOpen out] ++
        tr ++ [EClose out] ++ post /\
      forallb is_loop_event tr = true /\
      match fst a with
      | Raised _ => post = []
      | _ => post = ELog INFO (finished_message thread_name out) ::
                    post_events (rs_convert rs) (rs_upload rs) r thread_name out
      end.
Proof.
  intros * Hurl Hne Hmk Hop out a. subst a.
  rewrite (start_recording_opened self os_name rs r thread_name w url u1 u2
             Hurl Hne Hmk Hop).
  cbn zeta. fold out.
  set (w1 := opened_world os_name (length (targets self)) rs r thread_name w).
  assert (Hw1 : trace w1 =
                trace w ++
                [EGetLiveUrl (r_room_id r); EMakeDirs (user_folder os_name r);
                 ELog INFO (started_message thread_name out); EOpen out]).
  { subst w1. unfold opened_world, store, logger, call, makedirs. cbn [trace].
    fold out. now rewrite <- !app_assoc. }
  destruct (recording_loop_events thread_name (r_room_id r) url (r_duration r)
              (rs_start_time rs) (rs_cycles rs) false (enter_with w1))
    as (tr & Htr & Hev).
  destruct (recording_loop _ _ _ _ _ _ _ _) as [x s]. cbn [snd] in Htr.
  change (st_trace (enter_with w1)) with (trace w1) in Htr.
  destruct x; cbn [fst snd]; intros Hrun; try (now elim Hrun);
    exists tr; eexists; (split; [|split; [exact Hev|reflexivity]]);
    try rewrite post_process_trace;
    unfold logger, call, leave_with; cbn [trace];
    rewrite Htr, Hw1, <- !app_assoc; reflexivity.
Qed.

Lemma X16_an_opened_file_is_closed_witness :
  exists tr post,
    trace (snd (start_recording manual_one "posix" (recording two_chunks)
                  alice_10s "Stream-1-alice" world0)) =
      trace world0 ++
      [EGetLiveUrl "7"; EMakeDirs "alice/";
       ELog INFO (started_message "Stream-1-alice"
                    "alice/TK_alice_2024.01.02_03-04-05_flv.mp4");
       EOpen "alice/TK_alice_2024.01.02_03-04-05_flv.mp4"] ++
      tr ++ [EClose "alice/TK_alice_2024.01.02_03-04-05_flv.mp4"] ++ post /\
    forallb is_loop_event tr = true /\
    post = ELog INFO (finished_message "Stream-1-alice"
                        "alice/TK_alice_2024.01.02_03-04-05_flv.mp4") ::
           post_events (Returns tt) (Returns tt) alice_10s "Stream-1-alice"
             "alice/TK_alice_2024.01.02_03-04-05_flv.mp4".
Proof.
  apply (X16_an_opened_file_is_closed manual_one "posix" (recording two_chunks)
           alice_10s "Stream-1-alice" world0 "http://cdn/live.flv" tt tt).
  - reflexivity.
  - discriminate.
  - reflexivity.
  - reflexivity.
  - vm_compute. discriminate.
Defined.

(** ** The list of targets on display *)

Lemma target_info_length ts : forall i,
  (length (target_info i ts) <= length ts)%nat.
Proof.
  induction ts as [|t ts IH]; intros i; cbn [target_info length]; [lia|].
  specialize (IH (S i)). destruct (target_line i t); cbn [length]; lia.
Qed.

Lemma target_line_listed i t :
  listed t = true <-> exists line, target_line i t = Some line.
Proof.
  destruct t as [[url user] room_id]. unfold listed, target_line.
  destruct (truthy user), (truthy url), (truthy room_id); cbn;
    split; intros H; eauto; try discriminate; now destruct H.
Qed.

(** X17.  The list of targets that [run] displays has one line for each
    target with a field that is not empty, under the number of its position,
    and no line for the others: it is as long as the list of targets exactly
    when every target has such a field. *)
Theorem X17_display_lists_the_targets_with_a_field :
  forall i ts,
    (forall line,
       In line (target_info i ts) <->
       exists j t, ts !! j = Some t /\ target_line (i + j) t = Some line) /\
    (length (target_info i ts) <= length ts)%nat /\
    (length (target_info i ts) = length ts <->
     Forall (fun t => listed t = true) ts).
Proof.
  intros i ts. split; [|split; [apply target_info_length|]].
  - revert i. induction ts as [|t ts IH]; intros i line; cbn [target_info].
    + split; [intros []|intros (j & t & H & _); discriminate].
    + split.
      * intros H.
        assert (Hrest : In line (target_info (S i) ts) ->
                  exists j t0, (t :: ts) !! j = Some t0 /\
                               target_line (i + j) t0 = Some line).
        { intros H'. apply IH in H' as (j & t0 & Hj & Hl).
          exists (S j), t0. split; [exact Hj|].
          now replace (i + S j)%nat with (S i + j)%nat by lia. }
        destruct (target_line i t) as [l|] eqn:E; [|now apply Hrest].
        destruct H as [<-|H]; [|now apply Hrest].
        exists 0%nat, t. split; [reflexivity|].
        now rewrite Nat.add_0_r.
      * intros (j & t0 & Hj & Hl). destruct j as [|j].
        -- injection Hj as <-. rewrite Nat.add_0_r in Hl. rewrite Hl.
           now left.
        -- assert (In line (target_info (S i) ts)).
           { apply IH. exists j, t0. split; [exact Hj|].
             now replace (S i + j)%nat with (i + S j)%nat by lia. }
           destruct (target_line i t); [now right|assumption].
  - revert i. induction ts as [|t ts IH]; intros i; cbn [target_info length].
    + split; [constructor|reflexivity].
    + pose proof (target_info_length ts (S i)) as Hle.
      pose proof (target_line_listed i t) as Hl.
      destruct (target_line i t) as [l|]; cbn [length].
      * split.
        -- intros H. constructor; [apply Hl; eauto|]. apply (IH (S i)). lia.
        -- intros H. inversion H; subst. f_equal. now apply IH.
      * split; [lia|].
        intros H. inversion H as [|? ? H1 _]; subst.
        apply Hl in H1 as [? H1]. discriminate.
Qed.

(** ** The resolution options of [main] *)

Lemma and_then_allowed (P : main_event -> Prop) (a b : outcome) :
  Forall P (fst a) -> Forall P (fst b) -> Forall P (fst (and_then a b)).
Proof.
  intros Ha Hb. unfold and_then. destruct a as [evs [msg|]]; [exact Ha|].
  cbn [fst snd] in *. apply Forall_app. now split.
Qed.

Lemma and_then_error (a b : outcome) :
  snd (and_then a b) =
  match snd a with
  | Some msg => Some msg
  | None => snd b
  end.
Proof. unfold and_then. now destruct a as [evs [msg|]]. Qed.

Lemma truthy_named (o : option string) :
  truthy o = true -> o = Some (default "" o).
Proof. destruct o; [reflexivity|discriminate]. Qed.

Lemma restart_setting_allowed args opt flag value :
  Forall (allowed args) (fst (restart_setting args opt flag value)).
Proof.
  unfold restart_setting.
  assert (Hset : setting "restart_on_resolution_change" (VBool value))
    by (left; eauto).
  destruct (truthy opt); [|constructor].
  cbn zeta.
  destruct (negb _); [constructor|].
  destruct (_ && truthy (a_user args)) eqn:E1.
  { apply andb_true_iff in E1 as [_ E1]. constructor; [|constructor].
    split; [left; now apply truthy_named|exact Hset]. }
  destruct (_ && truthy (a_room_id args)) eqn:E2.
  { apply andb_true_iff in E2 as [_ E2]. constructor; [|constructor].
    split; [left; now apply truthy_named|exact Hset]. }
  destruct (_ && nonempty (a_users args)).
  { cbn [fst]. apply List.Forall_forall. intros e He.
    apply in_map_iff in He as (u & <- & Hu). split; [now right|exact Hset]. }
  destruct (_ && nonempty (a_room_ids args)).
  { cbn [fst]. apply List.Forall_forall. intros e He.
    apply in_map_iff in He as (u & <- & Hu). split; [now right|exact Hset]. }
  constructor; [exact I|constructor].
Qed.

Lemma interval_setting_allowed args interval :
  Forall (allowed args) (fst (interval_setting args interval)).
Proof.
  unfold interval_setting. destruct interval as [n|]; [|constructor].
  cbn zeta. destruct (Z.ltb_spec n 1); [constructor|].
  assert (Hset : setting "resolution_check_interval" (VInt n))
    by (right; eauto).
  destruct (truthy (a_user args)) eqn:E1.
  { constructor; [|constructor].
    split; [left; now apply truthy_named|exact Hset]. }
  destruct (truthy (a_room_id args)) eqn:E2.
  { constructor; [|constructor].
    split; [left; now apply truthy_named|exact Hset]. }
  destruct (nonempty (a_users args)) eqn:E3.
  { cbn [fst]. apply List.Forall_forall. intros e He.
    apply in_map_iff in He as (u & <- & Hu). split; [now right|exact Hset]. }
  destruct (nonempty (a_room_ids args)) eqn:E4.
  { cbn [fst]. apply List.Forall_forall. intros e He.
    apply in_map_iff in He as (u & <- & Hu). split; [now right|exact Hset]. }
  constructor; [|constructor; [exact I|constructor]].
  cbn. repeat split; eauto.
Qed.

Lemma resolution_config_allowed ffprobe args res :
  Forall (allowed args) (fst (resolution_config ffprobe args res)).
Proof.
  unfold resolution_config.
  destruct (_ || _); [|constructor].
  destruct (negb ffprobe); [repeat constructor|].
  repeat apply and_then_allowed;
    auto using restart_setting_allowed, interval_setting_allowed.
Qed.

(** X18.  The handling of the resolution options writes settings only for the
    users and the rooms that the command line names, and only the restart
    flag and a check interval of one second at least; the default check
    interval is written only when the command line names nobody.  It
    launches nothing and logs no error itself. *)
Theorem X18_settings_only_for_the_named_targets :
  forall ffprobe args res,
    Forall (allowed args) (fst (resolution_config ffprobe args res)).
Proof. exact resolution_config_allowed. Qed.

Lemma restart_setting_error args opt flag value :
  snd (restart_setting args opt flag value) =
  if rejected opt
  then Some ("Invalid value for " +:+ flag +:+ ". Use 'user' or 'room'.")
  else None.
Proof.
  unfold restart_setting, rejected. destruct (truthy opt); [|reflexivity].
  cbn zeta. cbn [andb].
  destruct (negb _); [reflexivity|].
  repeat match goal with |- context [if ?b then _ else _] => destruct b end;
    reflexivity.
Qed.

Lemma interval_setting_error args interval :
  snd (interval_setting args interval) =
  match interval with
  | Some n =>
      if n <? 1
      then Some "Resolution check interval must be at least 1 second."
      else None
  | None => None
  end.
Proof.
  unfold interval_setting. destruct interval as [n|]; [|reflexivity].
  cbn zeta. destruct (n <? 1); [reflexivity|].
  repeat match goal with |- context [if ?b then _ else _] => destruct b end;
    reflexivity.
Qed.

Lemma resolution_config_error ffprobe args res :
  (exists msg, snd (resolution_config ffprobe args res) = Some msg) <->
  bad_resolution_options ffprobe res.
Proof.
  unfold resolution_config, bad_resolution_options.
  destruct res as [en dis iv]. cbn [enable_resolution_restart
    disable_resolution_restart resolution_check_interval].
  destruct ffprobe; cbn [negb].
  - assert (Hmain :
      (exists msg,
         snd (and_then
                (restart_setting args en "-enable-resolution-restart" true)
                (and_then
                   (restart_setting args dis "-disable-resolution-restart"
                      false)
                   (interval_setting args iv))) = Some msg) <->
      true = true /\
      (rejected en = true \/ rejected dis = true \/
       exists n, iv = Some n /\ n < 1)).
    { rewrite !and_then_error, !restart_setting_error, interval_setting_error.
      destruct (rejected en); [split; eauto|].
      destruct (rejected dis); [split; eauto|].
      destruct iv as [n|].
      - destruct (Z.ltb_spec n 1).
        + split; eauto 6.
        + split; [intros [? ?]; discriminate|].
          intros (_ & [H'|[H'|(m & Hm & Hlt)]]); try discriminate.
          injection Hm as <-. lia.
      - split; [intros [? ?]; discriminate|].
        intros (_ & [H'|[H'|(m & Hm & Hlt)]]); discriminate. }
    destruct (truthy en || truthy dis || is_not_none iv) eqn:E; [exact Hmain|].
    apply orb_false_iff in E as [E E3]. apply orb_false_iff in E as [E1 E2].
    split; [intros [? ?]; discriminate|].
    unfold rejected. rewrite E1, E2. cbn [andb].
    intros (_ & [H'|[H'|(m & Hm & Hlt)]]); try discriminate.
    subst iv. discriminate.
  - split.
    + destruct (_ || _); intros [? ?]; discriminate.
    + intros [? _]. discriminate.
Qed.

(** X19.  [main] rejects the command line exactly when [ffprobe] is
    available and the first resolution option that is wrong is met: a
    restart option that is neither [user] nor [room], in any case of letters,
    or a check interval below one second.  It then logs the error as its last
    action and launches no recorder; otherwise it logs no error and its last
    action is to launch the recorder that the targets select.  Without
    [ffprobe] no option is rejected. *)
Theorem X19_main_rejects_wrong_resolution_options :
  forall ffprobe args res,
    (bad_resolution_options ffprobe res ->
     (exists msg, last (main ffprobe args res) = Some (MError msg)) /\
     forall l, ~ In (MLaunch l) (main ffprobe args res)) /\
    (~ bad_resolution_options ffprobe res ->
     last (main ffprobe args res) = Some (MLaunch (main_launch args)) /\
     forall msg, ~ In (MError msg) (main ffprobe args res)).
Proof.
  intros.
  pose proof (resolution_config_error ffprobe args res) as Herr.
  pose proof (resolution_config_allowed ffprobe args res) as Hall.
  unfold main.
  destruct (resolution_config ffprobe args res) as [evs [msg|]];
    cbn [fst snd] in *.
  - split.
    + intros _. split; [exists msg; apply last_snoc|].
      intros l Hl. apply in_app_or in Hl as [Hl|[Hl|[]]]; [|discriminate].
      rewrite List.Forall_forall in Hall. apply (Hall _ Hl).
    + intros Hbad. exfalso. apply Hbad, Herr. eauto.
  - split.
    + intros Hbad. apply Herr in Hbad as [? ?]. discriminate.
    + intros _.
      assert (Hno : forall msg, ~ In (MError msg) evs).
      { intros msg Hm. rewrite List.Forall_forall in Hall. apply (Hall _ Hm). }
      destruct (main_launch args) as [ts|t].
      * split.
        -- match goal with |- last (evs ++ [?x; ?y]) = _ =>
             change (evs ++ [x; y]) with (evs ++ [x] ++ [y])
           end.
           rewrite app_assoc. apply last_snoc.
        -- intros msg Hm. apply in_app_or in Hm as [Hm|[Hm|[Hm|[]]]];
             try discriminate. exact (Hno _ Hm).
      * split; [apply last_snoc|].
        intros msg Hm. apply in_app_or in Hm as [Hm|[Hm|[]]];
          try discriminate. exact (Hno _ Hm).
Qed.

(** X20.  A check interval below one second is rejected only after the
    restart options have been handled: the settings that they write are
    written all the same, although the command line is rejected. *)
Theorem X20_rejected_interval_keeps_the_restart_settings :
  forall args res n,
    resolution_check_interval res = Some n ->
    n < 1 ->
    rejected (enable_resolution_restart res) = false ->
    rejected (disable_resolution_restart res) = false ->
    resolution_config true args res =
      (fst (restart_setting args (enable_resolution_restart res)
              "-enable-resolution-restart" true) ++
       fst (restart_setting args (disable_resolution_restart res)
              "-disable-resolution-restart" false),
       Some "Resolution check interval must be at least 1 second.").
Proof.
  intros * Hn Hlt He Hd. unfold resolution_config. rewrite Hn.
  cbn [is_not_none negb]. rewrite orb_true_r.
  pose proof (restart_setting_error args (enable_resolution_restart res)
                "-enable-resolution-restart" true) as H1.
  pose proof (restart_setting_error args (disable_resolution_restart res)
                "-disable-resolution-restart" false) as H2.
  rewrite He in H1. rewrite Hd in H2.
  unfold and_then at 1. rewrite H1.
  unfold and_then. rewrite H2.
  unfold interval_setting. apply Z.ltb_lt in Hlt. rewrite Hlt.
  cbn [fst snd]. now rewrite app_nil_r.
Qed.

Lemma X20_rejected_interval_keeps_the_restart_settings_witness :
  resolution_config true
    (mkArgs None None None None (Some "alice") None)
    (mkRes (Some "USER") None (Some 0)) =
  ([MSetUser "alice" "restart_on_resolution_change" (VBool true)],
   Some "Resolution check interval must be at least 1 second.").
Proof.
  apply (X20_rejected_interval_keeps_the_restart_settings
           (mkArgs None None None None (Some "alice") None)
           (mkRes (Some "USER") None (Some 0)) 0).
  - reflexivity.
  - lia.
  - reflexivity.
  - reflexivity.
Defined.
